(** * Lead Ignite data layer: discount validation, usage recording,
      affiliate payout scheduling, the in-memory CRUD base service and the
      MCP request dispatcher.

    The development embeds the Python sources function by function:

    - [PyDecimal]   the part of Python's decimal module the discounts use
    - [Discounts]   src/_data/discounts/{enums,models,service}.py
    - [Affiliate]   src/_data/user/affiliate/{enums,models}.py
    - [Crud]        src/_data/user/ai_chat_threads/services/base.py
    - [CrudRefs]    the same [update], on a heap of objects
    - [MCP]         src/_data/user/ai/mcp/{models,service}.py

    [CheckOrder] lists the checks of the discount validation in the order
    of the source and in the order of the specification, [Samples] holds
    the concrete data of the examples, and the theorems follow.

    Conventions.  Python [Decimal] values and their arithmetic follow the
    decimal module in its default context ([PyDecimal]): 28 significant
    digits, ROUND_HALF_EVEN, the signals InvalidOperation, DivisionByZero
    and Overflow trapped.  The affiliate earnings, validated to at most
    twelve digits, add up without rounding and are exact rationals.
    Timezone-aware instants that are only compared are integers
    (microseconds since the epoch); the payout computation, which takes
    dates apart, uses a civil date record.  The current time is an explicit
    argument [now] wherever the source reads the clock.  Python exceptions
    are values of a sum type. *)

From Stdlib Require Import ZArith QArith Qcanon Lia Lqa.
From stdpp Require Import base option list gmap strings numbers pretty.

Local Open Scope Z_scope.

(** Python truthiness of an optional string: [None] and the empty string
    are falsy. *)
Definition truthy_str (s : option string) : bool :=
  match s with
  | Some s => negb (String.eqb s "")
  | None => false
  end.

(** [x in xs] for an optional string and a list of strings; [None] is never
    an element of a list of strings. *)
Definition opt_in (x : option string) (xs : list string) : bool :=
  match x with
  | Some x => bool_decide (x ∈ xs)
  | None => false
  end.

(* ================================================================== *)
(** * Python's Decimal arithmetic *)
(* ================================================================== *)

Module PyDecimal.

(** A [decimal.Decimal]: a finite number [(-1)^sign * coefficient *
    10^exponent], an infinity, or a quiet or signaling NaN with its
    payload. *)
Inductive Decimal :=
  | Finite (sign : bool) (coefficient : N) (exponent : Z)
  | Infinity (sign : bool)
  | NaN (signaling : bool) (sign : bool) (payload : N).

Global Instance Decimal_eq_dec : EqDecision Decimal.
Proof. solve_decision. Defined.

(** The signals the default context traps; each is raised as the
    exception of its name. *)
Inductive DecimalException := InvalidOperation | DivisionByZero | Overflow.

Global Instance DecimalException_eq_dec : EqDecision DecimalException.
Proof. solve_decision. Defined.

(** The default context: 28 digits, ROUND_HALF_EVEN, exponents between
    -999999 and 999999, no clamping. *)
Definition prec : Z := 28.
Definition Emax : Z := 999999.
Definition Emin : Z := -999999.
Definition Etiny : Z := Emin - prec + 1.
Definition Etop : Z := Emax - prec + 1.

(** [len(self._int)]: the number of decimal digits of a coefficient, one
    for zero. *)
Fixpoint digits_aux (fuel : nat) (n : Z) : Z :=
  match fuel with
  | O => 1
  | S fuel => if n <? 10 then 1 else 1 + digits_aux fuel (n / 10)
  end.

Definition digits (c : N) : Z :=
  digits_aux (N.to_nat (N.log2 c)) (Z.of_N c).

(** ROUND_HALF_EVEN of the coefficient [c] when its last [k > 0] digits
    are dropped. *)
Definition round_half_even (c k : Z) : Z :=
  let q := c / 10 ^ k in
  let r := c mod 10 ^ k in
  if (10 ^ k <? 2 * r) || ((10 ^ k =? 2 * r) && Z.odd q) then q + 1 else q.

(** [Decimal._fix]: round a finite result to the precision and check the
    exponent range.  A coefficient that lies wholly below the last digit
    kept is rounded as the single digit 1 one place below it. *)
Definition _fix (sign : bool) (c : N) (e : Z) : DecimalException + Decimal :=
  if (c =? 0)%N then inr (Finite sign 0 (Z.min (Z.max e Etiny) Emax))
  else
    let exp_min := digits c + e - prec in
    if Etop <? exp_min then inl Overflow
    else
      let exp_min := Z.max exp_min Etiny in
      if e <? exp_min then
        let below := digits c + e - exp_min <? 0 in
        let c' := if below then 1 else Z.of_N c in
        let e' := if below then exp_min - 1 else e in
        let coeff := round_half_even c' (exp_min - e') in
        let carried := prec <? digits (Z.to_N coeff) in
        let coeff := if carried then coeff / 10 else coeff in
        let exp_min := if carried then exp_min + 1 else exp_min in
        if Etop <? exp_min then inl Overflow
        else inr (Finite sign (Z.to_N coeff) exp_min)
      else inr (Finite sign c e).

(** [Decimal._fix_nan]: the payload keeps its last [prec] digits. *)
Definition _fix_nan (sign : bool) (payload : N) : Decimal :=
  NaN false sign (Z.to_N (Z.of_N payload mod 10 ^ prec)).

(** [Decimal._check_nans]: a signaling NaN raises, a quiet one is the
    result; the first operand goes first. *)
Definition _check_nans (a b : Decimal)
    : option (DecimalException + Decimal) :=
  match a, b with
  | NaN true _ _, _ => Some (inl InvalidOperation)
  | _, NaN true _ _ => Some (inl InvalidOperation)
  | NaN false s p, _ => Some (inr (_fix_nan s p))
  | _, NaN false s p => Some (inr (_fix_nan s p))
  | _, _ => None
  end.

Definition signed (sign : bool) (c : N) : Z :=
  if sign then - Z.of_N c else Z.of_N c.

(** [Decimal.__mul__] *)
Definition dec_mul (a b : Decimal) : DecimalException + Decimal :=
  match _check_nans a b with
  | Some r => r
  | None =>
      match a, b with
      | Finite s1 c1 e1, Finite s2 c2 e2 =>
          _fix (xorb s1 s2) (c1 * c2) (e1 + e2)
      | Infinity s1, Finite s2 c2 _ =>
          if (c2 =? 0)%N then inl InvalidOperation
          else inr (Infinity (xorb s1 s2))
      | Finite s1 c1 _, Infinity s2 =>
          if (c1 =? 0)%N then inl InvalidOperation
          else inr (Infinity (xorb s1 s2))
      | Infinity s1, Infinity s2 => inr (Infinity (xorb s1 s2))
      | _, _ => inl InvalidOperation
      end
  end.

(** The exact quotient moves towards the ideal exponent: trailing zeros
    of the coefficient are dropped while the exponent is below it. *)
Fixpoint strip_zeros (fuel : nat) (coeff exp ideal : Z) : Z * Z :=
  match fuel with
  | O => (coeff, exp)
  | S fuel =>
      if (exp <? ideal) && (coeff mod 10 =? 0)
      then strip_zeros fuel (coeff / 10) (exp + 1) ideal
      else (coeff, exp)
  end.

(** [Decimal.__truediv__] *)
Definition dec_div (a b : Decimal) : DecimalException + Decimal :=
  match _check_nans a b with
  | Some r => r
  | None =>
      match a, b with
      | Finite s1 c1 e1, Finite s2 c2 e2 =>
          let sign := xorb s1 s2 in
          if (c2 =? 0)%N then
            if (c1 =? 0)%N then inl InvalidOperation else inl DivisionByZero
          else if (c1 =? 0)%N then _fix sign 0 (e1 - e2)
          else
            let shift := digits c2 - digits c1 + prec + 1 in
            let exp := e1 - e2 - shift in
            let coeff :=
              if 0 <=? shift then Z.of_N c1 * 10 ^ shift / Z.of_N c2
              else Z.of_N c1 / (Z.of_N c2 * 10 ^ (- shift)) in
            let remainder :=
              if 0 <=? shift then (Z.of_N c1 * 10 ^ shift) mod Z.of_N c2
              else Z.of_N c1 mod (Z.of_N c2 * 10 ^ (- shift)) in
            if remainder =? 0 then
              let ideal_exp := e1 - e2 in
              let '(coeff, exp) :=
                strip_zeros (Z.to_nat (ideal_exp - exp)) coeff exp ideal_exp in
              _fix sign (Z.to_N coeff) exp
            else
              _fix sign (Z.to_N (if coeff mod 5 =? 0 then coeff + 1 else coeff))
                exp
      | Infinity s1, Finite s2 _ _ => inr (Infinity (xorb s1 s2))
      | Finite s1 _ _, Infinity s2 => inr (Finite (xorb s1 s2) 0 Etiny)
      | _, _ => inl InvalidOperation
      end
  end.

(** [Decimal.__add__]: the exact sum at the smaller exponent, rounded.  A
    zero sum is negative only when both operands are. *)
Definition dec_add (a b : Decimal) : DecimalException + Decimal :=
  match _check_nans a b with
  | Some r => r
  | None =>
      match a, b with
      | Finite s1 c1 e1, Finite s2 c2 e2 =>
          let e := Z.min e1 e2 in
          let sum :=
            signed s1 c1 * 10 ^ (e1 - e) + signed s2 c2 * 10 ^ (e2 - e) in
          let sign := if sum =? 0 then s1 && s2 else sum <? 0 in
          _fix sign (Z.abs_N sum) e
      | Infinity s1, Infinity s2 =>
          if xorb s1 s2 then inl InvalidOperation else inr (Infinity s1)
      | Infinity s1, _ => inr (Infinity s1)
      | _, Infinity s2 => inr (Infinity s2)
      | _, _ => inl InvalidOperation
      end
  end.

(** [Decimal.copy_negate] *)
Definition copy_negate (a : Decimal) : Decimal :=
  match a with
  | Finite s c e => Finite (negb s) c e
  | Infinity s => Infinity (negb s)
  | NaN sig s p => NaN sig (negb s) p
  end.

(** [Decimal.__sub__] *)
Definition dec_sub (a b : Decimal) : DecimalException + Decimal :=
  match _check_nans a b with
  | Some r => r
  | None => dec_add a (copy_negate b)
  end.

(** [Decimal._cmp] of two numbers that are no NaN: the order of their
    values, both zeros being equal. *)
Definition _cmp (a b : Decimal) : comparison :=
  match a, b with
  | Finite s1 c1 e1, Finite s2 c2 e2 =>
      let e := Z.min e1 e2 in
      signed s1 c1 * 10 ^ (e1 - e) ?= signed s2 c2 * 10 ^ (e2 - e)
  | Infinity s1, Infinity s2 =>
      if eqb s1 s2 then Eq else if s1 then Lt else Gt
  | Infinity s1, _ => if s1 then Lt else Gt
  | _, Infinity s2 => if s2 then Gt else Lt
  | _, _ => Eq
  end.

Definition is_nan (a : Decimal) : bool :=
  match a with NaN _ _ _ => true | _ => false end.

(** The ordering comparisons: with a NaN on either side they signal
    InvalidOperation. *)
Definition compare_with (test : comparison -> bool) (a b : Decimal)
    : DecimalException + bool :=
  if is_nan a || is_nan b then inl InvalidOperation
  else inr (test (_cmp a b)).

Definition dec_lt := compare_with (fun c => bool_decide (c = Lt)).
Definition dec_gt := compare_with (fun c => bool_decide (c = Gt)).
Definition dec_le := compare_with (fun c => negb (bool_decide (c = Gt))).

(** The built-in [min(a, b)] and [max(a, b)] of two Decimals: [a] unless
    [b < a], respectively unless [b > a]. *)
Definition dec_min (a b : Decimal) : DecimalException + Decimal :=
  match dec_lt b a with
  | inl e => inl e
  | inr smaller => inr (if smaller then b else a)
  end.

Definition dec_max (a b : Decimal) : DecimalException + Decimal :=
  match dec_gt b a with
  | inl e => inl e
  | inr larger => inr (if larger then b else a)
  end.

(** [Decimal(n)] for an integer. *)
Definition dec_of_Z (n : Z) : Decimal := Finite (n <? 0) (Z.abs_N n) 0.

(** The finite Decimals the context holds without rounding: a coefficient
    of at most [prec] digits at an exponent that is not below [Etiny]. *)
Definition within_precision (a : Decimal) : bool :=
  match a with
  | Finite _ c e => (digits c <=? prec) && (Etiny <=? e)
  | _ => false
  end.

End PyDecimal.

(* ================================================================== *)
(** * Discounts *)
(* ================================================================== *)

Module Discounts.
Export PyDecimal.

(** The exceptions that pass through the discount code: the
    [AttributeError] of an attribute lookup on an object of the named
    type, the [TypeError] of an item assignment on such an object, the
    exception of a trapped Decimal signal, and whatever the storage
    adapter raises, of which only the text and whether its class derives
    from [Exception] matter here. *)
Inductive exn :=
  | AttributeError (type_name attribute : string)
  | ItemAssignmentError (type_name : string)
  | DecimalError (signal : DecimalException)
  | AdapterError (derives_from_Exception : bool) (text : string).

Global Instance exn_eq_dec : EqDecision exn.
Proof. solve_decision. Defined.

(** [isinstance(e, Exception)] *)
Definition is_Exception (e : exn) : bool :=
  match e with
  | AdapterError derives _ => derives
  | _ => true
  end.

(** enums.py *)
Inductive DiscountType := PERCENTAGE | FIXED_AMOUNT.

Global Instance DiscountType_eq_dec : EqDecision DiscountType.
Proof. solve_decision. Defined.

(** models.py, the fields of [BaseDiscount] together with the attributes
    its subclasses add.  The service probes those with [hasattr]; an
    attribute the object does not have is [None] here.  [affiliate_id]
    belongs to the affiliate discount class; it is [None] when the
    attribute is missing or unset.

    [_user_usage] is no field: pydantic skips annotated names that start
    with an underscore, so the name stays a plain class attribute, bound
    to the [FieldInfo] object that the call [Field(default_factory=dict,
    ...)] returned.  No instance ever holds a dictionary of usage
    counts. *)
Record BaseDiscount := {
  code : string;
  discount_type : DiscountType;
  discount_value : Decimal;
  max_uses : option Z;
  max_uses_per_user : option Z;
  used_count : Z;
  start_date : Z;
  end_date : option Z;
  is_active : bool;
  min_purchase_amount : option Decimal;
  updated_at : Z;
  allowed_products : option (list string);
  excluded_products : option (list string);
  allowed_categories : option (list string);
  excluded_categories : option (list string);
  affiliate_id : option string
}.

(** Assignment to the two fields the methods write. *)
Definition set_used_count (self : BaseDiscount) (n : Z) : BaseDiscount :=
  {| code := code self;
     discount_type := discount_type self;
     discount_value := discount_value self;
     max_uses := max_uses self;
     max_uses_per_user := max_uses_per_user self;
     used_count := n;
     start_date := start_date self;
     end_date := end_date self;
     is_active := is_active self;
     min_purchase_amount := min_purchase_amount self;
     updated_at := updated_at self;
     allowed_products := allowed_products self;
     excluded_products := excluded_products self;
     allowed_categories := allowed_categories self;
     excluded_categories := excluded_categories self;
     affiliate_id := affiliate_id self |}.

Definition set_updated_at (self : BaseDiscount) (now : Z) : BaseDiscount :=
  {| code := code self;
     discount_type := discount_type self;
     discount_value := discount_value self;
     max_uses := max_uses self;
     max_uses_per_user := max_uses_per_user self;
     used_count := used_count self;
     start_date := start_date self;
     end_date := end_date self;
     is_active := is_active self;
     min_purchase_amount := min_purchase_amount self;
     updated_at := now;
     allowed_products := allowed_products self;
     excluded_products := excluded_products self;
     allowed_categories := allowed_categories self;
     excluded_categories := excluded_categories self;
     affiliate_id := affiliate_id self |}.

(** The constraints pydantic enforces when a discount is constructed:
    the value and the minimum purchase are finite Decimals above zero,
    [gt=0] on the two usage limits, [ge=0] on the counter,
    [validate_discount_value] and [validate_dates]. *)
Definition opt_positive (o : option Z) : Prop :=
  match o with Some n => 0 < n | None => True end.

Definition finite_positive (d : Decimal) : Prop :=
  match d with
  | Finite false c _ => (0 < c)%N
  | _ => False
  end.

Record wf_discount (d : BaseDiscount) : Prop := {
  wf_value_pos : finite_positive (discount_value d);
  wf_percentage :
    discount_type d = PERCENTAGE ->
    dec_gt (discount_value d) (dec_of_Z 100) = inr false;
  wf_max_uses : opt_positive (max_uses d);
  wf_max_uses_per_user : opt_positive (max_uses_per_user d);
  wf_used_count : 0 <= used_count d;
  wf_min_purchase :
    match min_purchase_amount d with
    | Some m => finite_positive m
    | None => True
    end;
  wf_dates :
    match end_date d with
    | Some e => start_date d < e
    | None => True
    end
}.

(** A user id as the service accepts it: [Union[str, UUID, int]]. *)
Inductive user_ref :=
  | UserStr (s : string)
  | UserInt (n : Z)
  | UserUUID (text : string).

(** [bool(user_id)]: the empty string and the integer zero are falsy, a
    UUID object is always truthy. *)
Definition user_truthy (u : option user_ref) : bool :=
  match u with
  | Some (UserStr s) => negb (String.eqb s "")
  | Some (UserInt n) => negb (n =? 0)
  | Some (UserUUID _) => true
  | None => false
  end.

(** [str(user_id)] *)
Definition user_str (u : user_ref) : string :=
  match u with
  | UserStr s => s
  | UserInt n => pretty n
  | UserUUID text => text
  end.

(** [BaseDiscount.get_user_usage_count]: the body looks up [get] on
    [self._user_usage], which is the [FieldInfo] object of the class and
    has no such attribute, so every call raises [AttributeError]. *)
Definition get_user_usage_count (self : BaseDiscount) (user_id : string)
    : exn + Z :=
  inl (AttributeError "FieldInfo" "get").

(** The date checks at the end of [can_user_use_code]. *)
Definition within_dates (self : BaseDiscount) (now : Z) : bool :=
  if now <? start_date self then false
  else if match end_date self with
          | Some e => e <? now
          | None => false
          end then false
  else true.

(** [BaseDiscount.can_user_use_code] *)
Definition can_user_use_code (self : BaseDiscount) (user_id : option user_ref)
    (now : Z) : exn + bool :=
  if negb (is_active self) then inr false
  else if match max_uses self with
          | Some m => m <=? used_count self
          | None => false
          end then inr false
  else
    match user_id, max_uses_per_user self with
    | Some u, Some per_user =>
        if user_truthy user_id then
          match get_user_usage_count self (user_str u) with
          | inl e => inl e
          | inr user_usage =>
              if per_user <=? user_usage then inr false
              else inr (within_dates self now)
          end
        else inr (within_dates self now)
    | _, _ => inr (within_dates self now)
    end.

(** [BaseDiscount.record_usage]: the exception the call ends with, if any,
    and the object afterwards.  The counter is raised first; for a truthy
    user id the right-hand side of the assignment to
    [self._user_usage[...]] is evaluated next and raises, so neither a
    per-user count nor [updated_at] is written. *)
Definition record_usage (self : BaseDiscount) (user_id : option string)
    (now : Z) : option exn * BaseDiscount :=
  let counted := set_used_count self (used_count self + 1) in
  match user_id with
  | Some u =>
      if truthy_str user_id then
        match get_user_usage_count counted u with
        | inl e => (Some e, counted)
        | inr _ => (Some (ItemAssignmentError "FieldInfo"), counted)
        end
      else (None, set_updated_at counted now)
  | None => (None, set_updated_at counted now)
  end.

(** ** service.py *)

(** The [amount] argument, [Union[Decimal, float, int, str]].  A value that
    is not a [Decimal] goes through [Decimal(str(amount))]; the model
    records the outcome of that conversion with the argument: the Decimal
    it yields, or the text on which it raises [InvalidOperation]. *)
Inductive amount_arg :=
  | AmountDecimal (d : Decimal)
  | AmountConvertible (d : Decimal)
  | AmountMalformed (text : string).

(** [amount if isinstance(amount, Decimal) else Decimal(str(amount))];
    [inl] carries the text of the [InvalidOperation]. *)
Definition to_Decimal (amount : amount_arg) : string + Decimal :=
  match amount with
  | AmountDecimal d => inr d
  | AmountConvertible d => inr d
  | AmountMalformed text => inl text
  end.

(** The messages of the service.  Their texts are, in order:
    "Invalid discount code", "Invalid amount format",
    "This code is no longer active",
    "This code has reached its usage limit",
    "You have already used this code the maximum number of times",
    "This code is not yet valid", "This code has expired",
    "Minimum purchase amount of {m} required",
    "Invalid amount or minimum purchase amount: {e}",
    "This code is not valid for the selected product",
    "This code is not valid for the selected category",
    "This code is not valid for your account", "Valid discount code",
    "Invalid amount format: {e}", "Discount applied successfully",
    "Error applying discount: {e}". *)
Inductive message :=
  | InvalidDiscountCode
  | InvalidAmountFormat
  | NoLongerActive
  | UsageLimitReached
  | UserLimitReached
  | NotYetValid
  | Expired
  | MinimumPurchaseRequired (m : Decimal)
  | InvalidAmountOrMinimum (e : DecimalException)
  | NotValidForProduct
  | NotValidForCategory
  | NotValidForAccount
  | ValidDiscountCode
  | InvalidAmountFormatError (e : string)
  | DiscountApplied
  | ErrorApplyingDiscount (e : exn).

Global Instance message_eq_dec : EqDecision message.
Proof. solve_decision. Defined.

(** The keyword arguments [apply_discount] forwards to the validation. *)
Record kwargs := {
  product_id : option string;
  category_id : option string;
  kw_affiliate_id : option string
}.

(** The storage adapter handed to [DiscountService.__init__].  The
    repository has no implementation of it; the service calls
    [get_discount_by_code] and [record_usage] on it and probes it for
    [get_user_usage] with [hasattr] (absent: [None]).  The adapter owns its
    state, of type [store].  The two lookups are taken to read the state
    and to return; [record_usage] changes the state and may end with an
    exception. *)
Record StorageAdapter := {
  store : Type;
  get_discount_by_code : store -> string -> option BaseDiscount;
  get_user_usage : option (store -> string -> string -> Z);
  adapter_record_usage : store -> string -> option string -> option exn * store
}.

(** What a call of the service's two public methods ends with: an
    exception that leaves the method, or the tuple it returns. *)
Abbreviation validation := (bool * option BaseDiscount * message)%type.
Abbreviation application :=
  (bool * Decimal * option BaseDiscount * message)%type.

(** How one check of [validate_discount_code] ends: the [if] is not
    taken, its rejecting [return] is, or evaluating it raises. *)
Inductive check :=
  | Passes
  | Rejects (m : message)
  | Raises (e : exn).

Definition rejects (failed : bool) (m : message) : check :=
  if failed then Rejects m else Passes.

Section Service.

Context (A : StorageAdapter).

(** [self.storage]: [None] when the service was built without an adapter. *)
Definition DiscountService := option (store A).

(** [DiscountService._get_discount_by_code] *)
Definition _get_discount_by_code (self : DiscountService) (code : string)
    : option BaseDiscount :=
  match self with
  | Some st => get_discount_by_code A st code
  | None => None
  end.

(** [DiscountService._get_user_usage]: the adapter's count when the adapter
    has [get_user_usage], else the discount's own [get_user_usage_count]
    (every [BaseDiscount] has the method, so the [lambda] default of the
    [getattr] is never used). *)
Definition _get_user_usage (self : DiscountService) (discount : BaseDiscount)
    (user_id : string) : exn + Z :=
  match self, get_user_usage A with
  | Some st, Some usage => inr (usage st (code discount) user_id)
  | _, _ => get_user_usage_count discount user_id
  end.

(** The single checks of [validate_discount_code], in source order. *)
Definition total_limit_reached (discount : BaseDiscount) : bool :=
  match max_uses discount with
  | Some m => m <=? used_count discount
  | None => false
  end.

Definition user_limit_check (self : DiscountService) (discount : BaseDiscount)
    (user_id : option user_ref) : check :=
  match user_id, max_uses_per_user discount with
  | Some u, Some per_user =>
      if user_truthy user_id && negb (per_user =? 0) then
        match _get_user_usage self discount (user_str u) with
        | inl e => Raises e
        | inr user_usage => rejects (per_user <=? user_usage) UserLimitReached
        end
      else Passes
  | _, _ => Passes
  end.

Definition not_started (discount : BaseDiscount) (now : Z) : bool :=
  now <? start_date discount.

Definition has_expired (discount : BaseDiscount) (now : Z) : bool :=
  match end_date discount with
  | Some e => e <? now
  | None => false
  end.

(** The minimum purchase check: the comparison
    [amount < Decimal(str(discount.min_purchase_amount))] sits in a [try]
    whose handler turns an [InvalidOperation] into a rejection of its
    own.  [Decimal(str(m))] is [m] again. *)
Definition minimum_purchase (discount : BaseDiscount)
    (amount : option Decimal) : check :=
  match amount, min_purchase_amount discount with
  | Some a, Some m =>
      match dec_lt a m with
      | inl e => Rejects (InvalidAmountOrMinimum e)
      | inr below => rejects below (MinimumPurchaseRequired m)
      end
  | _, _ => Passes
  end.

Definition product_not_allowed (discount : BaseDiscount)
    (product_id : option string) : bool :=
  match allowed_products discount with
  | Some (p :: ps) =>
      truthy_str product_id && negb (opt_in product_id (p :: ps))
  | _ => false
  end.

Definition product_excluded (discount : BaseDiscount)
    (product_id : option string) : bool :=
  match excluded_products discount with
  | Some ps => opt_in product_id ps
  | None => false
  end.

Definition category_not_allowed (discount : BaseDiscount)
    (category_id : option string) : bool :=
  match allowed_categories discount with
  | Some (c :: cs) =>
      negb (truthy_str category_id) || negb (opt_in category_id (c :: cs))
  | _ => false
  end.

Definition category_excluded (discount : BaseDiscount)
    (category_id : option string) : bool :=
  match excluded_categories discount with
  | Some cs => opt_in category_id cs
  | None => false
  end.

Definition wrong_affiliate (discount : BaseDiscount)
    (affiliate : option string) : bool :=
  if truthy_str (affiliate_id discount)
  then negb (truthy_str affiliate)
       || negb (bool_decide (affiliate = affiliate_id discount))
  else false.

(** The conversion at the head of [validate_discount_code]: an absent
    amount stays absent, a Decimal is kept, anything else goes through
    [Decimal(str(amount))]. *)
Definition convert_amount (amount : option amount_arg)
    : string + option Decimal :=
  match amount with
  | None => inr None
  | Some a =>
      match to_Decimal a with
      | inr d => inr (Some d)
      | inl e => inl e
      end
  end.

(** [DiscountService.validate_discount_code] *)
Definition validate_discount_code (self : DiscountService) (now : Z)
    (code : string) (kw : kwargs) (user_id : option user_ref)
    (amount : option amount_arg) : exn + validation :=
  match _get_discount_by_code self code with
  | None => inr (false, None, InvalidDiscountCode)
  | Some discount =>
    match convert_amount amount with
    | inl _ => inr (false, Some discount, InvalidAmountFormat)
    | inr amount =>
      if negb (is_active discount) then
        inr (false, Some discount, NoLongerActive)
      else if total_limit_reached discount then
        inr (false, Some discount, UsageLimitReached)
      else match user_limit_check self discount user_id with
      | Raises e => inl e
      | Rejects m => inr (false, Some discount, m)
      | Passes =>
      if not_started discount now then
        inr (false, Some discount, NotYetValid)
      else if has_expired discount now then
        inr (false, Some discount, Expired)
      else match minimum_purchase discount amount with
      | Raises e => inl e
      | Rejects m => inr (false, Some discount, m)
      | Passes =>
      if product_not_allowed discount (product_id kw) then
        inr (false, Some discount, NotValidForProduct)
      else if product_excluded discount (product_id kw) then
        inr (false, Some discount, NotValidForProduct)
      else if category_not_allowed discount (category_id kw) then
        inr (false, Some discount, NotValidForCategory)
      else if category_excluded discount (category_id kw) then
        inr (false, Some discount, NotValidForCategory)
      else if wrong_affiliate discount (kw_affiliate_id kw) then
        inr (false, Some discount, NotValidForAccount)
      else inr (true, Some discount, ValidDiscountCode)
      end
      end
    end
  end.

(** [DiscountService._record_discount_usage]: the exception the call ends
    with, if any, the service and the discount object afterwards.  With an
    adapter the usage goes to the adapter; without one the discount's own
    [record_usage] runs (every [BaseDiscount] has it, so the bare
    [used_count += 1] fallback is never taken). *)
Definition _record_discount_usage (self : DiscountService)
    (discount : BaseDiscount) (user_id : option string) (now : Z)
    : option exn * DiscountService * BaseDiscount :=
  match self with
  | Some st =>
      let '(raised, st') := adapter_record_usage A st (code discount) user_id in
      (raised, Some st', discount)
  | None =>
      let '(raised, discount') := record_usage discount user_id now in
      (raised, None, discount')
  end.

(** The arithmetic of [apply_discount], in the Decimal context. *)
Definition discounted_amount (discount : BaseDiscount) (amount : Decimal)
    : DecimalException + Decimal :=
  match
    match discount_type discount with
    | PERCENTAGE =>
        match dec_mul amount (discount_value discount) with
        | inl e => inl e
        | inr product =>
            match dec_div product (dec_of_Z 100) with
            | inl e => inl e
            | inr discount_amount => dec_sub amount discount_amount
            end
        end
    | FIXED_AMOUNT =>
        match dec_min (discount_value discount) amount with
        | inl e => inl e
        | inr discount_amount => dec_sub amount discount_amount
        end
    end
  with
  | inl e => inl e
  | inr new_amount => dec_max (dec_of_Z 0) new_amount
  end.

(** [str(user_id) if user_id else None], the user the usage is recorded
    for. *)
Definition recording_user (user_id : option user_ref) : option string :=
  if user_truthy user_id then user_str <$> user_id else None.

(** [DiscountService.apply_discount].  The result pairs what the call
    ends with and the service state after it.  The validation runs outside
    the [try]; the arithmetic and the recording run inside it, and its
    [except Exception] handler answers [success=False] with the original
    amount.  The discount of the returned tuple is the object the
    validation returned, with the fields it had then. *)
Definition apply_discount (self : DiscountService) (now : Z) (code : string)
    (amount : amount_arg) (user_id : option user_ref) (kw : kwargs)
    : (exn + application) * DiscountService :=
  match to_Decimal amount with
  | inl e => (inr (false, dec_of_Z 0, None, InvalidAmountFormatError e), self)
  | inr amount =>
    match validate_discount_code self now code kw user_id
            (Some (AmountDecimal amount)) with
    | inl e => (inl e, self)
    | inr (true, Some discount, _) =>
        match discounted_amount discount amount with
        | inl e =>
            (inr (false, amount, Some discount,
                  ErrorApplyingDiscount (DecimalError e)), self)
        | inr new_amount =>
            let '(raised, self', _) :=
              _record_discount_usage self discount (recording_user user_id)
                now in
            match raised with
            | None =>
                (inr (true, new_amount, Some discount, DiscountApplied), self')
            | Some e =>
                if is_Exception e
                then (inr (false, amount, Some discount,
                           ErrorApplyingDiscount e), self')
                else (inl e, self')
            end
        end
    | inr (_, discount, message) =>
        (inr (false, amount, discount, message), self)
    end
  end.

End Service.

(** "The amount it returns equals the original amount": the returned
    Decimal is the Decimal value of the argument.  An argument that has no
    Decimal value equals no Decimal. *)
Definition same_amount (original : amount_arg) (returned : Decimal) : Prop :=
  match to_Decimal original with
  | inr d => returned = d
  | inl _ => False
  end.

End Discounts.

(* ================================================================== *)
(** * Affiliate payout scheduling *)
(* ================================================================== *)

Module Affiliate.

(** enums.py *)
Inductive PayoutSchedule := WEEKLY | BIWEEKLY | MONTHLY | QUARTERLY.

(** A naive [datetime], as [datetime.utcnow()] returns it. *)
Record datetime := {
  year : Z;
  month : Z;
  day : Z;
  hour : Z;
  minute : Z;
  second : Z;
  microsecond : Z
}.

Global Instance datetime_eq_dec : EqDecision datetime.
Proof. solve_decision. Defined.

Definition MAXYEAR : Z := 9999.

Definition is_leap (y : Z) : bool :=
  (y mod 4 =? 0) && (negb (y mod 100 =? 0) || (y mod 400 =? 0)).

Definition days_in_month (y m : Z) : Z :=
  match m with
  | 1 | 3 | 5 | 7 | 8 | 10 | 12 => 31
  | 4 | 6 | 9 | 11 => 30
  | 2 => if is_leap y then 29 else 28
  | _ => 0
  end.

(** The range checks of the [datetime] constructor: a date of the
    calendar with a time of day, not after year 9999. *)
Definition valid_civil (d : datetime) : bool :=
  (1 <=? year d)
  && (1 <=? month d) && (month d <=? 12)
  && (1 <=? day d) && (day d <=? days_in_month (year d) (month d))
  && (0 <=? hour d) && (hour d <? 24)
  && (0 <=? minute d) && (minute d <? 60)
  && (0 <=? second d) && (second d <? 60)
  && (0 <=? microsecond d) && (microsecond d <? 1000000).

Definition valid_datetime (d : datetime) : bool :=
  valid_civil d && (year d <=? MAXYEAR).

(** Two datetimes at the same time of day. *)
Definition same_time (a b : datetime) : Prop :=
  hour a = hour b /\ minute a = minute b /\ second a = second b
  /\ microsecond a = microsecond b.

(** [d.replace(month=m, day=dd, year=y)]; [None] is the [ValueError]. *)
Definition replace_ymd (d : datetime) (m dd y : Z) : option datetime :=
  let r := {| year := y; month := m; day := dd; hour := hour d;
              minute := minute d; second := second d;
              microsecond := microsecond d |} in
  if valid_datetime r then Some r else None.

(** The proleptic Gregorian ordinal, as [datetime.toordinal] computes it. *)
Definition days_before_year (y : Z) : Z :=
  let p := y - 1 in p * 365 + p / 4 - p / 100 + p / 400.

Definition days_before_month (y m : Z) : Z :=
  match m with
  | 1 => 0 | 2 => 31 | 3 => 59 | 4 => 90 | 5 => 120 | 6 => 151
  | 7 => 181 | 8 => 212 | 9 => 243 | 10 => 273 | 11 => 304 | 12 => 334
  | _ => 0
  end + (if (2 <? m) && is_leap y then 1 else 0).

Definition toordinal (d : datetime) : Z :=
  days_before_year (year d) + days_before_month (year d) (month d) + day d.

(** The day after [d], at the same time of day. *)
Definition next_day (d : datetime) : datetime :=
  let '(y, m, dd) :=
    if day d <? days_in_month (year d) (month d)
    then (year d, month d, day d + 1)
    else if month d <? 12 then (year d, month d + 1, 1)
    else (year d + 1, 1, 1) in
  {| year := y; month := m; day := dd; hour := hour d; minute := minute d;
     second := second d; microsecond := microsecond d |}.

(** [d + timedelta(weeks=w)]: [7 * w] days later at the same time of day;
    [None] is the [OverflowError] past year 9999. *)
Definition plus_weeks (d : datetime) (w : nat) : option datetime :=
  let r := Nat.iter (7 * w) next_day d in
  if year r <=? MAXYEAR then Some r else None.

(** The entries of the [values] dictionary the root validator touches.
    An entry that is missing (or [None]) is [None]. *)
Record values := {
  total_commissions : option Qc;
  pending_payout : option Qc;
  lifetime_earnings : Qc;
  next_payout_date : option datetime;
  payout_schedule : option PayoutSchedule
}.

Definition set_lifetime_earnings (v : values) (x : Qc) : values :=
  {| total_commissions := total_commissions v;
     pending_payout := pending_payout v;
     lifetime_earnings := x;
     next_payout_date := next_payout_date v;
     payout_schedule := payout_schedule v |}.

Definition set_next_payout_date (v : values) (d : datetime) : values :=
  {| total_commissions := total_commissions v;
     pending_payout := pending_payout v;
     lifetime_earnings := lifetime_earnings v;
     next_payout_date := Some d;
     payout_schedule := payout_schedule v |}.

(** The payout date the validator computes for a schedule at time [now];
    [None] is an exception leaving the validator ([ValueError] from the
    second [replace], [OverflowError] from the addition). *)
Definition compute_next_payout (schedule : PayoutSchedule) (now : datetime)
    : option datetime :=
  match schedule with
  | WEEKLY => plus_weeks now 1
  | BIWEEKLY => plus_weeks now 2
  | QUARTERLY => plus_weeks now 13
  | MONTHLY =>
      let next_month := month now mod 12 + 1 in
      let y := year now + (if next_month =? 1 then 1 else 0) in
      match replace_ymd now next_month 1 y with
      | Some next_date => Some next_date
      | None => replace_ymd now next_month 28 y
      end
  end.

(** [AffiliateProfile.calculate_lifetime_earnings], the root validator. *)
Definition calculate_lifetime_earnings (v : values) (now : datetime)
    : option values :=
  let total := default (Q2Qc 0) (total_commissions v) in
  let pending := default (Q2Qc 0) (pending_payout v) in
  let v := set_lifetime_earnings v (total + pending)%Qc in
  match next_payout_date v, payout_schedule v with
  | None, Some schedule =>
      set_next_payout_date v <$> compute_next_payout schedule now
  | _, _ => Some v
  end.

(** ** The schedule as the specification words it

    "calendar-aware recurring schedule computation
    (weekly/biweekly/monthly/quarterly rollover with month-end clamping)":
    weekly and biweekly advance by one and two weeks, monthly and quarterly
    move one and three calendar months ahead, keeping the day of the month
    and clamping it to the length of the target month. *)
Definition add_months_clamped (d : datetime) (n : Z) : datetime :=
  let k := month d - 1 + n in
  let y := year d + k / 12 in
  let m := k mod 12 + 1 in
  {| year := y; month := m; day := Z.min (day d) (days_in_month y m);
     hour := hour d; minute := minute d; second := second d;
     microsecond := microsecond d |}.

Definition spec_next_payout (schedule : PayoutSchedule) (now : datetime)
    : option datetime :=
  match schedule with
  | WEEKLY => plus_weeks now 1
  | BIWEEKLY => plus_weeks now 2
  | MONTHLY => Some (add_months_clamped now 1)
  | QUARTERLY => Some (add_months_clamped now 3)
  end.

End Affiliate.

(* ================================================================== *)
(** * The in-memory CRUD base service *)
(* ================================================================== *)

Module Crud.

Abbreviation UUID := Z.

(** Attribute and filter values. *)
Inductive val :=
  | VNone
  | VBool (b : bool)
  | VInt (n : Z)
  | VStr (s : string)
  | VUuid (u : UUID).

(** Python [==] on these values; a [bool] is the integer 0 or 1. *)
Definition py_eq (a b : val) : bool :=
  match a, b with
  | VNone, VNone => true
  | VBool x, VBool y => Bool.eqb x y
  | VBool x, VInt n | VInt n, VBool x => n =? (if x then 1 else 0)
  | VInt m, VInt n => m =? n
  | VStr s, VStr t => String.eqb s t
  | VUuid u, VUuid v => u =? v
  | _, _ => false
  end.

(** A stored model instance: its [id] and its other attributes. *)
Record Item := {
  id : UUID;
  attrs : gmap string val
}.

(** [getattr(item, key)]; [None] is the [AttributeError]. *)
Definition getattr (item : Item) (key : string) : option val :=
  if String.eqb key "id" then Some (VUuid (id item)) else attrs item !! key.

(** ** A Python [dict] with [UUID] keys: insertion-ordered, one entry per
    key. *)
Abbreviation dict := (list (UUID * Item)).

Fixpoint dict_get (d : dict) (k : UUID) : option Item :=
  match d with
  | [] => None
  | (k', v) :: rest => if k' =? k then Some v else dict_get rest k
  end.

(** [d[k] = v]: an existing key keeps its position, a new key goes last. *)
Fixpoint dict_set (d : dict) (k : UUID) (v : Item) : dict :=
  match d with
  | [] => [(k, v)]
  | (k', v') :: rest =>
      if k' =? k then (k, v) :: rest else (k', v') :: dict_set rest k v
  end.

(** [del d[k]] for a key that is present. *)
Fixpoint dict_del (d : dict) (k : UUID) : dict :=
  match d with
  | [] => []
  | (k', v') :: rest => if k' =? k then rest else (k', v') :: dict_del rest k
  end.

Definition dict_contains (d : dict) (k : UUID) : bool :=
  match dict_get d k with Some _ => true | None => false end.

Definition dict_values (d : dict) : list Item := d.*2.

(** The dictionaries Python can build: no key occurs twice. *)
Definition dict_ok (d : dict) : Prop := NoDup d.*1.

Section Service.

(** [self.model_class], called on the entries of a dictionary: builds an
    item or raises
    (the text of the exception on the left). *)
Context (model_class : list (string * val) -> string + Item).

(** The argument of [create]: a dictionary or a model instance. *)
Inductive create_arg :=
  | FromDict (data : list (string * val))
  | FromItem (item : Item).

(** [BaseService]: the state is the [_storage] dictionary. *)
Record BaseService := { _storage : dict }.

(** [BaseService.__init__] *)
Definition init : BaseService := {| _storage := [] |}.

(** [BaseService.get] *)
Definition get (self : BaseService) (k : UUID) : option Item :=
  dict_get (_storage self) k.

(** [all(getattr(item, key) == value for key, value in filters.items())]:
    stops at the first pair that differs; [inl] is the [AttributeError] of a
    [getattr] that was reached. *)
Fixpoint all_match (item : Item) (filters : list (string * val))
    : string + bool :=
  match filters with
  | [] => inr true
  | (key, value) :: rest =>
      match getattr item key with
      | None => inl key
      | Some a => if py_eq a value then all_match item rest else inr false
      end
  end.

(** The list comprehension of [list]: items are tested in order and the
    first exception ends the evaluation. *)
Fixpoint select (items : list Item) (filters : list (string * val))
    : string + list Item :=
  match items with
  | [] => inr []
  | item :: rest =>
      match all_match item filters with
      | inl e => inl e
      | inr keep =>
          match select rest filters with
          | inl e => inl e
          | inr kept => inr (if keep then item :: kept else kept)
          end
      end
  end.

(** [BaseService.list] *)
Definition list_ (self : BaseService) (filters : list (string * val))
    : string + list Item :=
  let results := dict_values (_storage self) in
  match filters with
  | [] => inr results
  | _ => select results filters
  end.

(** [BaseService.create]; [inl] when the model constructor raises, in which
    case nothing is stored. *)
Definition create (self : BaseService) (data : create_arg)
    : string + (Item * BaseService) :=
  match match data with
        | FromDict d => model_class d
        | FromItem item => inr item
        end with
  | inl e => inl e
  | inr item =>
      inr (item, {| _storage := dict_set (_storage self) (id item) item |})
  end.

(** [BaseService.delete] *)
Definition delete (self : BaseService) (k : UUID) : bool * BaseService :=
  if dict_contains (_storage self) k
  then (true, {| _storage := dict_del (_storage self) k |})
  else (false, self).

(** [BaseService.exists] *)
Definition exists_ (self : BaseService) (k : UUID) : bool :=
  dict_contains (_storage self) k.

(** [BaseService.count] *)
Definition count (self : BaseService) (filters : list (string * val))
    : string + nat :=
  match list_ self filters with
  | inl e => inl e
  | inr items => inr (length items)
  end.

End Service.

(** The reading of [list] in the specification: "returns exactly the stored
    items whose named attributes equal the filter values". *)
Definition has_filter_values (item : Item) (filters : list (string * val))
    : bool :=
  forallb (fun kv => match getattr item kv.1 with
                     | Some a => py_eq a kv.2
                     | None => false
                     end) filters.

Definition spec_list (self : BaseService) (filters : list (string * val))
    : list Item :=
  filter (fun item => has_filter_values item filters)
         (dict_values (_storage self)).

End Crud.

(* ================================================================== *)
(** * The MCP request dispatcher *)
(* ================================================================== *)

Module MCP.

Abbreviation UUID := Z.

(** JSON-like Python values: parameters, context and handler results. *)
#[warnings="-register-all"]
Inductive pyval :=
  | PNone
  | PBool (b : bool)
  | PInt (n : Z)
  | PStr (s : string)
  | PList (items : list pyval)
  | PDict (entries : list (string * pyval)).

Abbreviation pydict := (list (string * pyval)).

(** The exception classes the dispatcher can meet.  [ValidationError] is
    pydantic's (the one service.py imports); [NonException] stands for the
    classes that derive from [BaseException] only, which
    [except Exception] does not catch. *)
Inductive exn_class :=
  | ValidationError
  | ToolNotFoundError
  | TypeError
  | UnboundLocalError
  | OtherException (name : string)
  | NonException (name : string).

Record exn := { exn_type : exn_class; exn_text : string }.

(** [e.__class__.__name__] *)
Definition class_name (c : exn_class) : string :=
  match c with
  | ValidationError => "ValidationError"
  | ToolNotFoundError => "ToolNotFoundError"
  | TypeError => "TypeError"
  | UnboundLocalError => "UnboundLocalError"
  | OtherException name => name
  | NonException name => name
  end.

(** [isinstance(e, Exception)] and [isinstance(e, ValidationError)] *)
Definition is_Exception (e : exn) : bool :=
  match exn_type e with NonException _ => false | _ => true end.

Definition is_ValidationError (e : exn) : bool :=
  match exn_type e with ValidationError => true | _ => false end.

(** models.py *)
Inductive MCPStatus := PENDING | PROCESSING | COMPLETED | FAILED.

Record MCPResult := {
  success : bool;
  data : option pydict;
  error : option string;
  metadata : pydict
}.

Record MCPRequest := {
  request_id : UUID;
  operation : string;
  parameters : pydict;
  context : pydict
}.

(** Of [MCPResponse] the fields the dispatcher sets; [metadata] and
    [completed_at] keep their defaults. *)
Record MCPResponse := {
  response_request_id : UUID;
  status : MCPStatus;
  result : option MCPResult
}.

(** What a handler hands back, and what calling it can do.  A dictionary
    some of whose keys are no strings comes with what pydantic's
    validation of [Dict[str, Any]] makes of it: the dictionary with its
    keys coerced to strings, or the text of the [ValidationError] it
    raises. *)
Inductive handler_value :=
  | ResultObject (r : MCPResult)
  | PlainValue (v : pyval)
  | KeyedDict (validated : string + pydict).

Inductive handler_outcome :=
  | Returns (v : handler_value)
  | Raises (e : exn).

(** A handler: the way the error message of a call names the callable
    (for a function its module and qualified name, followed by
    parentheses), and what awaiting its call with the request parameters
    as keyword arguments and the context does. *)
Record handler_fn := {
  callee : string;
  run : pydict -> pydict -> handler_outcome
}.

Record MCPTool := {
  name : string;
  description : string;
  handler : option handler_fn
}.

(** [MCPToolRegistry._tools] and [MCPToolRegistry.get_tool] *)
Abbreviation registry := (gmap string MCPTool).

Definition get_tool (tools : registry) (name : string) : option MCPTool :=
  tools !! name.

(** How a call of [process_request] ends. *)
Inductive outcome :=
  | Return (response : MCPResponse)
  | Raise (e : exn).

(** The call of [tool.handler] with the request parameters unpacked as
    keyword arguments and [context=request.context]: a [context] entry
    among the parameters is a duplicate keyword argument. *)
Definition call_handler (h : handler_fn) (request : MCPRequest)
    : handler_outcome :=
  if bool_decide ("context" ∈ (parameters request).*1)
  then Raises
         {| exn_type := TypeError;
            exn_text :=
              callee h
              +:+ " got multiple values for keyword argument 'context'" |}
  else run h (parameters request) (context request).

(** The [MCPResult] for what the handler returned: the object itself, or
    [MCPResult(success=True, data=...)] with the returned dictionary or,
    for any other value, with the dictionary that holds it under
    "result".  The constructor validates [data] and raises for a
    dictionary whose keys it cannot take as strings. *)
Definition as_result (v : handler_value) : exn + MCPResult :=
  match v with
  | ResultObject r => inr r
  | PlainValue (PDict entries) =>
      inr {| success := true; data := Some entries; error := None;
             metadata := [] |}
  | PlainValue other =>
      inr {| success := true; data := Some [("result", other)];
             error := None; metadata := [] |}
  | KeyedDict (inr entries) =>
      inr {| success := true; data := Some entries; error := None;
             metadata := [] |}
  | KeyedDict (inl text) =>
      inl {| exn_type := ValidationError; exn_text := text |}
  end.

Definition failed_response (rid : UUID) (text class : string) : MCPResponse :=
  {| response_request_id := rid;
     status := FAILED;
     result := Some {| success := false; data := None; error := Some text;
                       metadata := [("error_type", PStr class)] |} |}.

(** The two outer [except] handlers.  Both start by evaluating the local
    variable [request] (inside [getattr(request, 'request_id', uuid4())]);
    when the exception left the [try] block before [request] was assigned,
    that evaluation raises [UnboundLocalError]. *)
Definition unbound_request : exn :=
  {| exn_type := UnboundLocalError;
     exn_text := "cannot access local variable 'request'" |}.

Definition on_validation_error (request : option MCPRequest) (e : exn)
    : outcome :=
  match request with
  | None => Raise unbound_request
  | Some r =>
      Return (failed_response (request_id r)
                ("Invalid request: " +:+ exn_text e) "ValidationError")
  end.

Definition on_exception (request : option MCPRequest) (e : exn) : outcome :=
  match request with
  | None => Raise unbound_request
  | Some r =>
      Return (failed_response (request_id r)
                ("Internal server error: " +:+ exn_text e)
                (class_name (exn_type e)))
  end.

(** The argument of [process_request]: a dictionary or a request object. *)
Inductive request_data :=
  | FromDict (fields : pydict)
  | FromRequest (r : MCPRequest).

Section Service.

(** pydantic's [MCPRequest] constructor applied to the entries of a
    dictionary: the validated request or the exception it raises. *)
Context (parse_request : pydict -> exn + MCPRequest).

(** The inner [except Exception] handler, which answers FAILED; an
    exception it does not catch goes on to the outer handlers. *)
Definition on_handler_error (request : MCPRequest) (e : exn)
    : option MCPRequest * (exn + outcome) :=
  if is_Exception e
  then (Some request,
        inr (Return (failed_response (request_id request) (exn_text e)
                       (class_name (exn_type e)))))
  else (Some request, inl e).

(** The body of the outer [try].  It yields the binding of the local
    [request] when the block is left together with how it is left: by an
    exception that reaches the outer handlers ([inl]) or by a [return]
    ([inr]).  The handler call and the construction of the result both
    sit in the inner [try]. *)
Definition try_body (tools : registry) (input : request_data)
    : option MCPRequest * (exn + outcome) :=
  match match input with
        | FromDict fields => parse_request fields
        | FromRequest r => inr r
        end with
  | inl e => (None, inl e)
  | inr request =>
      match get_tool tools (operation request) ≫= handler with
      | None =>
          (Some request,
           inl {| exn_type := ToolNotFoundError;
                  exn_text := "Unknown operation: " +:+ operation request |})
      | Some h =>
          match call_handler h request with
          | Returns v =>
              match as_result v with
              | inr r =>
                  (Some request,
                   inr (Return {| response_request_id := request_id request;
                                  status := COMPLETED;
                                  result := Some r |}))
              | inl e => on_handler_error request e
              end
          | Raises e => on_handler_error request e
          end
      end
  end.

(** [MCPService.process_request] *)
Definition process_request (tools : registry) (input : request_data)
    : outcome :=
  match try_body tools input with
  | (_, inr done) => done
  | (request, inl e) =>
      if is_ValidationError e then on_validation_error request e
      else if is_Exception e then on_exception request e
      else Raise e
  end.

End Service.

End MCP.

(* ================================================================== *)
(** * The validation checks as an ordered list *)
(* ================================================================== *)

Module CheckOrder.
Import Discounts.

(** How the first check of a list that does not pass ends. *)
Fixpoint first_failure (checks : list check) : check :=
  match checks with
  | [] => Passes
  | Passes :: rest => first_failure rest
  | failed :: _ => failed
  end.

Definition amount_malformed (amount : option amount_arg) : bool :=
  match convert_amount amount with inl _ => true | inr _ => false end.

Definition amount_value (amount : option amount_arg) : option Decimal :=
  match convert_amount amount with inl _ => None | inr a => a end.

Section Checks.

Context (A : StorageAdapter) (self : DiscountService A) (now : Z)
        (kw : kwargs) (user_id : option user_ref)
        (amount : option amount_arg) (discount : BaseDiscount).

Definition usage_checks : list check :=
  [ rejects (total_limit_reached discount) UsageLimitReached;
    user_limit_check A self discount user_id ].

Definition date_checks : list check :=
  [ rejects (not_started discount now) NotYetValid;
    rejects (has_expired discount now) Expired ].

Definition minimum_purchase_check : list check :=
  [ minimum_purchase discount (amount_value amount) ].

Definition product_checks : list check :=
  [ rejects (product_not_allowed discount (product_id kw)) NotValidForProduct;
    rejects (product_excluded discount (product_id kw)) NotValidForProduct ].

Definition category_checks : list check :=
  [ rejects (category_not_allowed discount (category_id kw))
      NotValidForCategory;
    rejects (category_excluded discount (category_id kw))
      NotValidForCategory ].

Definition affiliate_check : list check :=
  [ rejects (wrong_affiliate discount (kw_affiliate_id kw))
      NotValidForAccount ].

(** The order the specification gives: usage limits, date window, minimum
    purchase, then product, category and affiliate scoping. *)
Definition spec_order : list check :=
  usage_checks ++ date_checks ++ minimum_purchase_check
  ++ product_checks ++ category_checks ++ affiliate_check.

(** The order of the source: the amount conversion and the [is_active]
    flag come before all of the above. *)
Definition source_order : list check :=
  [ rejects (amount_malformed amount) InvalidAmountFormat;
    rejects (negb (is_active discount)) NoLongerActive ]
  ++ spec_order.

(** The checks [BaseDiscount.can_user_use_code] shares with the service:
    the [is_active] flag, the usage limits and the date window. *)
Definition prefix_order : list check :=
  [ rejects (negb (is_active discount)) NoLongerActive ]
  ++ usage_checks ++ date_checks.

(** What a list of checks makes the validation end with. *)
Definition verdict (checks : list check) : exn + validation :=
  match first_failure checks with
  | Passes => inr (true, Some discount, ValidDiscountCode)
  | Rejects m => inr (false, Some discount, m)
  | Raises e => inl e
  end.

End Checks.

End CheckOrder.

(* ================================================================== *)
(** * Discount status *)
(* ================================================================== *)

Module DiscountModel.
Import Discounts.

(** enums.py *)
Inductive DiscountStatus := ACTIVE | INACTIVE | EXPIRED | USAGE_LIMIT_REACHED.

Global Instance DiscountStatus_eq_dec : EqDecision DiscountStatus.
Proof. solve_decision. Defined.

(** [BaseDiscount.status] *)
Definition status (self : BaseDiscount) (now : Z) : DiscountStatus :=
  if negb (is_active self) then INACTIVE
  else if match max_uses self with
          | Some m => m <=? used_count self
          | None => false
          end then USAGE_LIMIT_REACHED
  else if match end_date self with
          | Some e => e <? now
          | None => false
          end then EXPIRED
  else if now <? start_date self then INACTIVE
  else ACTIVE.

(** [BaseDiscount.is_usable] *)
Definition is_usable (self : BaseDiscount) (now : Z) : bool :=
  bool_decide (status self now = ACTIVE).

(** The discount after [n] calls of [BaseDiscount.record_usage] for the
    same user, one after the other, each of which may have returned or
    raised. *)
Definition record_usages (n : nat) (user_id : option string) (now : Z)
    (self : BaseDiscount) : BaseDiscount :=
  Nat.iter n (fun d => (record_usage d user_id now).2) self.

End DiscountModel.

(* ================================================================== *)
(** * [BaseService.update] and the participant service *)
(* ================================================================== *)

Module CrudUpdate.
Import Crud.

Section Update.

(** [setattr(item, key, value)] on a model with [validate_assignment]:
    the item after the assignment, or the text of the exception the
    validation raises. *)
Context (setattr : Item -> string -> val -> string + Item).

(** The argument of [update]: a dictionary or a model instance. *)
Inductive update_arg :=
  | WithDict (data : list (string * val))
  | WithItem (item : Item).

(** The loop of [update] over the entries of the dictionary: a key the
    item has no attribute for is skipped, an assignment that raises ends
    the loop.  The item is changed in place, so the assignments made before
    an exception stay. *)
Fixpoint assign_all (item : Item) (data : list (string * val))
    : Item * option string :=
  match data with
  | [] => (item, None)
  | (key, value) :: rest =>
      match getattr item key with
      | Some _ =>
          match setattr item key value with
          | inr item' => assign_all item' rest
          | inl e => (item, Some e)
          end
      | None => assign_all item rest
      end
  end.

(** [BaseService.update] read by value: what the call returns ([inl] for
    an exception) and the service afterwards.  The dictionary branch
    changes the stored object in place, which shows under the id of the
    call.  An object stored under a second id as well would change there
    too: [CrudRefs.update] follows the objects themselves, and agrees with
    this reading on every storage that holds no object twice. *)
Definition update (self : BaseService) (k : UUID) (data : update_arg)
    : (string + option Item) * BaseService :=
  match dict_get (_storage self) k with
  | None => (inr None, self)
  | Some item =>
      match data with
      | WithDict entries =>
          let '(item', raised) := assign_all item entries in
          (match raised with
           | Some e => inl e
           | None => inr (Some item')
           end,
           {| _storage := dict_set (_storage self) k item' |})
      | WithItem new =>
          (inr (Some new), {| _storage := dict_set (_storage self) k new |})
      end
  end.

End Update.

End CrudUpdate.

Module Participants.
Import Crud CrudUpdate.

(** models/base.py; the models store the value of the enum member. *)
Inductive ParticipantRole := USER | AI | SYSTEM | ADMIN | BOT.

Definition role_value (r : ParticipantRole) : string :=
  match r with
  | USER => "user"
  | AI => "ai"
  | SYSTEM => "system"
  | ADMIN => "admin"
  | BOT => "bot"
  end.

Section Service.

(** The constructors the service uses: [model_class] on a dictionary and
    [Participant(thread_id=..., user_id=..., role=..., ...)] with further
    keyword arguments; each yields the instance or raises. *)
Context (model_class : list (string * val) -> string + Item)
        (setattr : Item -> string -> val -> string + Item)
        (Participant :
           UUID -> UUID -> ParticipantRole -> list (string * val)
           -> string + Item).

(** [ParticipantService.get_by_thread_and_user] *)
Definition get_by_thread_and_user (self : BaseService) (thread_id user_id : UUID)
    : string + option Item :=
  match list_ self [("thread_id", VUuid thread_id);
                    ("user_id", VUuid user_id)] with
  | inl e => inl e
  | inr participants => inr (head participants)
  end.

(** [ParticipantService.add_participant] *)
Definition add_participant (self : BaseService) (thread_id user_id : UUID)
    (role : ParticipantRole) (kwargs : list (string * val))
    : string + (Item * BaseService) :=
  match get_by_thread_and_user self thread_id user_id with
  | inl e => inl e
  | inr (Some existing) => inr (existing, self)
  | inr None =>
      match Participant thread_id user_id role kwargs with
      | inl e => inl e
      | inr participant => create model_class self (FromItem participant)
      end
  end.

(** [ParticipantService.remove_participant] *)
Definition remove_participant (self : BaseService) (thread_id user_id : UUID)
    : string + (bool * BaseService) :=
  match get_by_thread_and_user self thread_id user_id with
  | inl e => inl e
  | inr None => inr (false, self)
  | inr (Some participant) => inr (delete self (id participant))
  end.

(** [participant.role = role] *)
Definition with_role (participant : Item) (role : ParticipantRole) : Item :=
  {| id := id participant;
     attrs := <["role" := VStr (role_value role)]> (attrs participant) |}.

(** [ParticipantService.update_role] *)
Definition update_role (self : BaseService) (thread_id user_id : UUID)
    (role : ParticipantRole) : string + (bool * BaseService) :=
  match get_by_thread_and_user self thread_id user_id with
  | inl e => inl e
  | inr None => inr (false, self)
  | inr (Some participant) =>
      let participant := with_role participant role in
      match update setattr self (id participant) (WithItem participant) with
      | (inl e, _) => inl e
      | (inr _, self') => inr (true, self')
      end
  end.

(** [ParticipantService.list_by_thread] and [count_by_thread]: the thread
    filter comes first; a [thread_id] among the further filters is a
    duplicate keyword argument. *)
Definition list_by_thread (self : BaseService) (thread_id : UUID)
    (filters : list (string * val)) : string + list Item :=
  if bool_decide ("thread_id" ∈ filters.*1) then inl "TypeError"
  else list_ self (("thread_id", VUuid thread_id) :: filters).

Definition count_by_thread (self : BaseService) (thread_id : UUID)
    (filters : list (string * val)) : string + nat :=
  if bool_decide ("thread_id" ∈ filters.*1) then inl "TypeError"
  else count self (("thread_id", VUuid thread_id) :: filters).

End Service.

(** A stored participant of [thread_id] and [user_id]. *)
Definition is_member (thread_id user_id : UUID) (item : Item) : bool :=
  has_filter_values item [("thread_id", VUuid thread_id);
                          ("user_id", VUuid user_id)].

(** What the participant service keeps true of its storage: the
    dictionary is well formed, every item is stored under its own id and
    has a thread and a user, and no thread has the same user twice. *)
Record members_ok (self : BaseService) : Prop := {
  members_dict : dict_ok (_storage self);
  members_keys : Forall (fun kv => kv.1 = id kv.2) (_storage self);
  members_attrs :
    Forall (fun item =>
              exists t u,
                getattr item "thread_id" = Some (VUuid t)
                /\ getattr item "user_id" = Some (VUuid u))
           (dict_values (_storage self));
  members_unique :
    forall t u,
      (length (filter (fun item => is_member t u item)
                 (dict_values (_storage self))) <= 1)%nat
}.

(** What the [Participant] constructor guarantees of an instance it
    returns. *)
Definition builds_participants
    (Participant :
       UUID -> UUID -> ParticipantRole -> list (string * val)
       -> string + Item) : Prop :=
  forall t u r kw p,
    Participant t u r kw = inr p ->
    getattr p "thread_id" = Some (VUuid t)
    /\ getattr p "user_id" = Some (VUuid u)
    /\ getattr p "role" = Some (VStr (role_value r)).

End Participants.

(* ================================================================== *)
(** * [BaseService.update] on object references *)
(* ================================================================== *)

(** Python binds a dictionary value to an object, not to a copy of it:
    [update(id, item)] stores the very object it is given, and
    [setattr] in the dictionary branch changes the stored object where it
    lies.  Here the model instances live in a heap and the storage holds
    their addresses, so that one object can sit under two ids. *)
Module CrudRefs.
Import Crud.

Abbreviation addr := nat.

(** The objects by address. *)
Abbreviation heap := (addr -> Item).

Definition heap_set (h : heap) (a : addr) (item : Item) : heap :=
  fun b => if (b =? a)%nat then item else h b.

(** A Python [dict] from ids to objects. *)
Abbreviation dict := (list (UUID * addr)).

Fixpoint dict_get (d : dict) (k : UUID) : option addr :=
  match d with
  | [] => None
  | (k', v) :: rest => if k' =? k then Some v else dict_get rest k
  end.

Fixpoint dict_set (d : dict) (k : UUID) (v : addr) : dict :=
  match d with
  | [] => [(k, v)]
  | (k', v') :: rest =>
      if k' =? k then (k, v) :: rest else (k', v') :: dict_set rest k v
  end.

Record BaseService := { _storage : dict }.

(** [BaseService.get]: the stored object itself. *)
Definition get (self : BaseService) (k : UUID) : option addr :=
  dict_get (_storage self) k.

Section Update.

Context (setattr : Item -> string -> val -> string + Item).

(** The argument of [update]: a dictionary or a model instance. *)
Inductive update_arg :=
  | WithDict (data : list (string * val))
  | WithItem (item : addr).

(** [for key, value in data.items(): if hasattr(item, key):
    setattr(item, key, value)] on the object at [item]. *)
Fixpoint assign_all (h : heap) (item : addr) (data : list (string * val))
    : heap * option string :=
  match data with
  | [] => (h, None)
  | (key, value) :: rest =>
      match getattr (h item) key with
      | Some _ =>
          match setattr (h item) key value with
          | inr changed => assign_all (heap_set h item changed) item rest
          | inl e => (h, Some e)
          end
      | None => assign_all h item rest
      end
  end.

(** [BaseService.update]: what the call returns ([inl] for an exception),
    the service and the heap afterwards.  The dictionary branch leaves
    [_storage] alone and changes the object; the other branch binds [id]
    to the given object. *)
Definition update (self : BaseService) (h : heap) (k : UUID)
    (data : update_arg) : (string + option addr) * BaseService * heap :=
  match dict_get (_storage self) k with
  | None => (inr None, self, h)
  | Some item =>
      match data with
      | WithDict entries =>
          let '(h', raised) := assign_all h item entries in
          (match raised with
           | Some e => inl e
           | None => inr (Some item)
           end, self, h')
      | WithItem new =>
          (inr (Some new), {| _storage := dict_set (_storage self) k new |}, h)
      end
  end.

End Update.

(** ** Reading a storage of references by value *)

(** The items a storage holds, each read from the heap. *)
Definition stored (h : heap) (self : BaseService) : Crud.BaseService :=
  {| Crud._storage := (fun kv => (kv.1, h kv.2)) <$> _storage self |}.

Definition arg_value (h : heap) (data : update_arg) : CrudUpdate.update_arg :=
  match data with
  | WithDict entries => CrudUpdate.WithDict entries
  | WithItem new => CrudUpdate.WithItem (h new)
  end.

Definition answer_value (h : heap) (answer : string + option addr)
    : string + option Item :=
  match answer with
  | inl e => inl e
  | inr item => inr (h <$> item)
  end.

(** No object is stored under two ids. *)
Definition unshared (self : BaseService) : Prop := NoDup (_storage self).*2.

End CrudRefs.

(* ================================================================== *)
(** * The MCP tool registry *)
(* ================================================================== *)

Module MCPRegistry.
Import MCP.

(** [MCPTool] in full: the fields the dispatcher reads, and the parameter
    schema and the list of required parameters it does not read. *)
Record ToolSpec := {
  tool : MCPTool;
  tool_parameters : pydict;
  required : list string
}.

(** [MCPToolRegistry._tools] *)
Abbreviation tools := (gmap string ToolSpec).

(** The registry as the dispatcher sees it. *)
Definition dispatch_table (r : tools) : registry := tool <$> r.

(** [MCPToolRegistry.register(tool)(func)]: the handler is set on the
    tool, and the tool is stored under its name. *)
Definition register (r : tools) (t : ToolSpec) (func : handler_fn) : tools :=
  <[name (tool t) :=
      {| tool := {| name := name (tool t);
                    description := description (tool t);
                    handler := Some func |};
         tool_parameters := tool_parameters t;
         required := required t |}]> r.

(** The registry after a sequence of registrations, the first one made on
    the empty class attribute. *)
Definition registered (regs : list (ToolSpec * handler_fn)) : tools :=
  foldl (fun r reg => register r reg.1 reg.2) ∅ regs.

(** [MCPToolRegistry.get_tool] and [MCPToolRegistry.list_tools] *)
Definition get_tool (r : tools) (tool_name : string) : option ToolSpec :=
  r !! tool_name.

Definition list_tools (r : tools) : tools := r.

(** [MCPService.list_available_tools] *)
Record ToolSchema := {
  schema_description : string;
  schema_parameters : pydict;
  schema_required : list string
}.

Definition list_available_tools (r : tools) : gmap string ToolSchema :=
  (fun t => {| schema_description := description (tool t);
               schema_parameters := tool_parameters t;
               schema_required := required t |}) <$> list_tools r.

(** A Python function: its [__name__] and what a call with positional and
    keyword arguments does. *)
Record pyfunction := {
  fn_name : string;
  fn_call : list pyval -> pydict -> handler_outcome
}.

(** The first required parameter that is not among the keyword
    arguments. *)
Fixpoint first_missing (required : list string) (kwargs : pydict)
    : option string :=
  match required with
  | [] => None
  | param :: rest =>
      if bool_decide (param ∈ kwargs.*1) then first_missing rest kwargs
      else Some param
  end.

Definition ValueError (text : string) : exn :=
  {| exn_type := OtherException "ValueError"; exn_text := text |}.

(** decorators.py, the wrapper [validate_parameters(func)] returns. *)
Definition validate_parameters (r : tools) (func : pyfunction)
    (args : list pyval) (kwargs : pydict) : handler_outcome :=
  match get_tool r (fn_name func) with
  | None =>
      Raises (ValueError ("Tool '" +:+ fn_name func
                          +:+ "' not found in registry"))
  | Some t =>
      match first_missing (required t) kwargs with
      | Some param =>
          Raises (ValueError ("Missing required parameter: " +:+ param))
      | None => fn_call func args kwargs
      end
  end.

End MCPRegistry.

(* ================================================================== *)
(** * Sample data *)
(* ================================================================== *)

Module Samples.
Import Discounts.

(** An adapter that keeps the discounts in a dictionary by code, has no
    [get_user_usage] of its own and records a usage by calling
    [record_usage] on the stored discount, whose exception it lets
    through. *)
Definition DictStorage (clock : Z) : StorageAdapter :=
  {| store := gmap string BaseDiscount;
     get_discount_by_code := fun st c => st !! c;
     get_user_usage := None;
     adapter_record_usage :=
       fun st c user =>
         match st !! c with
         | Some d =>
             let '(raised, d') := record_usage d user clock in
             (raised, <[c := d']> st)
         | None => (None, st)
         end |}.

(** An adapter that counts the uses per code and user in a ledger of its
    own and offers it through [get_user_usage]. *)
Definition LedgerStorage : StorageAdapter :=
  {| store := gmap string BaseDiscount * gmap (string * string) Z;
     get_discount_by_code := fun st c => st.1 !! c;
     get_user_usage := Some (fun st c u => default 0 (st.2 !! (c, u)));
     adapter_record_usage :=
       fun st c user =>
         (None,
          match user with
          | Some u =>
              (st.1, <[(c, u) := default 0 (st.2 !! (c, u)) + 1]> st.2)
          | None => st
          end) |}.

Definition no_kwargs : kwargs :=
  {| product_id := None; category_id := None; kw_affiliate_id := None |}.

(** Ten percent off, valid from instant 0 on, without limits. *)
Definition SAVE10 : BaseDiscount :=
  {| code := "SAVE10"; discount_type := PERCENTAGE;
     discount_value := dec_of_Z 10;
     max_uses := None; max_uses_per_user := None; used_count := 0;
     start_date := 0; end_date := None;
     is_active := true; min_purchase_amount := None; updated_at := 0;
     allowed_products := None; excluded_products := None;
     allowed_categories := None; excluded_categories := None;
     affiliate_id := None |}.

(** A switched-off code that has also used up its single use. *)
Definition SPENT : BaseDiscount :=
  {| code := "SPENT"; discount_type := FIXED_AMOUNT;
     discount_value := dec_of_Z 5;
     max_uses := Some 1; max_uses_per_user := None; used_count := 1;
     start_date := 0; end_date := None;
     is_active := false; min_purchase_amount := None; updated_at := 0;
     allowed_products := None; excluded_products := None;
     allowed_categories := None; excluded_categories := None;
     affiliate_id := None |}.

(** One use per user, none recorded on the discount itself. *)
Definition ONCE : BaseDiscount :=
  {| code := "ONCE"; discount_type := FIXED_AMOUNT;
     discount_value := dec_of_Z 5;
     max_uses := None; max_uses_per_user := Some 1; used_count := 0;
     start_date := 0; end_date := None;
     is_active := true; min_purchase_amount := None; updated_at := 0;
     allowed_products := None; excluded_products := None;
     allowed_categories := None; excluded_categories := None;
     affiliate_id := None |}.

(** An active code that has used up its single use. *)
Definition USEDUP : BaseDiscount :=
  {| code := "USEDUP"; discount_type := FIXED_AMOUNT;
     discount_value := dec_of_Z 5;
     max_uses := Some 1; max_uses_per_user := None; used_count := 1;
     start_date := 0; end_date := None;
     is_active := true; min_purchase_amount := None; updated_at := 0;
     allowed_products := None; excluded_products := None;
     allowed_categories := None; excluded_categories := None;
     affiliate_id := None |}.

Definition shelf : gmap string BaseDiscount :=
  <["SAVE10" := SAVE10]>
    (<["SPENT" := SPENT]> (<["ONCE" := ONCE]> (<["USEDUP" := USEDUP]> ∅))).

(** Two instants of January 2023, 10:30 in the morning, and a profile
    without a payout date. *)
Definition at_1030 (y m d : Z) : Affiliate.datetime :=
  {| Affiliate.year := y; Affiliate.month := m; Affiliate.day := d;
     Affiliate.hour := 10; Affiliate.minute := 30; Affiliate.second := 0;
     Affiliate.microsecond := 0 |}.

Definition jan31 : Affiliate.datetime := at_1030 2023 1 31.
Definition jan15 : Affiliate.datetime := at_1030 2023 1 15.

Definition new_profile (schedule : Affiliate.PayoutSchedule)
    : Affiliate.values :=
  {| Affiliate.total_commissions := Some (Q2Qc (125075 # 100));
     Affiliate.pending_payout := Some (Q2Qc (32550 # 100));
     Affiliate.lifetime_earnings := Q2Qc 0;
     Affiliate.next_payout_date := None;
     Affiliate.payout_schedule := Some schedule |}.

(** A stored note with a title, and a service that holds just it. *)
Definition note : Crud.Item :=
  {| Crud.id := 7; Crud.attrs := {[ "title" := Crud.VStr "todo" ]} |}.

Definition notebook : Crud.BaseService :=
  {| Crud._storage := [(7, note)] |}.

(** A request constructor in the manner of pydantic: [operation] is
    required and must be a string; the other fields take their defaults
    (the given [fresh] id, empty dictionaries) when they are missing. *)
Fixpoint entry (key : string) (fields : MCP.pydict) : option MCP.pyval :=
  match fields with
  | [] => None
  | (k, v) :: rest => if String.eqb k key then Some v else entry key rest
  end.

Definition parse_request (fresh : MCP.UUID) (fields : MCP.pydict)
    : MCP.exn + MCP.MCPRequest :=
  match entry "operation" fields with
  | Some (MCP.PStr op) =>
      inr {| MCP.request_id :=
               match entry "request_id" fields with
               | Some (MCP.PInt n) => n
               | _ => fresh
               end;
             MCP.operation := op;
             MCP.parameters :=
               match entry "parameters" fields with
               | Some (MCP.PDict d) => d
               | _ => []
               end;
             MCP.context :=
               match entry "context" fields with
               | Some (MCP.PDict d) => d
               | _ => []
               end |}
  | Some _ =>
      inl {| MCP.exn_type := MCP.ValidationError;
             MCP.exn_text := "operation: str type expected" |}
  | None =>
      inl {| MCP.exn_type := MCP.ValidationError;
             MCP.exn_text := "operation: field required" |}
  end.

(** A registry with one tool that echoes its parameters. *)
Definition echo : MCP.MCPTool :=
  {| MCP.name := "echo"; MCP.description := "returns its parameters";
     MCP.handler :=
       Some {| MCP.callee := "tools.echo()";
               MCP.run :=
                 fun params _ =>
                   MCP.Returns (MCP.PlainValue (MCP.PDict params)) |} |}.

Definition toolbox : MCP.registry := {[ "echo" := echo ]}.

End Samples.

(* ================================================================== *)
(** * More sample data *)
(* ================================================================== *)

Module MoreSamples.

(** A [Participant] constructor that takes the id from the first keyword
    argument (standing for the generated one) and raises without it. *)
Definition build_participant (t u : Crud.UUID)
    (r : Participants.ParticipantRole) (kw : list (string * Crud.val))
    : string + Crud.Item :=
  match kw with
  | (_, Crud.VUuid i) :: _ =>
      inr {| Crud.id := i;
             Crud.attrs :=
               {[ "thread_id" := Crud.VUuid t;
                  "user_id" := Crud.VUuid u;
                  "role" := Crud.VStr (Participants.role_value r) ]} |}
  | _ => inl "ValidationError"
  end.

Definition no_model (data : list (string * Crud.val)) : string + Crud.Item :=
  inl "ValidationError".

Definition no_setattr (item : Crud.Item) (key : string) (value : Crud.val)
    : string + Crud.Item :=
  inl "ValidationError".

(** Thread 1 with user 10 as its admin. *)
Definition admin10 : Crud.Item :=
  {| Crud.id := 100;
     Crud.attrs :=
       {[ "thread_id" := Crud.VUuid 1;
          "user_id" := Crud.VUuid 10;
          "role" := Crud.VStr "admin" ]} |}.

Definition thread1 : Crud.BaseService :=
  {| Crud._storage := [(100, admin10)] |}.

(** A second user for thread 1, to be stored under id 101. *)
Definition user11 : Crud.Item :=
  {| Crud.id := 101;
     Crud.attrs :=
       {[ "thread_id" := Crud.VUuid 1;
          "user_id" := Crud.VUuid 11;
          "role" := Crud.VStr "user" ]} |}.

(** A [setattr] that assigns: the [id] takes a UUID, any other attribute
    takes the value as it is. *)
Definition plain_setattr (item : Crud.Item) (key : string) (value : Crud.val)
    : string + Crud.Item :=
  if String.eqb key "id" then
    match value with
    | Crud.VUuid u => inr {| Crud.id := u; Crud.attrs := Crud.attrs item |}
    | _ => inl "ValidationError"
    end
  else
    inr {| Crud.id := Crud.id item;
           Crud.attrs := <[key := value]> (Crud.attrs item) |}.

(** Two objects, the note at address 0 and the second user at address 1,
    each stored under its own id. *)
Definition desk : CrudRefs.heap :=
  fun a => match a with O => Samples.note | _ => user11 end.

Definition two_slots : CrudRefs.BaseService :=
  {| CrudRefs._storage := [(7, 0%nat); (101, 1%nat)] |}.

(** Five off for purchases of at least fifty. *)
Definition BULK50 : Discounts.BaseDiscount :=
  {| Discounts.code := "BULK50";
     Discounts.discount_type := Discounts.FIXED_AMOUNT;
     Discounts.discount_value := PyDecimal.dec_of_Z 5;
     Discounts.max_uses := Some 3;
     Discounts.max_uses_per_user := Some 2;
     Discounts.used_count := 0;
     Discounts.start_date := 0;
     Discounts.end_date := Some 100;
     Discounts.is_active := true;
     Discounts.min_purchase_amount := Some (PyDecimal.dec_of_Z 50);
     Discounts.updated_at := 0;
     Discounts.allowed_products := None;
     Discounts.excluded_products := None;
     Discounts.allowed_categories := None;
     Discounts.excluded_categories := None;
     Discounts.affiliate_id := None |}.

Definition bulk_shelf : gmap string Discounts.BaseDiscount :=
  {[ "BULK50" := BULK50 ]}.

(** A request for the echo tool of [Samples.toolbox]. *)
Definition echo_request : MCP.MCPRequest :=
  {| MCP.request_id := 1;
     MCP.operation := "echo";
     MCP.parameters := [("text", MCP.PStr "hi")];
     MCP.context := [] |}.

(** Ten percent off for the category of toys only. *)
Definition TOYS : Discounts.BaseDiscount :=
  {| Discounts.code := "TOYS";
     Discounts.discount_type := Discounts.PERCENTAGE;
     Discounts.discount_value := PyDecimal.dec_of_Z 10;
     Discounts.max_uses := None;
     Discounts.max_uses_per_user := None;
     Discounts.used_count := 0;
     Discounts.start_date := 0;
     Discounts.end_date := None;
     Discounts.is_active := true;
     Discounts.min_purchase_amount := None;
     Discounts.updated_at := 0;
     Discounts.allowed_products := Some ["ball"];
     Discounts.excluded_products := None;
     Discounts.allowed_categories := Some ["toys"];
     Discounts.excluded_categories := None;
     Discounts.affiliate_id := None |}.

Definition toy_shelf : gmap string Discounts.BaseDiscount :=
  {[ "TOYS" := TOYS ]}.

(** A fixed discount of 1E-40, and an amount of 29 significant digits,
    1.0000000000000000000000000006. *)
Definition DUST : Discounts.BaseDiscount :=
  {| Discounts.code := "DUST";
     Discounts.discount_type := Discounts.FIXED_AMOUNT;
     Discounts.discount_value := PyDecimal.Finite false 1 (-40);
     Discounts.max_uses := None;
     Discounts.max_uses_per_user := None;
     Discounts.used_count := 0;
     Discounts.start_date := 0;
     Discounts.end_date := None;
     Discounts.is_active := true;
     Discounts.min_purchase_amount := None;
     Discounts.updated_at := 0;
     Discounts.allowed_products := None;
     Discounts.excluded_products := None;
     Discounts.allowed_categories := None;
     Discounts.excluded_categories := None;
     Discounts.affiliate_id := None |}.

Definition dust_shelf : gmap string Discounts.BaseDiscount :=
  {[ "DUST" := DUST ]}.

Definition long_amount : PyDecimal.Decimal :=
  PyDecimal.Finite false 10000000000000000000000000006 (-28).

(** The echo tool as it is declared before its registration: without
    handler, with one required parameter; and the function it is
    registered with. *)
Definition echo_spec : MCPRegistry.ToolSpec :=
  {| MCPRegistry.tool :=
       {| MCP.name := "echo";
          MCP.description := "returns its parameters";
          MCP.handler := None |};
     MCPRegistry.tool_parameters := [("text", MCP.PStr "string")];
     MCPRegistry.required := ["text"] |}.

Definition echo_handler : MCP.handler_fn :=
  {| MCP.callee := "tools.echo()";
     MCP.run :=
       fun params _ => MCP.Returns (MCP.PlainValue (MCP.PDict params)) |}.

Definition echo_function : MCPRegistry.pyfunction :=
  {| MCPRegistry.fn_name := "echo";
     MCPRegistry.fn_call :=
       fun _ kwargs => MCP.Returns (MCP.PlainValue (MCP.PDict kwargs)) |}.

End MoreSamples.

(* ================================================================== *)
(** * Proof tools *)
(* ================================================================== *)

Import Discounts CheckOrder.

(** Refute the membership [H] of a message in a list of other messages. *)
Ltac not_listed H :=
  repeat (apply elem_of_cons in H as [H|H]; [discriminate H|]);
  apply elem_of_nil in H; exact H.

(* ================================================================== *)
(** * Facts about Decimal arithmetic *)
(* ================================================================== *)

Module DecimalFacts.
Import PyDecimal.

Lemma digits_aux_spec (fuel : nat) (n : Z) :
  0 < n -> n < 2 ^ (Z.of_nat fuel + 1) ->
  1 <= digits_aux fuel n
  /\ 10 ^ (digits_aux fuel n - 1) <= n < 10 ^ digits_aux fuel n.
Proof.
  revert n. induction fuel as [|fuel IH]; intros n Hpos Hlt.
  - simpl in *. assert (n = 1) by lia. subst n. simpl. lia.
  - cbn [digits_aux]. destruct (Z.ltb_spec n 10) as [Hsmall|Hbig].
    + simpl. lia.
    + assert (Hq : 0 < n / 10) by (apply Z.div_str_pos; lia).
      assert (Hq2 : n / 10 < 2 ^ (Z.of_nat fuel + 1)).
      { replace (Z.of_nat (S fuel) + 1) with (Z.succ (Z.of_nat fuel + 1))
          in Hlt by lia.
        rewrite Z.pow_succ_r in Hlt by lia.
        apply Z.div_lt_upper_bound; lia. }
      destruct (IH (n / 10) Hq Hq2) as (H1 & H2 & H3).
      set (d := digits_aux fuel (n / 10)) in *.
      split; [lia|].
      replace (1 + d - 1) with (Z.succ (d - 1)) by lia.
      replace (1 + d) with (Z.succ d) by lia.
      rewrite !Z.pow_succ_r by lia.
      pose proof (Z.div_mod n 10 ltac:(lia)) as Hdm.
      pose proof (Z.mod_pos_bound n 10 ltac:(lia)) as Hmod.
      lia.
Qed.

Lemma digits_spec (c : N) :
  (0 < c)%N ->
  1 <= digits c /\ 10 ^ (digits c - 1) <= Z.of_N c < 10 ^ digits c.
Proof.
  intros Hpos. unfold digits. apply digits_aux_spec; [lia|].
  destruct (N.log2_spec c Hpos) as [_ Hup].
  rewrite N_nat_Z.
  replace (Z.of_N (N.log2 c) + 1) with (Z.of_N (N.succ (N.log2 c))) by lia.
  change 2 with (Z.of_N 2). rewrite <- N2Z.inj_pow. lia.
Qed.

Lemma digits_pos (c : N) : 1 <= digits c.
Proof.
  destruct (N.eq_0_gt_0_cases c) as [->|Hpos]; [reflexivity|].
  apply digits_spec, Hpos.
Qed.

(** A coefficient is below a power of ten exactly when it has at most
    that many digits. *)
Lemma digits_le_iff (c : N) (n : Z) :
  (0 < c)%N -> 0 <= n -> (digits c <= n <-> Z.of_N c < 10 ^ n).
Proof.
  intros Hpos Hn. destruct (digits_spec c Hpos) as (H1 & H2 & H3). split.
  - intros Hle. eapply Z.lt_le_trans; [exact H3|].
    apply Z.pow_le_mono_r; lia.
  - intros Hlt. destruct (Z.le_gt_cases (digits c) n) as [|Hgt]; [assumption|].
    assert (10 ^ n <= 10 ^ (digits c - 1)) by (apply Z.pow_le_mono_r; lia).
    lia.
Qed.

Lemma pow10_pos (n : Z) : 0 <= n -> 0 < 10 ^ n.
Proof. intros. apply Z.pow_pos_nonneg; lia. Qed.

Lemma pow10_split (a b : Z) :
  0 <= a -> 0 <= b -> 10 ^ (a + b) = 10 ^ a * 10 ^ b.
Proof. intros. apply Z.pow_add_r; lia. Qed.

Lemma digits_scale_le (c ca : N) (n : Z) :
  (0 < c)%N -> 0 <= n -> Z.of_N c <= Z.of_N ca * 10 ^ n ->
  digits c <= digits ca + n.
Proof.
  intros Hc Hn Hle.
  pose proof (pow10_pos n Hn) as Hpow.
  assert (Hca : (0 < ca)%N).
  { destruct (N.eq_0_gt_0_cases ca) as [->|H]; [simpl in Hle; lia|exact H]. }
  destruct (digits_spec ca Hca) as (H1 & _ & H3).
  apply digits_le_iff; [exact Hc|lia|].
  rewrite pow10_split by lia. nia.
Qed.

(** Rounding to a grid never passes a point of the grid. *)
Lemma round_half_even_bounds (c k g : Z) :
  0 <= c -> 0 < k ->
  0 <= round_half_even c k
  /\ (c <= g * 10 ^ k -> round_half_even c k <= g).
Proof.
  intros Hc Hk. unfold round_half_even.
  pose proof (pow10_pos k ltac:(lia)) as Hpow.
  set (P := 10 ^ k) in *.
  pose proof (Z.div_mod c P ltac:(lia)) as Hdm.
  pose proof (Z.mod_pos_bound c P Hpow) as Hmod.
  assert (Hq : 0 <= c / P) by (apply Z.div_pos; lia).
  set (q := c / P) in *. set (r := c mod P) in *.
  destruct ((P <? 2 * r) || (P =? 2 * r) && Z.odd q) eqn:Hup.
  - split; [lia|]. intros Hle.
    assert (Hr : 0 < r).
    { apply orb_true_iff in Hup as [H|H].
      - apply Z.ltb_lt in H. lia.
      - apply andb_true_iff in H as [H _]. apply Z.eqb_eq in H. lia. }
    destruct (Z.lt_ge_cases q g) as [|Hge]; [lia|]. nia.
  - split; [lia|]. intros Hle.
    destruct (Z.le_gt_cases q g) as [|Hgt]; [assumption|]. nia.
Qed.

(** A result of [_fix] is finite, keeps the sign, and is zero when the
    coefficient was. *)
Lemma fix_finite (s : bool) (c : N) (e : Z) (r : Decimal) :
  _fix s c e = inr r ->
  exists c' e', r = Finite s c' e' /\ (c = 0%N -> c' = 0%N).
Proof.
  unfold _fix. destruct (N.eqb_spec c 0) as [->|Hc].
  - intros [= <-]. eauto.
  - destruct (Etop <? digits c + e - prec); [discriminate|].
    destruct (e <? Z.max (digits c + e - prec) Etiny).
    + match goal with
      | |- context [if Etop <? ?x then _ else _] => destruct (Etop <? x)
      end; [discriminate|].
      intros [= <-]. eexists _, _. split; [reflexivity|]. intros; contradiction.
    + intros [= <-]. eexists _, _. split; [reflexivity|]. intros; contradiction.
Qed.

(** Rounding does not lift a result above a bound that the context
    represents: for a coefficient [ca] of at most [prec] digits at an
    exponent [ea] that is not below [Etiny], a number that is at most
    [ca * 10^ea] is still at most that after [_fix]. *)
Lemma fix_upper (s : bool) (c : N) (e : Z) (ca : N) (ea : Z) (r : Decimal) :
  digits ca <= prec -> Etiny <= ea -> e <= ea ->
  Z.of_N c <= Z.of_N ca * 10 ^ (ea - e) ->
  _fix s c e = inr r ->
  exists c' e' b,
    r = Finite s c' e' /\ b <= e' /\ b <= ea
    /\ Z.of_N c' * 10 ^ (e' - b) <= Z.of_N ca * 10 ^ (ea - b).
Proof.
  intros Hdig Htiny He Hle. unfold _fix.
  destruct (N.eqb_spec c 0) as [->|Hc].
  - intros [= <-]. eexists _, _, (Z.min (Z.min (Z.max e Etiny) Emax) ea).
    split; [reflexivity|]. split; [lia|]. split; [lia|].
    simpl. pose proof (pow10_pos (ea - Z.min (Z.min (Z.max e Etiny) Emax) ea)
                         ltac:(lia)). nia.
  - assert (Hcpos : (0 < c)%N) by lia.
    pose proof (digits_scale_le c ca (ea - e) Hcpos ltac:(lia) Hle) as Hdc.
    destruct (Etop <? digits c + e - prec); [discriminate|].
    set (exp_min := Z.max (digits c + e - prec) Etiny).
    assert (Hexp : exp_min <= ea) by (unfold exp_min; lia).
    destruct (Z.ltb_spec e exp_min) as [Hround|Hkeep].
    + destruct (Z.ltb_spec (digits c + e - exp_min) 0) as [Hbelow|Hin].
      * replace (exp_min - (exp_min - 1)) with 1 by lia.
        change (round_half_even 1 1) with 0.
        change (prec <? digits (Z.to_N 0)) with false. cbv iota.
        destruct (Etop <? exp_min); [discriminate|].
        intros [= <-]. exists 0%N, exp_min, exp_min.
        split; [reflexivity|]. split; [lia|]. split; [lia|].
        simpl. pose proof (pow10_pos (ea - exp_min) ltac:(lia)). nia.
      * set (k := exp_min - e).
        set (G := Z.of_N ca * 10 ^ (ea - exp_min)).
        assert (HG : Z.of_N c <= G * 10 ^ k).
        { unfold G, k. rewrite <- Z.mul_assoc, <- pow10_split by lia.
          replace (ea - exp_min + (exp_min - e)) with (ea - e) by lia.
          exact Hle. }
        destruct (round_half_even_bounds (Z.of_N c) k G ltac:(lia)
                    ltac:(unfold k; lia)) as [Hr0 Hr1].
        specialize (Hr1 HG).
        set (q := round_half_even (Z.of_N c) k) in *.
        destruct (prec <? digits (Z.to_N q)).
        -- destruct (Etop <? exp_min + 1); [discriminate|].
           intros [= <-]. exists (Z.to_N (q / 10)), (exp_min + 1), exp_min.
           split; [reflexivity|]. split; [lia|]. split; [lia|].
           replace (exp_min + 1 - exp_min) with 1 by lia.
           fold G. rewrite Z2N.id by (apply Z.div_pos; lia).
           pose proof (Z.div_mod q 10 ltac:(lia)).
           pose proof (Z.mod_pos_bound q 10 ltac:(lia)).
           change (10 ^ 1) with 10. lia.
        -- destruct (Etop <? exp_min); [discriminate|].
           intros [= <-]. exists (Z.to_N q), exp_min, exp_min.
           split; [reflexivity|]. split; [lia|]. split; [lia|].
           rewrite Z.sub_diag. fold G. rewrite Z2N.id by lia.
           change (10 ^ 0) with 1. lia.
    + intros [= <-]. exists c, e, e.
      split; [reflexivity|]. split; [lia|]. split; [lia|].
      rewrite Z.sub_diag. change (10 ^ 0) with 1. lia.
Qed.

(** The comparison of two finite numbers can be made at any exponent
    below both. *)
Lemma cmp_base (n1 e1 n2 e2 b : Z) :
  b <= e1 -> b <= e2 ->
  (n1 * 10 ^ (e1 - Z.min e1 e2) ?= n2 * 10 ^ (e2 - Z.min e1 e2))
  = (n1 * 10 ^ (e1 - b) ?= n2 * 10 ^ (e2 - b)).
Proof.
  intros H1 H2. set (m := Z.min e1 e2).
  replace (e1 - b) with (e1 - m + (m - b)) by lia.
  replace (e2 - b) with (e2 - m + (m - b)) by lia.
  rewrite !pow10_split by lia. rewrite !Z.mul_assoc.
  apply Zmult_compare_compat_r.
  pose proof (pow10_pos (m - b) ltac:(unfold m; lia)). lia.
Qed.

Lemma signed_le (s : bool) (c : N) : signed s c <= Z.of_N c.
Proof. destruct s; simpl; lia. Qed.

(** [Decimal('0') <= a] for a finite [a]. *)
Lemma nonneg_finite (s : bool) (c : N) (e : Z) :
  dec_le (dec_of_Z 0) (Finite s c e) = inr true <-> 0 <= signed s c.
Proof.
  unfold dec_le, compare_with. simpl is_nan. cbn [orb].
  change (dec_of_Z 0) with (Finite false 0 0). cbn [_cmp signed].
  rewrite Z.mul_0_l.
  pose proof (pow10_pos (e - Z.min 0 e) ltac:(lia)) as Hpow.
  destruct (Z.compare_spec 0 (signed s c * 10 ^ (e - Z.min 0 e)))
    as [H|H|H]; simpl; split; intros; try discriminate; try reflexivity; nia.
Qed.

(** [max(Decimal('0'), r)] for a finite [r]. *)
Lemma max_zero_finite (s : bool) (c : N) (e : Z) :
  dec_max (dec_of_Z 0) (Finite s c e)
  = inr (if bool_decide (0 < signed s c) then Finite s c e else dec_of_Z 0).
Proof.
  unfold dec_max, dec_gt, compare_with. simpl is_nan. cbn [orb].
  change (dec_of_Z 0) with (Finite false 0 0). cbn [_cmp signed].
  rewrite Z.mul_0_l.
  pose proof (pow10_pos (e - Z.min e 0) ltac:(lia)) as Hpow.
  destruct (Z.compare_spec (signed s c * 10 ^ (e - Z.min e 0)) 0)
    as [H|H|H]; simpl; case_bool_decide; try reflexivity; nia.
Qed.

(** The amount less a finite discount that is not negative, clamped at
    zero, lies between zero and the amount, when the context holds the
    amount without rounding. *)
Lemma sub_clamped_bounds (a q r result : Decimal) (sq : bool) (cq : N)
    (eq : Z) :
  within_precision a = true ->
  dec_le (dec_of_Z 0) a = inr true ->
  q = Finite sq cq eq -> 0 <= signed sq cq ->
  dec_sub a q = inr r ->
  dec_max (dec_of_Z 0) r = inr result ->
  dec_le (dec_of_Z 0) result = inr true /\ dec_le result a = inr true.
Proof.
  intros Hfit Hnonneg -> Hq Hsub Hmax.
  destruct a as [sa ca ea| |]; try discriminate Hfit.
  simpl in Hfit. apply andb_true_iff in Hfit as [Hdig Htiny].
  apply Z.leb_le in Hdig, Htiny.
  pose proof Hnonneg as Ha. apply nonneg_finite in Ha.
  unfold dec_sub in Hsub. cbn [_check_nans copy_negate dec_add] in Hsub.
  set (e := Z.min ea eq) in *.
  set (sum := signed sa ca * 10 ^ (ea - e)
              + signed (negb sq) cq * 10 ^ (eq - e)) in *.
  assert (Hneg : signed (negb sq) cq = - signed sq cq)
    by (destruct sq; simpl; lia).
  pose proof (pow10_pos (ea - e) ltac:(unfold e; lia)) as Hp1.
  pose proof (pow10_pos (eq - e) ltac:(unfold e; lia)) as Hp2.
  assert (Hsum : sum <= Z.of_N ca * 10 ^ (ea - e)).
  { unfold sum. rewrite Hneg. pose proof (signed_le sa ca). nia. }
  destruct (Z.lt_ge_cases 0 sum) as [Hpos|Hnonpos].
  - (* a positive difference *)
    assert (Hs : (if sum =? 0 then sa && negb sq else sum <? 0) = false).
    { destruct (Z.eqb_spec sum 0); [lia|]. apply Z.ltb_ge. lia. }
    rewrite Hs in Hsub.
    destruct (fix_upper false (Z.abs_N sum) e ca ea r Hdig Htiny
                ltac:(unfold e; lia) ltac:(rewrite N2Z.inj_abs_N; lia) Hsub)
      as (c' & e' & b & -> & Hb1 & Hb2 & Hle).
    rewrite max_zero_finite in Hmax. injection Hmax as <-.
    case_bool_decide as Hc'.
    + cbn [signed] in Hc'.
      split; [apply nonneg_finite; cbn [signed]; lia|].
      unfold dec_le, compare_with. simpl is_nan. cbn [orb _cmp].
      rewrite (cmp_base _ _ _ _ b Hb1 Hb2).
      assert (Hsa : signed sa ca = Z.of_N ca).
      { destruct sa; simpl in *; lia. }
      rewrite Hsa. cbn [signed].
      destruct (Z.compare_spec (Z.of_N c' * 10 ^ (e' - b))
                  (Z.of_N ca * 10 ^ (ea - b))); simpl; try reflexivity; lia.
    + split; [reflexivity|exact Hnonneg].
  - (* nothing is left *)
    destruct (fix_finite _ _ _ _ Hsub) as (c' & e' & -> & Hzero).
    rewrite max_zero_finite in Hmax. injection Hmax as <-.
    case_bool_decide as Hc'; [|split; [reflexivity|exact Hnonneg]].
    exfalso. destruct (Z.eqb_spec sum 0) as [H0|H0].
    + rewrite H0 in Hzero. specialize (Hzero eq_refl). subst c'.
      destruct (sa && negb sq); simpl in Hc'; lia.
    + assert (Hlt : (sum <? 0) = true) by (apply Z.ltb_lt; lia).
      rewrite Hlt in Hc'. simpl in Hc'. lia.
Qed.

Lemma mul_finite (s1 s2 : bool) (c1 c2 : N) (e1 e2 : Z) (p : Decimal) :
  dec_mul (Finite s1 c1 e1) (Finite s2 c2 e2) = inr p ->
  exists cp ep,
    p = Finite (xorb s1 s2) cp ep /\ ((c1 * c2)%N = 0%N -> cp = 0%N).
Proof. unfold dec_mul. cbn [_check_nans]. apply fix_finite. Qed.

Lemma div_finite (s1 s2 : bool) (c1 c2 : N) (e1 e2 : Z) (q : Decimal) :
  (0 < c2)%N ->
  dec_div (Finite s1 c1 e1) (Finite s2 c2 e2) = inr q ->
  exists cq eq,
    q = Finite (xorb s1 s2) cq eq /\ (c1 = 0%N -> cq = 0%N).
Proof.
  intros Hc2. unfold dec_div. cbn [_check_nans].
  destruct (N.eqb_spec c2 0) as [|_]; [lia|].
  destruct (N.eqb_spec c1 0) as [->|Hc1].
  - intros H. destruct (fix_finite _ _ _ _ H) as (cq & eq & -> & Hz). eauto.
  - match goal with
    | |- context [if ?r =? 0 then _ else _] => destruct (r =? 0)
    end.
    + destruct (strip_zeros _ _ _ _) as [coeff exp]. intros H.
      destruct (fix_finite _ _ _ _ H) as (cq & eq & -> & _).
      eexists _, _. split; [reflexivity|]. intros; contradiction.
    + intros H. destruct (fix_finite _ _ _ _ H) as (cq & eq & -> & _).
      eexists _, _. split; [reflexivity|]. intros; contradiction.
Qed.

(** [a < b] of two finite numbers returns. *)
Lemma lt_finite (s1 s2 : bool) (c1 c2 : N) (e1 e2 : Z) :
  exists below,
    dec_lt (Finite s1 c1 e1) (Finite s2 c2 e2) = inr below.
Proof. unfold dec_lt, compare_with. simpl. eauto. Qed.

(** The order of three numbers: if [a < m] is false and [a <= a'] is
    true, then [a' < m] is false. *)
Lemma lt_false_le_trans (a a' m : Decimal) :
  dec_lt a m = inr false -> dec_le a a' = inr true ->
  dec_lt a' m = inr false.
Proof.
  unfold dec_lt, dec_le, compare_with.
  destruct a as [sa ca ea|sa|? ? ?]; [| |discriminate];
    destruct m as [sm cm em|sm|? ? ?]; try discriminate;
    destruct a' as [sa' ca' ea'|sa'|? ? ?]; try discriminate;
    cbn [is_nan orb _cmp];
    try (set (b := Z.min ea (Z.min ea' em));
         rewrite (cmp_base _ ea _ em b), (cmp_base _ ea _ ea' b),
           (cmp_base _ ea' _ em b) by (unfold b; lia));
    repeat match goal with
           | s : bool |- _ => destruct s
           end;
    cbn [Bool.eqb];
    repeat match goal with
           | |- context [?x ?= ?y] => destruct (Z.compare_spec x y)
           end;
    simpl; intros; try discriminate; try reflexivity; lia.
Qed.

(** Two finite numbers of equal value leave a zero, which the clamp at
    zero turns into [Decimal('0')]. *)
Lemma sub_equal_clamped (s1 s2 : bool) (c1 c2 : N) (e1 e2 : Z)
    (x r : Decimal) :
  _cmp (Finite s1 c1 e1) (Finite s2 c2 e2) = Eq ->
  dec_sub (Finite s1 c1 e1) (Finite s2 c2 e2) = inr x ->
  dec_max (dec_of_Z 0) x = inr r ->
  r = dec_of_Z 0.
Proof.
  cbn [_cmp]. intros Heq%Z.compare_eq_iff Hsub Hmax.
  unfold dec_sub in Hsub. cbn [_check_nans copy_negate dec_add] in Hsub.
  assert (Hneg : signed (negb s2) c2 = - signed s2 c2)
    by (destruct s2; simpl; lia).
  rewrite Hneg, Heq in Hsub.
  replace (signed s2 c2 * 10 ^ (e2 - Z.min e1 e2)
           + - signed s2 c2 * 10 ^ (e2 - Z.min e1 e2)) with 0 in Hsub by lia.
  simpl in Hsub.
  destruct (fix_finite _ _ _ _ Hsub) as (c' & e' & -> & Hzero).
  rewrite (Hzero eq_refl), max_zero_finite in Hmax. injection Hmax as <-.
  destruct (s1 && negb s2); reflexivity.
Qed.

End DecimalFacts.

(* ================================================================== *)
(** * Discount validation: order and determinism *)
(* ================================================================== *)

Lemma first_failure_app (xs ys : list check) :
  first_failure (xs ++ ys) =
    match first_failure xs with
    | Passes => first_failure ys
    | failed => failed
    end.
Proof.
  induction xs as [|[|m|e] xs IH]; simpl; auto.
Qed.

Lemma first_failure_Passes (xs : list check) :
  first_failure xs = Passes <-> Forall (fun c => c = Passes) xs.
Proof.
  induction xs as [|[|m|e] xs IH]; simpl.
  - split; auto.
  - rewrite IH. split; [auto|]. intros H. inversion H; auto.
  - split; [discriminate|]. intros H. inversion H; discriminate.
  - split; [discriminate|]. intros H. inversion H; discriminate.
Qed.

(** The body of [validate_discount_code] once the code is found. *)
Lemma validate_found (A : StorageAdapter) (self : DiscountService A) now c kw
    user_id amount discount :
  _get_discount_by_code A self c = Some discount ->
  validate_discount_code A self now c kw user_id amount =
    verdict discount (source_order A self now kw user_id amount discount).
Proof.
  intros Hget.
  unfold validate_discount_code, verdict, source_order, spec_order,
    usage_checks, date_checks, minimum_purchase_check, product_checks,
    category_checks, affiliate_check, amount_malformed, amount_value, rejects.
  rewrite Hget.
  destruct (convert_amount amount) as [e|a]; cbn; [reflexivity|].
  destruct (is_active discount); cbn; [|reflexivity].
  destruct (total_limit_reached discount); cbn; [reflexivity|].
  destruct (user_limit_check A self discount user_id); cbn;
    [|reflexivity|reflexivity].
  destruct (not_started discount now); cbn; [reflexivity|].
  destruct (has_expired discount now); cbn; [reflexivity|].
  destruct (minimum_purchase discount a); cbn; [|reflexivity|reflexivity].
  destruct (product_not_allowed discount (product_id kw)); cbn; [reflexivity|].
  destruct (product_excluded discount (product_id kw)); cbn; [reflexivity|].
  destruct (category_not_allowed discount (category_id kw)); cbn;
    [reflexivity|].
  destruct (category_excluded discount (category_id kw)); cbn; [reflexivity|].
  destruct (wrong_affiliate discount (kw_affiliate_id kw)); reflexivity.
Qed.

(** A check that raises, reached after checks that all pass, makes the
    validation raise. *)
Lemma validate_raises (A : StorageAdapter) (self : DiscountService A) now c
    kw user_id amount discount before e after :
  _get_discount_by_code A self c = Some discount ->
  source_order A self now kw user_id amount discount
  = before ++ Raises e :: after ->
  Forall (fun chk => chk = Passes) before ->
  validate_discount_code A self now c kw user_id amount = inl e.
Proof.
  intros Hget Hsplit Hbefore.
  rewrite (validate_found A self now c kw user_id amount discount Hget).
  unfold verdict. rewrite Hsplit, first_failure_app.
  apply first_failure_Passes in Hbefore. rewrite Hbefore. reflexivity.
Qed.

(** C1 (amended).  For every stored discount code and every combination of
    inputs, [validate_discount_code] evaluates its checks in one fixed
    order: the conversion of a non-Decimal amount, the [is_active] flag, the
    total and the per-user usage limit, the start and the end of the date
    window, the minimum purchase amount (which also rejects an amount that
    cannot be compared), product scoping (allowed, then excluded), category
    scoping (allowed, then excluded) and affiliate scoping.  It returns
    the rejection of the first check in that order that fails, whatever
    the later checks say, and it returns
    [(True, discount, "Valid discount code")] exactly when every check
    passes. *)
Theorem validate_discount_code_order (A : StorageAdapter)
    (self : DiscountService A) (now : Z) (c : string) (kw : kwargs)
    (user_id : option user_ref) (amount : option amount_arg)
    (discount : BaseDiscount) :
  _get_discount_by_code A self c = Some discount ->
  let checks := source_order A self now kw user_id amount discount in
  let answer := validate_discount_code A self now c kw user_id amount in
  (forall before m after,
      checks = before ++ Rejects m :: after ->
      Forall (fun chk => chk = Passes) before ->
      answer = inr (false, Some discount, m))
  /\ (answer = inr (true, Some discount, ValidDiscountCode)
      <-> Forall (fun chk => chk = Passes) checks)
  /\ (forall d m,
        answer = inr (true, d, m) ->
        answer = inr (true, Some discount, ValidDiscountCode)).
Proof.
  intros Hget checks answer.
  assert (Hans : answer = verdict discount checks)
    by (apply validate_found; exact Hget).
  split; [|split].
  - intros before m after Hsplit Hbefore. rewrite Hans. unfold verdict.
    rewrite Hsplit, first_failure_app.
    apply first_failure_Passes in Hbefore. rewrite Hbefore. reflexivity.
  - rewrite Hans, <- first_failure_Passes. unfold verdict.
    destruct (first_failure checks); split; intros H;
      solve [reflexivity | discriminate].
  - intros d m. rewrite Hans. unfold verdict.
    destruct (first_failure checks); intros H;
      solve [reflexivity | discriminate].
Qed.

(** The code of the sample shelf is found and the theorem applies to it. *)
Lemma validate_discount_code_order_witness :
  let A := Samples.DictStorage 0 in
  let self : DiscountService A := Some Samples.shelf in
  let answer :=
    validate_discount_code A self 5 "SPENT" Samples.no_kwargs None None in
  _get_discount_by_code A self "SPENT" = Some Samples.SPENT
  /\ (answer = inr (true, Some Samples.SPENT, ValidDiscountCode)
      <-> Forall (fun chk => chk = Passes)
            (source_order A self 5 Samples.no_kwargs None None Samples.SPENT)).
Proof.
  intros A self answer.
  assert (Hget : _get_discount_by_code A self "SPENT" = Some Samples.SPENT)
    by (vm_compute; reflexivity).
  split; [exact Hget|].
  exact (proj1 (proj2 (validate_discount_code_order A self 5 "SPENT"
                         Samples.no_kwargs None None Samples.SPENT Hget))).
Defined.

(** C1 as worded fails.  A code that is switched off and has reached its
    usage limit is rejected as no longer active, while the first failing
    check in the order of the specification is the usage limit; and an
    active code at its usage limit, asked about with an amount that does
    not convert, is rejected for the amount format. *)
Lemma validate_discount_code_order_counterexample :
  let A := Samples.DictStorage 0 in
  let self : DiscountService A := Some Samples.shelf in
  let abc := Some (AmountMalformed "abc") in
  validate_discount_code A self 5 "SPENT" Samples.no_kwargs None None
    = inr (false, Some Samples.SPENT, NoLongerActive)
  /\ verdict Samples.SPENT
       (spec_order A self 5 Samples.no_kwargs None None Samples.SPENT)
     = inr (false, Some Samples.SPENT, UsageLimitReached)
  /\ validate_discount_code A self 5 "USEDUP" Samples.no_kwargs None abc
     = inr (false, Some Samples.USEDUP, InvalidAmountFormat)
  /\ verdict Samples.USEDUP
       (spec_order A self 5 Samples.no_kwargs None abc Samples.USEDUP)
     = inr (false, Some Samples.USEDUP, UsageLimitReached)
  /\ validate_discount_code A self 5 "SPENT" Samples.no_kwargs None None
     <> verdict Samples.SPENT
          (spec_order A self 5 Samples.no_kwargs None None Samples.SPENT).
Proof.
  assert (H1 : validate_discount_code (Samples.DictStorage 0)
                 (Some Samples.shelf) 5 "SPENT" Samples.no_kwargs None None
               = inr (false, Some Samples.SPENT, NoLongerActive))
    by (vm_compute; reflexivity).
  assert (H2 : verdict Samples.SPENT
                 (spec_order (Samples.DictStorage 0) (Some Samples.shelf) 5
                    Samples.no_kwargs None None Samples.SPENT)
               = inr (false, Some Samples.SPENT, UsageLimitReached))
    by (vm_compute; reflexivity).
  cbv zeta. split; [exact H1|]. split; [exact H2|].
  split; [vm_compute; reflexivity|]. split; [vm_compute; reflexivity|].
  rewrite H1, H2. intros H. discriminate H.
Qed.

(** C7.  Validation is deterministic: two runs that see the same stored
    discount for the code and the same usage count of that discount for
    every user, at the same current time and with the same arguments,
    end alike: with identical [(is_valid, discount, message)] results,
    whatever else the two storage states hold. *)
Theorem validate_discount_code_deterministic (A : StorageAdapter)
    (run1 run2 : DiscountService A) (now : Z) (c : string) (kw : kwargs)
    (user_id : option user_ref) (amount : option amount_arg) :
  _get_discount_by_code A run1 c = _get_discount_by_code A run2 c ->
  (forall discount user,
      _get_discount_by_code A run1 c = Some discount ->
      _get_user_usage A run1 discount user
      = _get_user_usage A run2 discount user) ->
  validate_discount_code A run1 now c kw user_id amount
  = validate_discount_code A run2 now c kw user_id amount.
Proof.
  intros Hsame Husage.
  destruct (_get_discount_by_code A run1 c) as [discount|] eqn:Hget.
  - rewrite (validate_found A run1 now c kw user_id amount discount Hget).
    rewrite (validate_found A run2 now c kw user_id amount discount
               (eq_sym Hsame)).
    unfold source_order, spec_order, usage_checks.
    assert (Hlimit : user_limit_check A run1 discount user_id
                     = user_limit_check A run2 discount user_id).
    { unfold user_limit_check.
      destruct user_id as [u|]; [|reflexivity].
      destruct (max_uses_per_user discount); [|reflexivity].
      rewrite (Husage discount (user_str u) eq_refl). reflexivity. }
    rewrite Hlimit. reflexivity.
  - unfold validate_discount_code. rewrite Hget, <- Hsame. reflexivity.
Qed.

(** Two ledger states that differ in an unrelated code and an unrelated
    user's count validate "ONCE" alike. *)
Lemma validate_discount_code_deterministic_witness :
  let A := Samples.LedgerStorage in
  let run1 : DiscountService A := Some (Samples.shelf, ∅) in
  let run2 : DiscountService A :=
    Some (delete "SAVE10" Samples.shelf, {[ ("SPENT", "ann") := 3 ]}) in
  validate_discount_code A run1 5 "ONCE" Samples.no_kwargs
    (Some (UserStr "ann")) None
  = validate_discount_code A run2 5 "ONCE" Samples.no_kwargs
      (Some (UserStr "ann")) None.
Proof.
  intros A run1 run2.
  apply validate_discount_code_deterministic.
  - vm_compute. reflexivity.
  - intros discount user Hget.
    assert (Hshelf : _get_discount_by_code A run1 "ONCE" = Some Samples.ONCE)
      by (vm_compute; reflexivity).
    rewrite Hshelf in Hget. injection Hget as <-.
    unfold _get_user_usage, run1, run2, A, Samples.LedgerStorage. simpl.
    rewrite lookup_empty.
    rewrite lookup_singleton_ne by (intros H; discriminate H).
    reflexivity.
Defined.

(* ================================================================== *)
(** * Usage recording *)
(* ================================================================== *)

(** Whether it returns or raises, [record_usage] has raised the counter
    by one and has left every field but the counter and [updated_at]
    alone. *)
Lemma record_usage_used_count (d : BaseDiscount) user now :
  used_count (record_usage d user now).2 = used_count d + 1.
Proof.
  unfold record_usage. destruct user as [u|]; [|reflexivity].
  destruct (truthy_str (Some u)); reflexivity.
Qed.

Lemma record_usage_fields (d : BaseDiscount) user now t :
  set_updated_at (record_usage d user now).2 t
  = set_updated_at (set_used_count d (used_count d + 1)) t.
Proof.
  unfold record_usage. destruct user as [u|]; [|reflexivity].
  destruct (truthy_str (Some u)); reflexivity.
Qed.

Lemma record_usage_iter (d : BaseDiscount) user now (n : nat) :
  used_count (Nat.iter n (fun x => (record_usage x user now).2) d)
  = used_count d + Z.of_nat n.
Proof.
  induction n as [|n IH]; [simpl; lia|].
  rewrite Nat.iter_succ, record_usage_used_count, IH. lia.
Qed.

(** [record_usage] returns for a user id that is missing or empty and
    raises [AttributeError] for every other one. *)
Lemma record_usage_raises (d : BaseDiscount) (user : option string) now :
  (record_usage d user now).1
  = if truthy_str user then Some (AttributeError "FieldInfo" "get") else None.
Proof.
  unfold record_usage. destruct user as [u|]; [|reflexivity].
  destruct (truthy_str (Some u)); reflexivity.
Qed.

(** C2 (amended).  Usage recording is cumulative, not idempotent: every
    invocation of the in-memory recording
    ([DiscountService._record_discount_usage] of a service without storage
    adapter, which runs [BaseDiscount.record_usage]) raises [used_count] by
    exactly one and changes no other field but [updated_at]; two
    invocations raise [used_count] by two, [n] invocations by [n]. *)
Theorem record_usage_accumulates (A : StorageAdapter) (d : BaseDiscount)
    (user : option string) (now : Z) :
  let record x := (_record_discount_usage A None x user now).2 in
  used_count (record d) = used_count d + 1
  /\ used_count (record (record d)) = used_count d + 2
  /\ (forall n, used_count (Nat.iter n record d) = used_count d + Z.of_nat n)
  /\ (forall t,
        set_updated_at (record d) t
        = set_updated_at (set_used_count d (used_count d + 1)) t).
Proof.
  intros record.
  assert (Hrecord : forall x, record x = (record_usage x user now).2).
  { intros x. unfold record, _record_discount_usage.
    destruct (record_usage x user now). reflexivity. }
  split; [rewrite Hrecord; apply record_usage_used_count|].
  split; [rewrite !Hrecord, !record_usage_used_count; lia|].
  split.
  - intros n.
    assert (Hiter : Nat.iter n record d
                    = Nat.iter n (fun x => (record_usage x user now).2) d).
    { induction n as [|n IH]; [reflexivity|].
      rewrite !Nat.iter_succ, Hrecord, IH. reflexivity. }
    rewrite Hiter. apply record_usage_iter.
  - intros t. rewrite Hrecord. apply record_usage_fields.
Qed.

(** C2 as worded fails: recording twice for the same discount and the
    same user leaves another state than recording once.  Without a user
    each call returns and the counter stands at 1 after one call and at 2
    after two.  For the user "ann" each call raises [AttributeError], after
    it has raised the counter, which again stands at 1 and at 2. *)
Lemma record_usage_twice_counterexample :
  let A := Samples.DictStorage 0 in
  let record user x := _record_discount_usage A None x user 1 in
  let once user := (record user Samples.SAVE10).2 in
  let twice user := (record user (once user)).2 in
  (record None Samples.SAVE10).1.1 = None
  /\ (record None (once None)).1.1 = None
  /\ used_count (once None) = 1 /\ used_count (twice None) = 2
  /\ twice None <> once None
  /\ (record (Some "ann") Samples.SAVE10).1.1
     = Some (AttributeError "FieldInfo" "get")
  /\ (record (Some "ann") (once (Some "ann"))).1.1
     = Some (AttributeError "FieldInfo" "get")
  /\ used_count (once (Some "ann")) = 1
  /\ used_count (twice (Some "ann")) = 2
  /\ twice (Some "ann") <> once (Some "ann").
Proof.
  cbv zeta.
  split; [reflexivity|]. split; [reflexivity|].
  split; [reflexivity|]. split; [reflexivity|].
  split; [intros H; apply (f_equal used_count) in H; discriminate H|].
  split; [reflexivity|]. split; [reflexivity|].
  split; [reflexivity|]. split; [reflexivity|].
  intros H. apply (f_equal used_count) in H. discriminate H.
Qed.

(* ================================================================== *)
(** * Applying a discount *)
(* ================================================================== *)

Lemma validate_returns_stored (A : StorageAdapter) (self : DiscountService A)
    now c kw user_id amount ok discount m :
  validate_discount_code A self now c kw user_id amount
    = inr (ok, Some discount, m) ->
  _get_discount_by_code A self c = Some discount
  /\ exists st, self = Some st.
Proof.
  intros Hv.
  destruct (_get_discount_by_code A self c) as [d|] eqn:Hget.
  - rewrite (validate_found A self now c kw user_id amount d Hget) in Hv.
    unfold verdict in Hv.
    destruct (first_failure _); injection Hv as _ <- _ || discriminate Hv;
      (split; [reflexivity|]);
      destruct self as [st|]; [eauto|discriminate Hget|eauto|discriminate Hget].
  - unfold validate_discount_code in Hv. rewrite Hget in Hv. discriminate Hv.
Qed.

Lemma validate_accepts_stored (A : StorageAdapter) (self : DiscountService A)
    now c kw user_id amount disc m :
  validate_discount_code A self now c kw user_id amount = inr (true, disc, m)
  -> exists d, disc = Some d.
Proof.
  intros Hv.
  destruct (_get_discount_by_code A self c) as [d|] eqn:Hget.
  - rewrite (validate_found A self now c kw user_id amount d Hget) in Hv.
    unfold verdict in Hv.
    destruct (first_failure _); [|discriminate Hv|discriminate Hv].
    injection Hv as <- _. eauto.
  - unfold validate_discount_code in Hv. rewrite Hget in Hv. discriminate Hv.
Qed.

(** The ways [apply_discount] ends once the amount is a Decimal. *)
Lemma apply_discount_cases (A : StorageAdapter) (self : DiscountService A)
    (now : Z) (c : string) (amount : amount_arg) (amt : Decimal)
    (user_id : option user_ref) (kw : kwargs) :
  to_Decimal amount = inr amt ->
  match validate_discount_code A self now c kw user_id
          (Some (AmountDecimal amt)) with
  | inl e => apply_discount A self now c amount user_id kw = (inl e, self)
  | inr (true, Some discount, _) =>
      exists st,
        self = Some st
        /\ apply_discount A self now c amount user_id kw =
             match discounted_amount discount amt with
             | inl e =>
                 (inr (false, amt, Some discount,
                       ErrorApplyingDiscount (DecimalError e)), self)
             | inr new_amount =>
                 match adapter_record_usage A st (code discount)
                         (recording_user user_id) with
                 | (None, st') =>
                     (inr (true, new_amount, Some discount, DiscountApplied),
                      Some st')
                 | (Some e, st') =>
                     if is_Exception e
                     then (inr (false, amt, Some discount,
                                ErrorApplyingDiscount e), Some st')
                     else (inl e, Some st')
                 end
             end
  | inr (_, discount, message) =>
      apply_discount A self now c amount user_id kw =
        (inr (false, amt, discount, message), self)
  end.
Proof.
  intros Hamt. unfold apply_discount. rewrite Hamt.
  destruct (validate_discount_code A self now c kw user_id
              (Some (AmountDecimal amt))) as [e|[[ok disc] m]] eqn:Hv;
    [reflexivity|].
  destruct ok; [|reflexivity].
  destruct disc as [discount|]; [|reflexivity].
  destruct (validate_returns_stored _ _ _ _ _ _ _ _ _ _ Hv) as [_ [st ->]].
  exists st. split; [reflexivity|].
  destruct (discounted_amount discount amt) as [e|new_amount]; [reflexivity|].
  unfold _record_discount_usage.
  destruct (adapter_record_usage A st (code discount)
              (recording_user user_id)) as [[e|] st']; reflexivity.
Qed.

(** A successful application: the code is stored, the arithmetic went
    through and gave the returned amount. *)
Lemma apply_discount_success (A : StorageAdapter) (self : DiscountService A)
    now c amount user_id kw r disc msg self' :
  apply_discount A self now c amount user_id kw
    = (inr (true, r, disc, msg), self')
  -> exists amt discount,
       to_Decimal amount = inr amt
       /\ _get_discount_by_code A self c = Some discount
       /\ disc = Some discount
       /\ discounted_amount discount amt = inr r.
Proof.
  intros Happly.
  destruct (to_Decimal amount) as [e|amt] eqn:Hamt.
  - unfold apply_discount in Happly. rewrite Hamt in Happly.
    discriminate Happly.
  - pose proof (apply_discount_cases A self now c amount amt user_id kw Hamt)
      as Hcases.
    destruct (validate_discount_code A self now c kw user_id
                (Some (AmountDecimal amt))) as [e|[[ok d] m]] eqn:Hv.
    { rewrite Hcases in Happly. discriminate Happly. }
    destruct ok; [|rewrite Hcases in Happly; discriminate Happly].
    destruct d as [discount|];
      [|rewrite Hcases in Happly; discriminate Happly].
    destruct Hcases as (st & -> & Hcases). rewrite Hcases in Happly.
    destruct (validate_returns_stored _ _ _ _ _ _ _ _ _ _ Hv) as [Hget _].
    exists amt, discount.
    destruct (discounted_amount discount amt) as [e|new_amount];
      [discriminate Happly|].
    destruct (adapter_record_usage A st (code discount)
                (recording_user user_id)) as [[e|] st'].
    + destruct (is_Exception e); discriminate Happly.
    + injection Happly as <- <- _ _. auto.
Qed.

(** The arithmetic behind a discounted amount, step by step. *)
Lemma discounted_amount_steps (discount : BaseDiscount) (amt r : Decimal) :
  discounted_amount discount amt = inr r <->
  exists new_amount,
    match discount_type discount with
    | PERCENTAGE =>
        exists product discount_amount,
          dec_mul amt (discount_value discount) = inr product
          /\ dec_div product (dec_of_Z 100) = inr discount_amount
          /\ dec_sub amt discount_amount = inr new_amount
    | FIXED_AMOUNT =>
        exists discount_amount,
          dec_min (discount_value discount) amt = inr discount_amount
          /\ dec_sub amt discount_amount = inr new_amount
    end
    /\ dec_max (dec_of_Z 0) new_amount = inr r.
Proof.
  unfold discounted_amount. destruct (discount_type discount).
  - destruct (dec_mul amt (discount_value discount)) as [e|p] eqn:Hp.
    { split; [discriminate|]. intros (x & (p & q & H & _) & _).
      discriminate H. }
    destruct (dec_div p (dec_of_Z 100)) as [e|q] eqn:Hq.
    { split; [discriminate|]. intros (x & (p' & q & [= <-] & H & _) & _).
      congruence. }
    destruct (dec_sub amt q) as [e|x] eqn:Hx.
    { split; [discriminate|].
      intros (x & (p' & q' & [= <-] & H1 & H2) & _). congruence. }
    split.
    + intros H. exists x. split; [exists p, q; auto|exact H].
    + intros (x' & (p' & q' & [= <-] & H1 & H2) & H3). congruence.
  - destruct (dec_min (discount_value discount) amt) as [e|m] eqn:Hm.
    { split; [discriminate|]. intros (x & (m & H & _) & _). discriminate H. }
    destruct (dec_sub amt m) as [e|x] eqn:Hx.
    { split; [discriminate|]. intros (x & (m' & [= <-] & H) & _).
      congruence. }
    split.
    + intros H. exists x. split; [exists m; auto|exact H].
    + intros (x' & (m' & [= <-] & H1) & H3). congruence.
Qed.

(** C4 (amended).  [apply_discount] is a sequence of conditional checks
    followed by Decimal arithmetic in the current context, which rounds
    every intermediate result to 28 significant digits.  It first converts
    the amount to a Decimal and, when that fails, returns [success=False]
    with the amount [Decimal('0')] and no discount, without validating.
    Otherwise it validates the code with [validate_discount_code]; when
    validation fails it returns [success=False] with the original amount;
    otherwise it computes the amount minus [amount * discount_value / 100]
    for a percentage discount, or minus [min(discount_value, amount)] for a
    fixed-amount discount, clamps the difference below at zero, records
    the usage and returns the result; when the arithmetic or the
    recording raises an [Exception], it returns [success=False] with the
    original amount instead. *)
Theorem apply_discount_steps (A : StorageAdapter) (self : DiscountService A)
    (now : Z) (c : string) (amount : amount_arg) (user_id : option user_ref)
    (kw : kwargs) :
  match to_Decimal amount with
  | inl e =>
      apply_discount A self now c amount user_id kw =
        (inr (false, dec_of_Z 0, None, InvalidAmountFormatError e), self)
  | inr amt =>
      match validate_discount_code A self now c kw user_id
              (Some (AmountDecimal amt)) with
      | inl e => apply_discount A self now c amount user_id kw = (inl e, self)
      | inr (true, Some discount, _) =>
          exists st,
            self = Some st
            /\ apply_discount A self now c amount user_id kw =
                 match discounted_amount discount amt with
                 | inl e =>
                     (inr (false, amt, Some discount,
                           ErrorApplyingDiscount (DecimalError e)), self)
                 | inr new_amount =>
                     match adapter_record_usage A st (code discount)
                             (recording_user user_id) with
                     | (None, st') =>
                         (inr (true, new_amount, Some discount,
                               DiscountApplied), Some st')
                     | (Some e, st') =>
                         if is_Exception e
                         then (inr (false, amt, Some discount,
                                    ErrorApplyingDiscount e), Some st')
                         else (inl e, Some st')
                     end
                 end
            /\ forall r,
                 discounted_amount discount amt = inr r <->
                 exists new_amount,
                   match discount_type discount with
                   | PERCENTAGE =>
                       exists product discount_amount,
                         dec_mul amt (discount_value discount) = inr product
                         /\ dec_div product (dec_of_Z 100)
                            = inr discount_amount
                         /\ dec_sub amt discount_amount = inr new_amount
                   | FIXED_AMOUNT =>
                       exists discount_amount,
                         dec_min (discount_value discount) amt
                         = inr discount_amount
                         /\ dec_sub amt discount_amount = inr new_amount
                   end
                   /\ dec_max (dec_of_Z 0) new_amount = inr r
      | inr (_, discount, message) =>
          apply_discount A self now c amount user_id kw =
            (inr (false, amt, discount, message), self)
      end
  end.
Proof.
  destruct (to_Decimal amount) as [e|amt] eqn:Hamt.
  - unfold apply_discount. rewrite Hamt. reflexivity.
  - pose proof (apply_discount_cases A self now c amount amt user_id kw Hamt)
      as Hcases.
    destruct (validate_discount_code A self now c kw user_id
                (Some (AmountDecimal amt))) as [e|[[ok d] m]];
      [exact Hcases|].
    destruct ok; [|exact Hcases].
    destruct d as [discount|]; [|exact Hcases].
    destruct Hcases as (st & Hself & Happly).
    exists st. split; [exact Hself|]. split; [exact Happly|].
    intros r. apply discounted_amount_steps.
Qed.

(** C4 as worded fails in two ways.  On an amount that does not convert:
    for the text "abc" the validation of the same arguments rejects the
    call with the stored discount and "Invalid amount format", but
    [apply_discount] has not validated at all and returns the amount
    [Decimal('0')], which is not the original amount, and no discount.
    And the arithmetic is not exact: 1E-40 off the 29 digits
    1.0000000000000000000000000006 returns the difference rounded to 28
    digits, 1.000000000000000000000000001, which is more than the amount
    the discount was taken from. *)
Lemma apply_discount_steps_counterexample :
  let A := Samples.DictStorage 0 in
  let self : DiscountService A := Some Samples.shelf in
  let dust : DiscountService A := Some MoreSamples.dust_shelf in
  let rounded := Finite false 1000000000000000000000000001 (-27) in
  validate_discount_code A self 5 "SAVE10" Samples.no_kwargs None
    (Some (AmountMalformed "abc"))
  = inr (false, Some Samples.SAVE10, InvalidAmountFormat)
  /\ apply_discount A self 5 "SAVE10" (AmountMalformed "abc") None
       Samples.no_kwargs
     = (inr (false, dec_of_Z 0, None, InvalidAmountFormatError "abc"), self)
  /\ ~ same_amount (AmountMalformed "abc") (dec_of_Z 0)
  /\ (apply_discount A dust 5 "DUST" (AmountDecimal MoreSamples.long_amount)
        None Samples.no_kwargs).1
     = inr (true, rounded, Some MoreSamples.DUST, DiscountApplied)
  /\ dec_lt (dec_of_Z 0) (discount_value MoreSamples.DUST) = inr true
  /\ dec_lt MoreSamples.long_amount rounded = inr true.
Proof.
  cbv zeta. split; [vm_compute; reflexivity|].
  split; [vm_compute; reflexivity|].
  split; [unfold same_amount; simpl; tauto|].
  split; [vm_compute; reflexivity|].
  split; vm_compute; reflexivity.
Qed.

(** The text "200" applied to the ten-percent code of the sample shelf
    without a user: validation succeeds, 180 comes back and the usage is
    recorded.  For the user "ann" the recording raises after it has raised
    the counter, and the call answers [success=False] with the counter of
    the stored code at 1. *)
Example apply_discount_on_shelf :
  let A := Samples.DictStorage 0 in
  let self : DiscountService A := Some Samples.shelf in
  let counted := set_used_count Samples.SAVE10 1 in
  apply_discount A self 5 "SAVE10" (AmountConvertible (dec_of_Z 200)) None
    Samples.no_kwargs
  = (inr (true, dec_of_Z 180, Some Samples.SAVE10, DiscountApplied),
     Some (<["SAVE10" := set_updated_at counted 0]> Samples.shelf))
  /\ apply_discount A self 5 "SAVE10" (AmountConvertible (dec_of_Z 200))
       (Some (UserStr "ann")) Samples.no_kwargs
     = (inr (false, dec_of_Z 200, Some Samples.SAVE10,
             ErrorApplyingDiscount (AttributeError "FieldInfo" "get")),
        Some (<["SAVE10" := counted]> Samples.shelf)).
Proof.
  cbv zeta. split; vm_compute; reflexivity.
Qed.

(** ** Bounds of the discounted amount *)

Lemma discounted_amount_bounds (d : BaseDiscount) (amt r : Decimal) :
  wf_discount d ->
  within_precision amt = true ->
  dec_le (dec_of_Z 0) amt = inr true ->
  discounted_amount d amt = inr r ->
  dec_le (dec_of_Z 0) r = inr true /\ dec_le r amt = inr true.
Proof.
  intros Hwf Hfit Hnonneg Hr.
  apply discounted_amount_steps in Hr as (x & Hx & Hmax).
  pose proof (wf_value_pos d Hwf) as Hv.
  destruct (discount_value d) as [[|] cv ev| |]; try contradiction.
  simpl in Hv.
  destruct amt as [sa ca ea| |]; try discriminate Hfit.
  pose proof Hnonneg as Ha. apply DecimalFacts.nonneg_finite in Ha.
  destruct (discount_type d).
  - destruct Hx as (p & q & Hp & Hq & Hsub).
    apply DecimalFacts.mul_finite in Hp as (cp & ep & -> & Hzp).
    change (dec_of_Z 100) with (Finite false 100 0) in Hq.
    apply DecimalFacts.div_finite in Hq as (cq & eq & -> & Hzq); [|lia].
    apply (DecimalFacts.sub_clamped_bounds _ _ x r
             (xorb (xorb sa false) false) cq eq Hfit Hnonneg eq_refl);
      [|exact Hsub|exact Hmax].
    destruct sa; simpl in *; [|lia].
    assert (ca = 0%N) by lia. subst ca.
    rewrite Hzq by (apply Hzp; reflexivity). reflexivity.
  - destruct Hx as (m & Hm & Hsub). unfold dec_min in Hm.
    destruct (DecimalFacts.lt_finite sa false ca cv ea ev) as [below Hlt].
    rewrite Hlt in Hm. injection Hm as <-. destruct below.
    + apply (DecimalFacts.sub_clamped_bounds _ _ x r sa ca ea Hfit Hnonneg
               eq_refl); [exact Ha|exact Hsub|exact Hmax].
    + apply (DecimalFacts.sub_clamped_bounds _ _ x r false cv ev Hfit Hnonneg
               eq_refl); [simpl; lia|exact Hsub|exact Hmax].
Qed.

(** C8 (amended).  For every call of [apply_discount] that returns
    [success=True] on an amount that is not negative and that the Decimal
    context holds without rounding (at most 28 significant digits), the
    returned amount lies between zero and the original amount inclusive,
    provided the stored discount satisfies the model validation (a finite
    value above zero). *)
Theorem apply_discount_bounds (A : StorageAdapter) (self : DiscountService A)
    (now : Z) (c : string) (amount : amount_arg) (amt : Decimal)
    (user_id : option user_ref) (kw : kwargs) (r : Decimal)
    (disc : option BaseDiscount) (msg : message) (self' : DiscountService A) :
  (forall d, _get_discount_by_code A self c = Some d -> wf_discount d) ->
  to_Decimal amount = inr amt ->
  within_precision amt = true ->
  dec_le (dec_of_Z 0) amt = inr true ->
  apply_discount A self now c amount user_id kw
    = (inr (true, r, disc, msg), self')
  -> dec_le (dec_of_Z 0) r = inr true /\ dec_le r amt = inr true.
Proof.
  intros Hwf Hamt Hfit Hnonneg Happly.
  destruct (apply_discount_success _ _ _ _ _ _ _ _ _ _ _ Happly)
    as (amt' & discount & Hamt' & Hget & _ & Hr).
  rewrite Hamt in Hamt'. injection Hamt' as <-.
  exact (discounted_amount_bounds discount amt r (Hwf discount Hget) Hfit
           Hnonneg Hr).
Qed.

Lemma SAVE10_wf : wf_discount Samples.SAVE10.
Proof.
  split; simpl; try exact I; try lia; try reflexivity.
Qed.

Lemma DUST_wf : wf_discount MoreSamples.DUST.
Proof.
  split; simpl; try exact I; try lia; try reflexivity.
Qed.

(** Ten percent off 200. *)
Lemma apply_discount_bounds_witness :
  let A := Samples.DictStorage 0 in
  let self : DiscountService A := Some Samples.shelf in
  (forall d, _get_discount_by_code A self "SAVE10" = Some d -> wf_discount d)
  /\ within_precision (dec_of_Z 200) = true
  /\ dec_le (dec_of_Z 0) (dec_of_Z 200) = inr true
  /\ apply_discount A self 5 "SAVE10" (AmountDecimal (dec_of_Z 200)) None
       Samples.no_kwargs
     = (inr (true, dec_of_Z 180, Some Samples.SAVE10, DiscountApplied),
        Some (<["SAVE10" := set_updated_at (set_used_count Samples.SAVE10 1) 0]>
                Samples.shelf))
  /\ dec_le (dec_of_Z 0) (dec_of_Z 180) = inr true
  /\ dec_le (dec_of_Z 180) (dec_of_Z 200) = inr true.
Proof.
  intros A self.
  assert (Hwf : forall d, _get_discount_by_code A self "SAVE10" = Some d ->
                          wf_discount d).
  { intros d Hget.
    assert (Hshelf : _get_discount_by_code A self "SAVE10"
                     = Some Samples.SAVE10) by (vm_compute; reflexivity).
    rewrite Hshelf in Hget. injection Hget as <-. exact SAVE10_wf. }
  assert (Hfit : within_precision (dec_of_Z 200) = true) by reflexivity.
  assert (Hnonneg : dec_le (dec_of_Z 0) (dec_of_Z 200) = inr true)
    by reflexivity.
  assert (Happly :
            apply_discount A self 5 "SAVE10" (AmountDecimal (dec_of_Z 200))
              None Samples.no_kwargs
            = (inr (true, dec_of_Z 180, Some Samples.SAVE10, DiscountApplied),
               Some (<["SAVE10" :=
                         set_updated_at (set_used_count Samples.SAVE10 1) 0]>
                       Samples.shelf)))
    by (vm_compute; reflexivity).
  split; [exact Hwf|]. split; [exact Hfit|]. split; [exact Hnonneg|].
  split; [exact Happly|].
  exact (apply_discount_bounds A self 5 "SAVE10"
           (AmountDecimal (dec_of_Z 200)) (dec_of_Z 200) None
           Samples.no_kwargs (dec_of_Z 180) (Some Samples.SAVE10)
           DiscountApplied _ Hwf eq_refl Hfit Hnonneg Happly).
Defined.

(** C8 as worded fails in two ways.  For a negative amount: ten percent
    off -10 succeeds and returns 0, which is above the original amount.
    And the arithmetic is not exact: 1E-40 off the 29 digits
    1.0000000000000000000000000006 succeeds and returns the difference
    rounded to 28 digits, 1.000000000000000000000000001, which is above
    the original amount. *)
Lemma apply_discount_bounds_counterexample :
  let A := Samples.DictStorage 0 in
  let self : DiscountService A := Some Samples.shelf in
  let dust : DiscountService A := Some MoreSamples.dust_shelf in
  let rounded := Finite false 1000000000000000000000000001 (-27) in
  wf_discount Samples.SAVE10
  /\ (apply_discount A self 5 "SAVE10" (AmountDecimal (dec_of_Z (-10))) None
        Samples.no_kwargs).1
     = inr (true, dec_of_Z 0, Some Samples.SAVE10, DiscountApplied)
  /\ dec_le (dec_of_Z 0) (dec_of_Z (-10)) = inr false
  /\ wf_discount MoreSamples.DUST
  /\ dec_le (dec_of_Z 0) MoreSamples.long_amount = inr true
  /\ (apply_discount A dust 5 "DUST" (AmountDecimal MoreSamples.long_amount)
        None Samples.no_kwargs).1
     = inr (true, rounded, Some MoreSamples.DUST, DiscountApplied)
  /\ dec_le rounded MoreSamples.long_amount = inr false.
Proof.
  cbv zeta. split; [exact SAVE10_wf|].
  split; [vm_compute; reflexivity|]. split; [vm_compute; reflexivity|].
  split; [exact DUST_wf|]. split; [vm_compute; reflexivity|].
  split; vm_compute; reflexivity.
Qed.

(** ** Failure leaves the storage alone *)

(** C9 (amended).  Whenever [apply_discount] returns [success=False]
    because the amount cannot be converted to a Decimal or because
    validation fails, that is with any message but the one of its
    [except] handler, no usage is recorded: the storage, and with it the
    [used_count] of every discount, is what it was before the call.  After
    a failed validation the returned amount is the original amount; after
    a failed conversion it is [Decimal('0')], and no discount is
    returned. *)
Theorem apply_discount_failure (A : StorageAdapter) (self : DiscountService A)
    (now : Z) (c : string) (amount : amount_arg) (user_id : option user_ref)
    (kw : kwargs) (r : Decimal) (disc : option BaseDiscount) (msg : message)
    (self' : DiscountService A) :
  apply_discount A self now c amount user_id kw
    = (inr (false, r, disc, msg), self') ->
  (forall e, msg <> ErrorApplyingDiscount e) ->
  self' = self
  /\ match to_Decimal amount with
     | inr amt =>
         r = amt
         /\ validate_discount_code A self now c kw user_id
              (Some (AmountDecimal amt)) = inr (false, disc, msg)
     | inl e =>
         r = dec_of_Z 0 /\ disc = None /\ msg = InvalidAmountFormatError e
     end.
Proof.
  intros Happly Hmsg.
  destruct (to_Decimal amount) as [e|amt] eqn:Hamt.
  - unfold apply_discount in Happly. rewrite Hamt in Happly.
    injection Happly as <- <- <- <-. auto.
  - pose proof (apply_discount_cases A self now c amount amt user_id kw Hamt)
      as Hcases.
    destruct (validate_discount_code A self now c kw user_id
                (Some (AmountDecimal amt))) as [e|[[ok d] m]] eqn:Hv.
    { rewrite Hcases in Happly. discriminate Happly. }
    destruct ok.
    + destruct d as [discount|].
      * destruct Hcases as (st & -> & Hcases). rewrite Hcases in Happly.
        destruct (discounted_amount discount amt) as [e|new_amount].
        { injection Happly as _ _ <- _. exfalso. eapply Hmsg. reflexivity. }
        destruct (adapter_record_usage A st (code discount)
                    (recording_user user_id)) as [[e|] st'];
          [|discriminate Happly].
        destruct (is_Exception e); [|discriminate Happly].
        injection Happly as _ _ <- _. exfalso. eapply Hmsg. reflexivity.
      * destruct (validate_accepts_stored _ _ _ _ _ _ _ _ _ Hv) as [d Hd].
        discriminate Hd.
    + rewrite Hcases in Happly. injection Happly as <- <- <- <-. auto.
Qed.

(** The switched-off sample code: validation fails, the amount comes back
    and the shelf is untouched. *)
Lemma apply_discount_failure_witness :
  let A := Samples.DictStorage 0 in
  let self : DiscountService A := Some Samples.shelf in
  apply_discount A self 5 "SPENT" (AmountDecimal (dec_of_Z 200)) None
    Samples.no_kwargs
  = (inr (false, dec_of_Z 200, Some Samples.SPENT, NoLongerActive), self)
  /\ (forall e, NoLongerActive <> ErrorApplyingDiscount e)
  /\ self = self
  /\ dec_of_Z 200 = dec_of_Z 200
  /\ validate_discount_code A self 5 "SPENT" Samples.no_kwargs None
       (Some (AmountDecimal (dec_of_Z 200)))
     = inr (false, Some Samples.SPENT, NoLongerActive).
Proof.
  intros A self.
  assert (Happly :
            apply_discount A self 5 "SPENT" (AmountDecimal (dec_of_Z 200))
              None Samples.no_kwargs
            = (inr (false, dec_of_Z 200, Some Samples.SPENT, NoLongerActive),
               self)) by (vm_compute; reflexivity).
  assert (Hmsg : forall e, NoLongerActive <> ErrorApplyingDiscount e)
    by (intros e H; discriminate H).
  split; [exact Happly|]. split; [exact Hmsg|].
  exact (apply_discount_failure A self 5 "SPENT"
           (AmountDecimal (dec_of_Z 200)) None Samples.no_kwargs
           (dec_of_Z 200) (Some Samples.SPENT) NoLongerActive self Happly
           Hmsg).
Defined.

(** C9 as worded fails on the conversion path: for the text "abc" the call
    returns [success=False] with the amount [Decimal('0')], which is not
    the original amount. *)
Lemma apply_discount_failure_counterexample :
  let A := Samples.DictStorage 0 in
  let self : DiscountService A := Some Samples.shelf in
  let answer :=
    (apply_discount A self 5 "SAVE10" (AmountMalformed "abc") None
       Samples.no_kwargs).1 in
  answer = inr (false, dec_of_Z 0, None, InvalidAmountFormatError "abc")
  /\ ~ same_amount (AmountMalformed "abc") (dec_of_Z 0).
Proof.
  cbv zeta. split; [vm_compute; reflexivity|].
  unfold same_amount. simpl. tauto.
Qed.

(* ================================================================== *)
(** * [can_user_use_code] against the service *)
(* ================================================================== *)

(** When [can_user_use_code] reaches its per-user check, it raises. *)
Lemma can_user_use_code_outcome (d : BaseDiscount)
    (user_id : option user_ref) (now : Z) :
  can_user_use_code d user_id now
  = if is_active d && negb (total_limit_reached d) then
      if user_truthy user_id && bool_decide (is_Some (max_uses_per_user d))
      then inl (AttributeError "FieldInfo" "get")
      else inr (within_dates d now)
    else inr false.
Proof.
  unfold can_user_use_code, total_limit_reached, get_user_usage_count.
  destruct (is_active d); [|reflexivity]. cbn [negb andb].
  destruct (match max_uses d with
            | Some m => m <=? used_count d
            | None => false
            end); [reflexivity|]. cbn [negb].
  destruct user_id as [u|]; [|reflexivity].
  destruct (max_uses_per_user d) as [per|].
  - destruct (user_truthy (Some u)); reflexivity.
  - rewrite andb_false_r. reflexivity.
Qed.

(** C10 at the failing input.  The code "ONCE" allows one use per user and
    has not been used.  The adapter with a usage ledger counts no use by
    "ann", so the [is_active] check, both usage-limit checks and both date
    checks of [validate_discount_code] pass and the validation accepts the
    call; [can_user_use_code("ann")] on the same discount at the same time
    does not return [True]: it raises [AttributeError], because
    [get_user_usage_count] reads [self._user_usage], which is no
    dictionary. *)
Theorem can_user_use_code_raises_for_user :
  let A := Samples.LedgerStorage in
  let self : DiscountService A := Some (Samples.shelf, ∅) in
  let ann := Some (UserStr "ann") in
  _get_discount_by_code A self "ONCE" = Some Samples.ONCE
  /\ first_failure (prefix_order A self 5 ann Samples.ONCE) = Passes
  /\ validate_discount_code A self 5 "ONCE" Samples.no_kwargs ann None
     = inr (true, Some Samples.ONCE, ValidDiscountCode)
  /\ can_user_use_code Samples.ONCE ann 5
     = inl (AttributeError "FieldInfo" "get")
  /\ forall answer, can_user_use_code Samples.ONCE ann 5 <> inr answer.
Proof.
  cbv zeta.
  split; [vm_compute; reflexivity|]. split; [vm_compute; reflexivity|].
  split; [vm_compute; reflexivity|].
  assert (H : can_user_use_code Samples.ONCE (Some (UserStr "ann")) 5
              = inl (AttributeError "FieldInfo" "get")) by reflexivity.
  split; [exact H|]. intros answer. rewrite H. discriminate.
Qed.

(* ================================================================== *)
(** * The next payout date *)
(* ================================================================== *)

Import Affiliate.

Lemma valid_civil_spec (d : datetime) :
  valid_civil d = true <->
  1 <= year d /\ 1 <= month d <= 12
  /\ 1 <= day d <= days_in_month (year d) (month d)
  /\ 0 <= hour d < 24 /\ 0 <= minute d < 60 /\ 0 <= second d < 60
  /\ 0 <= microsecond d < 1000000.
Proof.
  unfold valid_civil. rewrite !andb_true_iff, !Z.leb_le, !Z.ltb_lt. tauto.
Qed.

Lemma is_leap_cases (y : Z) :
  (is_leap y = true /\ y mod 4 = 0 /\ (y mod 100 <> 0 \/ y mod 400 = 0))
  \/ (is_leap y = false /\ (y mod 4 <> 0 \/ (y mod 100 = 0 /\ y mod 400 <> 0))).
Proof.
  unfold is_leap.
  destruct (Z.eqb_spec (y mod 4) 0), (Z.eqb_spec (y mod 100) 0),
    (Z.eqb_spec (y mod 400) 0); simpl; tauto.
Qed.

Lemma days_before_year_succ (y : Z) :
  days_before_year (y + 1)
  = days_before_year y + 365 + (if is_leap y then 1 else 0).
Proof.
  unfold days_before_year.
  replace (y + 1 - 1) with y by lia.
  destruct (is_leap_cases y) as [(-> & H4 & H100) | (-> & H)];
    Z.div_mod_to_equations; lia.
Qed.

Lemma days_before_year_mono (a b : Z) :
  a + 1 <= b -> days_before_year a + 365 <= days_before_year b.
Proof.
  unfold days_before_year. intros H. Z.div_mod_to_equations. lia.
Qed.

Lemma month_cases (m : Z) :
  1 <= m <= 12 ->
  m = 1 \/ m = 2 \/ m = 3 \/ m = 4 \/ m = 5 \/ m = 6 \/ m = 7 \/ m = 8
  \/ m = 9 \/ m = 10 \/ m = 11 \/ m = 12.
Proof. lia. Qed.

(** One step of the calendar: the day after a date of the calendar is a
    date of the calendar, its ordinal is one higher, the time of day is
    kept and the year grows by at most one. *)
Lemma next_day_spec (d : datetime) :
  valid_civil d = true ->
  valid_civil (next_day d) = true
  /\ toordinal (next_day d) = toordinal d + 1
  /\ same_time (next_day d) d
  /\ year d <= year (next_day d) <= year d + 1.
Proof.
  rewrite !valid_civil_spec. unfold same_time, toordinal, next_day.
  destruct d as [y m dd h mi s us]. simpl.
  intros (Hy & Hm & Hd & Hh & Hmi & Hs & Hus).
  pose proof (days_before_year_succ y) as Hsucc.
  destruct (is_leap y) eqn:Hleap;
    destruct (month_cases m Hm)
      as [->|[->|[->|[->|[->|[->|[->|[->|[->|[->|[->| ->]]]]]]]]]]];
    unfold days_in_month, days_before_month in *; simpl in *;
    rewrite ?Hleap in *; simpl in *;
    match goal with
    | |- context [if ?a <? ?b then _ else _] =>
        destruct (Z.ltb_spec a b); simpl
    end;
    rewrite ?Hleap; simpl; repeat split; lia.
Qed.

Lemma iter_next_day_spec (n : nat) (d : datetime) :
  valid_civil d = true ->
  let r := Nat.iter n next_day d in
  valid_civil r = true
  /\ toordinal r = toordinal d + Z.of_nat n
  /\ same_time r d
  /\ year d <= year r.
Proof.
  intros Hd. induction n as [|n IH]; cbv zeta.
  - simpl. unfold same_time. repeat split; auto; lia.
  - rewrite Nat.iter_succ.
    destruct IH as (Hv & Hord & Htime & Hyear).
    destruct (next_day_spec _ Hv) as (Hv' & Hord' & Htime' & Hyear').
    unfold same_time in *. repeat split; try lia; try congruence.
Qed.

(** The ordinal of a date of the calendar lies within its year. *)
Lemma toordinal_in_year (d : datetime) :
  valid_civil d = true ->
  days_before_year (year d) < toordinal d <= days_before_year (year d + 1).
Proof.
  rewrite valid_civil_spec. unfold toordinal.
  destruct d as [y m dd h mi s us]. simpl.
  intros (Hy & Hm & Hd & _).
  rewrite days_before_year_succ.
  destruct (is_leap y) eqn:Hleap;
    destruct (month_cases m Hm)
      as [->|[->|[->|[->|[->|[->|[->|[->|[->|[->|[->| ->]]]]]]]]]]];
    unfold days_in_month, days_before_month in *; simpl in *;
    rewrite ?Hleap in *; simpl in *; lia.
Qed.

(** Fewer than a year's worth of days ahead is at most one year ahead. *)
Lemma iter_next_day_year (n : nat) (d : datetime) :
  valid_civil d = true -> (n <= 364)%nat ->
  year (Nat.iter n next_day d) <= year d + 1.
Proof.
  intros Hd Hn.
  destruct (iter_next_day_spec n d Hd) as (Hv & Hord & _ & Hyear).
  pose proof (toordinal_in_year _ Hd) as Hin.
  pose proof (toordinal_in_year _ Hv) as Hin'.
  destruct (Z_le_gt_dec (year (Nat.iter n next_day d)) (year d + 1))
    as [Hle|Hgt]; [exact Hle|].
  pose proof (days_before_year_mono (year d + 1)
                (year (Nat.iter n next_day d))) as Hmono.
  lia.
Qed.

Lemma plus_weeks_spec (d : datetime) (w : nat) :
  valid_datetime d = true -> year d < MAXYEAR -> (w <= 52)%nat ->
  exists r,
    plus_weeks d w = Some r
    /\ valid_datetime r = true
    /\ toordinal r = toordinal d + 7 * Z.of_nat w
    /\ same_time r d.
Proof.
  unfold valid_datetime, plus_weeks. rewrite andb_true_iff, Z.leb_le.
  intros [Hd Hmax] Hyear Hw.
  destruct (iter_next_day_spec (7 * w) d Hd) as (Hv & Hord & Htime & _).
  pose proof (iter_next_day_year (7 * w) d Hd ltac:(lia)) as Hnext.
  destruct (Z.leb_spec (year (Nat.iter (7 * w) next_day d)) MAXYEAR)
    as [Hle|Hgt]; [|lia].
  eexists. split; [reflexivity|].
  rewrite andb_true_iff, Z.leb_le.
  repeat split; try assumption; try apply Htime. lia.
Qed.

Lemma monthly_spec (now : datetime) :
  valid_datetime now = true -> year now < MAXYEAR ->
  exists d,
    compute_next_payout MONTHLY now = Some d
    /\ valid_datetime d = true
    /\ same_time d now
    /\ day d = 1
    /\ month d = month now mod 12 + 1
    /\ year d = year now + (if month now =? 12 then 1 else 0).
Proof.
  unfold valid_datetime at 1. rewrite andb_true_iff, Z.leb_le, valid_civil_spec.
  unfold MAXYEAR, compute_next_payout, replace_ymd, same_time.
  destruct now as [y m dd h mi s us]. simpl.
  intros [(Hy & Hm & Hd & Hh & Hmi & Hs & Hus) Hmax] Hyear.
  assert (Hvalid :
            forall y' m', 1 <= y' <= 9999 -> 1 <= m' <= 12 ->
              valid_datetime {| year := y'; month := m'; day := 1; hour := h;
                                minute := mi; second := s;
                                microsecond := us |} = true).
  { intros y' m' Hy' Hm'. unfold valid_datetime, MAXYEAR.
    rewrite andb_true_iff, Z.leb_le, valid_civil_spec. simpl.
    destruct (month_cases m' Hm')
      as [->|[->|[->|[->|[->|[->|[->|[->|[->|[->|[->| ->]]]]]]]]]]];
      unfold days_in_month; try destruct (is_leap y');
      repeat split; lia. }
  destruct (month_cases m Hm)
    as [->|[->|[->|[->|[->|[->|[->|[->|[->|[->|[->| ->]]]]]]]]]]];
    repeat match goal with
           | |- context [?a mod 12] =>
               let r := eval vm_compute in (a mod 12) in
               change (a mod 12) with r
           end;
    simpl; rewrite Hvalid by lia; eexists; (split; [reflexivity|]); simpl;
    (split; [apply Hvalid; lia|]); repeat split; lia.
Qed.

Lemma compute_next_payout_spec (schedule : PayoutSchedule) (now : datetime) :
  valid_datetime now = true -> year now < MAXYEAR ->
  exists d,
    compute_next_payout schedule now = Some d
    /\ valid_datetime d = true
    /\ same_time d now
    /\ match schedule with
       | WEEKLY => toordinal d = toordinal now + 7
       | BIWEEKLY => toordinal d = toordinal now + 14
       | QUARTERLY => toordinal d = toordinal now + 91
       | MONTHLY =>
           day d = 1
           /\ month d = month now mod 12 + 1
           /\ year d = year now + (if month now =? 12 then 1 else 0)
       end.
Proof.
  intros Hnow Hyear.
  destruct schedule.
  - destruct (plus_weeks_spec now 1 Hnow Hyear ltac:(lia))
      as (r & Hr & Hv & Hord & Htime).
    exists r. unfold compute_next_payout. repeat split; auto; try apply Htime.
  - destruct (plus_weeks_spec now 2 Hnow Hyear ltac:(lia))
      as (r & Hr & Hv & Hord & Htime).
    exists r. unfold compute_next_payout. repeat split; auto; try apply Htime.
  - destruct (monthly_spec now Hnow Hyear)
      as (r & Hr & Hv & Htime & Hday & Hmonth & Hy).
    exists r. repeat split; auto; apply Htime.
  - destruct (plus_weeks_spec now 13 Hnow Hyear ltac:(lia))
      as (r & Hr & Hv & Hord & Htime).
    exists r. unfold compute_next_payout. repeat split; auto; try apply Htime.
Qed.

(** C3 (amended).  For every [AffiliateProfile] constructed without a
    [next_payout_date] (before year 9999), the model computes one from
    [payout_schedule] at the time of day of the construction: weekly is 7
    days later, biweekly 14 days later and quarterly 91 days (thirteen
    weeks) later, counted in days and not in calendar months; monthly is
    the first day of the next calendar month (of January of the next year
    after December), whatever the current day of the month, so no clamping
    to a month end takes place. *)
Theorem next_payout_date_computed (v : values) (now : datetime)
    (schedule : PayoutSchedule) :
  valid_datetime now = true -> year now < MAXYEAR ->
  next_payout_date v = None -> payout_schedule v = Some schedule ->
  exists v' d,
    calculate_lifetime_earnings v now = Some v'
    /\ next_payout_date v' = Some d
    /\ valid_datetime d = true
    /\ same_time d now
    /\ match schedule with
       | WEEKLY => toordinal d = toordinal now + 7
       | BIWEEKLY => toordinal d = toordinal now + 14
       | QUARTERLY => toordinal d = toordinal now + 91
       | MONTHLY =>
           day d = 1
           /\ month d = month now mod 12 + 1
           /\ year d = year now + (if month now =? 12 then 1 else 0)
       end.
Proof.
  intros Hnow Hyear Hnone Hsched.
  destruct (compute_next_payout_spec schedule now Hnow Hyear)
    as (d & Hd & Hrest).
  unfold calculate_lifetime_earnings.
  cbn [next_payout_date payout_schedule set_lifetime_earnings].
  rewrite Hnone, Hsched, Hd.
  eexists _, d. split; [reflexivity|]. split; [reflexivity|]. exact Hrest.
Qed.

(** The monthly schedule on 31 January 2023. *)
Lemma next_payout_date_computed_witness :
  valid_datetime Samples.jan31 = true
  /\ year Samples.jan31 < MAXYEAR
  /\ exists v' d,
       calculate_lifetime_earnings (Samples.new_profile MONTHLY) Samples.jan31
       = Some v'
       /\ next_payout_date v' = Some d
       /\ valid_datetime d = true
       /\ same_time d Samples.jan31
       /\ day d = 1 /\ month d = 2 /\ year d = 2023.
Proof.
  split; [reflexivity|]. split; [reflexivity|].
  exact (next_payout_date_computed (Samples.new_profile MONTHLY)
           Samples.jan31 MONTHLY eq_refl eq_refl eq_refl eq_refl).
Defined.

(** C3 as worded fails.  On 31 January the monthly schedule yields
    1 February, not the clamped 28 February; on 15 January the quarterly
    schedule yields 16 April, 91 days on, not 15 April. *)
Lemma next_payout_date_counterexample :
  (next_payout_date <$>
     calculate_lifetime_earnings (Samples.new_profile MONTHLY) Samples.jan31)
  = Some (Some (Samples.at_1030 2023 2 1))
  /\ spec_next_payout MONTHLY Samples.jan31
     = Some (Samples.at_1030 2023 2 28)
  /\ (next_payout_date <$>
        calculate_lifetime_earnings (Samples.new_profile QUARTERLY)
          Samples.jan15)
     = Some (Some (Samples.at_1030 2023 4 16))
  /\ spec_next_payout QUARTERLY Samples.jan15
     = Some (Samples.at_1030 2023 4 15)
  /\ compute_next_payout MONTHLY Samples.jan31
     <> spec_next_payout MONTHLY Samples.jan31
  /\ compute_next_payout QUARTERLY Samples.jan15
     <> spec_next_payout QUARTERLY Samples.jan15.
Proof.
  repeat split; try (vm_compute; reflexivity);
    intros H; vm_compute in H; discriminate H.
Qed.

(* ================================================================== *)
(** * The CRUD base service *)
(* ================================================================== *)

Module CrudFacts.
Import Crud.

Lemma dict_get_set_eq (d : dict) (k : UUID) (v : Item) :
  dict_get (dict_set d k v) k = Some v.
Proof.
  induction d as [|[k' v'] d IH]; simpl.
  - rewrite Z.eqb_refl. reflexivity.
  - destruct (Z.eqb_spec k' k) as [->|Hne]; simpl.
    + rewrite Z.eqb_refl. reflexivity.
    + destruct (Z.eqb_spec k' k); [contradiction | exact IH].
Qed.

Lemma dict_get_set_ne (d : dict) (k k' : UUID) (v : Item) :
  k <> k' -> dict_get (dict_set d k v) k' = dict_get d k'.
Proof.
  intros Hne. induction d as [|[j w] d IH]; simpl.
  - destruct (Z.eqb_spec k k'); [contradiction | reflexivity].
  - destruct (Z.eqb_spec j k) as [->|Hjk]; simpl.
    + destruct (Z.eqb_spec k k'); [contradiction | reflexivity].
    + destruct (Z.eqb_spec j k'); [reflexivity | exact IH].
Qed.

Lemma dict_get_Some_keys (d : dict) (k : UUID) :
  k ∈ d.*1 <-> exists v, dict_get d k = Some v.
Proof.
  induction d as [|[j w] d IH]; simpl.
  - split; [intros H; inversion H | intros [v H]; discriminate H].
  - rewrite elem_of_cons, IH. simpl.
    destruct (Z.eqb_spec j k) as [->|Hne].
    + split; eauto.
    + split; [intros [Heq|H]; [congruence | exact H] | auto].
Qed.

Lemma dict_get_None_keys (d : dict) (k : UUID) :
  k ∉ d.*1 <-> dict_get d k = None.
Proof.
  rewrite dict_get_Some_keys.
  destruct (dict_get d k) as [v|]; split; try congruence; eauto.
  - intros H. exfalso. apply H. eauto.
  - intros _ [v H]. discriminate H.
Qed.

Lemma dict_set_keys (d : dict) (k : UUID) (v : Item) (j : UUID) :
  j ∈ (dict_set d k v).*1 <-> j = k \/ j ∈ d.*1.
Proof.
  rewrite !dict_get_Some_keys.
  destruct (Z.eq_dec k j) as [->|Hne].
  - rewrite dict_get_set_eq. split; eauto.
  - rewrite dict_get_set_ne by exact Hne. split; [auto|].
    intros [->|H]; [contradiction | exact H].
Qed.

Lemma dict_set_ok (d : dict) (k : UUID) (v : Item) :
  dict_ok d -> dict_ok (dict_set d k v).
Proof.
  unfold dict_ok. induction d as [|[j w] d IH]; simpl; intros Hok.
  - apply NoDup_singleton.
  - apply NoDup_cons in Hok as [Hj Hok].
    destruct (Z.eqb_spec j k) as [->|Hne]; simpl.
    + apply NoDup_cons. auto.
    + apply NoDup_cons. split; [|auto].
      rewrite dict_set_keys. intros [->|H]; [congruence | contradiction].
Qed.

Lemma dict_del_keys (d : dict) (k j : UUID) :
  dict_ok d -> (j ∈ (dict_del d k).*1 <-> j <> k /\ j ∈ d.*1).
Proof.
  unfold dict_ok. induction d as [|[i w] d IH]; simpl; intros Hok.
  - split; [intros H; inversion H | intros [_ H]; inversion H].
  - apply NoDup_cons in Hok as [Hi Hok].
    destruct (Z.eqb_spec i k) as [->|Hne]; simpl.
    + rewrite elem_of_cons. split.
      * intros H. split; [intros ->; contradiction | auto].
      * intros [Hjk [->|H]]; [contradiction | exact H].
    + rewrite !elem_of_cons, IH by exact Hok. split.
      * intros [->|[H1 H2]]; auto.
      * intros [H1 [->|H2]]; auto.
Qed.

Lemma dict_del_ok (d : dict) (k : UUID) : dict_ok d -> dict_ok (dict_del d k).
Proof.
  induction d as [|[i w] d IH]; simpl; intros Hnd; [exact Hnd|].
  apply NoDup_cons in Hnd as [Hi Hnd].
  destruct (Z.eqb_spec i k) as [->|Hne]; [exact Hnd|].
  apply NoDup_cons. split; [|apply IH; exact Hnd].
  change (i ∉ (dict_del d k).*1). rewrite (dict_del_keys d k i Hnd). tauto.
Qed.

Lemma all_match_total (item : Item) (filters : list (string * val)) :
  (forall key value, (key, value) ∈ filters -> is_Some (getattr item key)) ->
  all_match item filters = inr (has_filter_values item filters).
Proof.
  induction filters as [|[key value] filters IH]; simpl; intros Hattr;
    [reflexivity|].
  destruct (Hattr key value ltac:(left)) as [a ->].
  destruct (py_eq a value); simpl; [|reflexivity].
  apply IH. intros k v Hin. apply (Hattr k v). right. exact Hin.
Qed.

Lemma select_total (items : list Item) (filters : list (string * val)) :
  (forall item key value,
      item ∈ items -> (key, value) ∈ filters -> is_Some (getattr item key)) ->
  select items filters
  = inr (filter (fun item => has_filter_values item filters) items).
Proof.
  induction items as [|item items IH]; simpl; intros Hattr; [reflexivity|].
  rewrite all_match_total
    by (intros k v Hin; apply (Hattr item k v); [left | exact Hin]).
  rewrite IH
    by (intros i k v Hi Hin; apply (Hattr i k v); [right; exact Hi | exact Hin]).
  rewrite filter_cons.
  destruct (has_filter_values item filters); simpl; reflexivity.
Qed.

Lemma filter_all_true (items : list Item) :
  filter (fun item => has_filter_values item []) items = items.
Proof.
  induction items as [|item items IH]; [reflexivity|].
  rewrite filter_cons, IH. reflexivity.
Qed.

(** C5 (amended).  [BaseService] is a CRUD wrapper over an in-memory
    dictionary: for every service state, after [create(item)] the calls
    [get(item.id)] and [exists(item.id)] return that item and [True];
    [delete(id)] returns [True] exactly when an item with that id was
    stored, and afterwards [get(id)] returns [None]; [get] of an absent id
    returns [None]; and [list] with filters that name attributes of every
    stored item returns exactly the stored items whose named attributes
    equal the filter values, in insertion order. *)
Theorem base_service_crud (model_class : list (string * val) -> string + Item)
    (self : BaseService) :
  dict_ok (_storage self) ->
  (forall item,
      exists self',
        create model_class self (FromItem item) = inr (item, self')
        /\ get self' (id item) = Some item
        /\ exists_ self' (id item) = true
        /\ dict_ok (_storage self'))
  /\ (forall k,
        ((delete self k).1 = true <-> k ∈ (_storage self).*1)
        /\ get (delete self k).2 k = None
        /\ dict_ok (_storage (delete self k).2))
  /\ (forall k, k ∉ (_storage self).*1 -> get self k = None)
  /\ (forall filters,
        (forall item key value,
            item ∈ dict_values (_storage self) -> (key, value) ∈ filters ->
            is_Some (getattr item key)) ->
        list_ self filters = inr (spec_list self filters)).
Proof.
  intros Hok. split; [|split; [|split]].
  - intros item. eexists. split; [reflexivity|].
    unfold get, exists_, dict_contains. simpl.
    rewrite dict_get_set_eq. repeat split. apply dict_set_ok. exact Hok.
  - intros k. unfold delete, get, dict_contains.
    destruct (dict_get (_storage self) k) as [v|] eqn:Hget; simpl.
    + split; [|split].
      * split; [intros _|reflexivity]. apply dict_get_Some_keys. eauto.
      * apply dict_get_None_keys. rewrite dict_del_keys by exact Hok. tauto.
      * apply dict_del_ok. exact Hok.
    + split; [|split]; [|exact Hget|exact Hok].
      split; [discriminate|]. intros Hin.
      apply dict_get_Some_keys in Hin as [v Hv]. congruence.
  - intros k Hk. apply dict_get_None_keys. exact Hk.
  - intros filters Hattr. unfold list_, spec_list.
    destruct filters as [|f filters].
    + rewrite filter_all_true. reflexivity.
    + apply select_total. exact Hattr.
Qed.

(** The notebook holds one note; the theorem applies to it. *)
Lemma base_service_crud_witness :
  let model_class : list (string * val) -> string + Item :=
    fun _ => inl "ValidationError" in
  dict_ok (_storage Samples.notebook)
  /\ (exists self',
        create model_class Samples.notebook (FromItem Samples.note)
        = inr (Samples.note, self')
        /\ get self' 7 = Some Samples.note
        /\ exists_ self' 7 = true
        /\ dict_ok (_storage self'))
  /\ list_ Samples.notebook [("title", VStr "todo")]
     = inr (spec_list Samples.notebook [("title", VStr "todo")]).
Proof.
  intros model_class.
  assert (Hok : dict_ok (_storage Samples.notebook))
    by apply NoDup_singleton.
  destruct (base_service_crud model_class Samples.notebook Hok)
    as (Hcreate & _ & _ & Hlist).
  split; [exact Hok|]. split; [exact (Hcreate Samples.note)|].
  apply Hlist. intros item key value Hitem Hfilter.
  apply list_elem_of_singleton in Hitem as ->.
  apply list_elem_of_singleton in Hfilter. injection Hfilter as -> _.
  eexists. reflexivity.
Defined.

(** C5 as worded fails for [list]: a filter that names an attribute the
    stored note does not have raises [AttributeError], where the reading of
    the specification gives the empty list. *)
Lemma base_service_list_counterexample :
  list_ Samples.notebook [("owner", VStr "bob")] = inl "owner"
  /\ spec_list Samples.notebook [("owner", VStr "bob")] = []
  /\ list_ Samples.notebook [("owner", VStr "bob")]
     <> inr (spec_list Samples.notebook [("owner", VStr "bob")]).
Proof.
  split; [reflexivity|]. split; [reflexivity|]. discriminate.
Qed.

End CrudFacts.

(* ================================================================== *)
(** * The MCP dispatcher *)
(* ================================================================== *)

Module MCPFacts.
Import MCP.

Section Dispatch.

Context (parse_request : pydict -> exn + MCPRequest) (tools : registry).

(** An operation without a registered handler ends in a FAILED response. *)
Lemma process_request_unknown (input : request_data) (request : MCPRequest) :
  match input with
  | FromDict fields => parse_request fields
  | FromRequest r => inr r
  end = inr request ->
  get_tool tools (operation request) ≫= handler = None ->
  process_request parse_request tools input
  = Return (failed_response (request_id request)
              ("Internal server error: Unknown operation: "
               +:+ operation request) "ToolNotFoundError").
Proof.
  intros Hreq Htool. unfold process_request, try_body.
  rewrite Hreq, Htool. reflexivity.
Qed.

(** A handler that raises an [Exception] ends in a FAILED response. *)
Lemma process_request_handler_raises (input : request_data)
    (request : MCPRequest) (h : handler_fn) (e : exn) :
  match input with
  | FromDict fields => parse_request fields
  | FromRequest r => inr r
  end = inr request ->
  get_tool tools (operation request) ≫= handler = Some h ->
  call_handler h request = Raises e ->
  is_Exception e = true ->
  process_request parse_request tools input
  = Return (failed_response (request_id request) (exn_text e)
              (class_name (exn_type e))).
Proof.
  intros Hreq Htool Hcall Hexc.
  unfold process_request, try_body, on_handler_error.
  rewrite Hreq, Htool, Hcall, Hexc. reflexivity.
Qed.

(** A handler that returns a value from which the result object can be
    built ends in a COMPLETED response with that result. *)
Lemma process_request_completed (input : request_data) (request : MCPRequest)
    (h : handler_fn) (v : handler_value) (r : MCPResult) :
  match input with
  | FromDict fields => parse_request fields
  | FromRequest r => inr r
  end = inr request ->
  get_tool tools (operation request) ≫= handler = Some h ->
  call_handler h request = Returns v ->
  as_result v = inr r ->
  process_request parse_request tools input
  = Return {| response_request_id := request_id request;
              status := COMPLETED;
              result := Some r |}.
Proof.
  intros Hreq Htool Hcall Hresult. unfold process_request, try_body.
  rewrite Hreq, Htool, Hcall, Hresult. reflexivity.
Qed.

(** A handler that returns a dictionary the result model rejects ends in
    a FAILED response, like a handler that raises. *)
Lemma process_request_result_rejected (input : request_data)
    (request : MCPRequest) (h : handler_fn) (v : handler_value) (e : exn) :
  match input with
  | FromDict fields => parse_request fields
  | FromRequest r => inr r
  end = inr request ->
  get_tool tools (operation request) ≫= handler = Some h ->
  call_handler h request = Returns v ->
  as_result v = inl e ->
  is_Exception e = true ->
  process_request parse_request tools input
  = Return (failed_response (request_id request) (exn_text e)
              (class_name (exn_type e))).
Proof.
  intros Hreq Htool Hcall Hresult Hexc.
  unfold process_request, try_body, on_handler_error.
  rewrite Hreq, Htool, Hcall, Hresult, Hexc. reflexivity.
Qed.

(** A dictionary the request model rejects leaves [request] unassigned,
    and the [except] handler that was meant to answer FAILED raises. *)
Lemma process_request_rejected (fields : pydict) (e : exn) :
  parse_request fields = inl e ->
  is_Exception e = true ->
  process_request parse_request tools (FromDict fields)
  = Raise unbound_request.
Proof.
  intros Hparse Hexc. unfold process_request, try_body.
  rewrite Hparse, Hexc.
  destruct (is_ValidationError e); reflexivity.
Qed.

End Dispatch.

(** C6 at the failing input.  The dictionary [{}] has no [operation], the
    request model rejects it with a [ValidationError], and
    [process_request] raises [UnboundLocalError] instead of returning a
    response with status FAILED. *)
Theorem process_request_raises_on_invalid_request :
  Samples.parse_request 0 [] =
    inl {| exn_type := ValidationError;
           exn_text := "operation: field required" |}
  /\ process_request (Samples.parse_request 0) Samples.toolbox (FromDict [])
     = Raise unbound_request
  /\ forall response,
       process_request (Samples.parse_request 0) Samples.toolbox (FromDict [])
       <> Return response.
Proof.
  split; [reflexivity|].
  assert (H : process_request (Samples.parse_request 0) Samples.toolbox
                (FromDict []) = Raise unbound_request)
    by (apply (process_request_rejected _ _ [] _ eq_refl); reflexivity).
  split; [exact H|]. intros response. rewrite H. discriminate.
Qed.

End MCPFacts.

(* ================================================================== *)
(** * Discount status, limits and amounts *)
(* ================================================================== *)

Module StatusFacts.
Import Discounts CheckOrder DiscountModel.

(** The date checks of [can_user_use_code] and of [status] agree. *)
Lemma within_dates_checks (d : BaseDiscount) (now : Z) :
  within_dates d now = negb (not_started d now) && negb (has_expired d now).
Proof.
  unfold within_dates, not_started, has_expired.
  destruct (now <? start_date d); [reflexivity|].
  destruct (end_date d) as [e|]; [|reflexivity].
  destruct (e <? now); reflexivity.
Qed.

Lemma is_usable_checks (d : BaseDiscount) (now : Z) :
  is_usable d now
  = is_active d && negb (total_limit_reached d) && within_dates d now.
Proof.
  rewrite within_dates_checks.
  unfold is_usable, status, total_limit_reached, not_started, has_expired.
  destruct (is_active d); [|reflexivity]. cbn [negb andb].
  destruct (match max_uses d with
            | Some m => m <=? used_count d
            | None => false
            end); [reflexivity|]. cbn [negb andb].
  destruct (match end_date d with
            | Some e => e <? now
            | None => false
            end), (now <? start_date d); reflexivity.
Qed.

(** X1.  [is_usable()] is [can_user_use_code(None)]: the status is ACTIVE
    exactly when the code can be used without naming a user; and a code
    that [can_user_use_code] grants to any user is usable.  The two
    methods test the start and the end date in opposite orders, which
    makes no difference to the answer. *)
Theorem is_usable_can_use (d : BaseDiscount) (now : Z) :
  can_user_use_code d None now = inr (is_usable d now)
  /\ (forall user,
        can_user_use_code d user now = inr true -> is_usable d now = true).
Proof.
  rewrite is_usable_checks. split.
  - rewrite can_user_use_code_outcome. cbn [user_truthy andb].
    destruct (is_active d && negb (total_limit_reached d)); reflexivity.
  - intros user. rewrite can_user_use_code_outcome.
    destruct (is_active d && negb (total_limit_reached d)); [|discriminate].
    destruct (user_truthy user && _); [discriminate|].
    intros [= ->]. reflexivity.
Qed.

Lemma rejects_Passes (b : bool) (m : message) :
  rejects b m = Passes <-> b = false.
Proof. destruct b; simpl; split; congruence. Qed.

(** The acceptance criterion: every single check passes. *)
Lemma accepted_iff (A : StorageAdapter) (self : DiscountService A) now c kw
    user_id amount d :
  _get_discount_by_code A self c = Some d ->
  validate_discount_code A self now c kw user_id amount
  = inr (true, Some d, ValidDiscountCode)
  <-> amount_malformed amount = false
      /\ is_active d = true
      /\ total_limit_reached d = false
      /\ user_limit_check A self d user_id = Passes
      /\ not_started d now = false
      /\ has_expired d now = false
      /\ minimum_purchase d (amount_value amount) = Passes
      /\ product_not_allowed d (product_id kw) = false
      /\ product_excluded d (product_id kw) = false
      /\ category_not_allowed d (category_id kw) = false
      /\ category_excluded d (category_id kw) = false
      /\ wrong_affiliate d (kw_affiliate_id kw) = false.
Proof.
  intros Hget.
  rewrite (validate_found A self now c kw user_id amount d Hget).
  unfold verdict.
  transitivity (first_failure (source_order A self now kw user_id amount d)
                = Passes).
  { destruct (first_failure _); simpl; split; congruence. }
  rewrite first_failure_Passes.
  unfold source_order, spec_order, usage_checks, date_checks,
    minimum_purchase_check, product_checks, category_checks, affiliate_check.
  simpl. rewrite !Forall_cons, Forall_nil, !rejects_Passes, negb_false_iff.
  tauto.
Qed.

(** An accepted call returns the stored discount with the message of
    acceptance. *)
Lemma accepted_canonical (A : StorageAdapter) (self : DiscountService A) now
    c kw user_id amount disc m :
  validate_discount_code A self now c kw user_id amount = inr (true, disc, m)
  -> exists d,
       _get_discount_by_code A self c = Some d
       /\ disc = Some d /\ m = ValidDiscountCode.
Proof.
  intros H.
  destruct (validate_accepts_stored _ _ _ _ _ _ _ _ _ H) as [d ->].
  destruct (validate_returns_stored _ _ _ _ _ _ _ _ _ _ H) as [Hget _].
  exists d. split; [exact Hget|]. split; [reflexivity|].
  rewrite (validate_found A self now c kw user_id amount d Hget) in H.
  unfold verdict in H. destruct (first_failure _); congruence.
Qed.

(** X2.  A code that [validate_discount_code] accepts has the status
    ACTIVE at that time: it is switched on, the time lies within its date
    window, and its total usage limit, if it has one, is not used up. *)
Theorem accepted_code_is_active (A : StorageAdapter) (self : DiscountService A)
    (now : Z) (c : string) (kw : kwargs) (user_id : option user_ref)
    (amount : option amount_arg) (d : BaseDiscount) (m : message) :
  validate_discount_code A self now c kw user_id amount
    = inr (true, Some d, m) ->
  status d now = ACTIVE
  /\ is_active d = true
  /\ start_date d <= now
  /\ (forall e, end_date d = Some e -> now <= e)
  /\ (forall limit, max_uses d = Some limit -> used_count d < limit).
Proof.
  intros H.
  destruct (accepted_canonical _ _ _ _ _ _ _ _ _ H) as (d' & Hget & Hd & ->).
  injection Hd as <-.
  apply (accepted_iff A self now c kw user_id amount d Hget) in H.
  destruct H as (_ & Hact & Htotal & _ & Hstart & Hend & _).
  assert (Husable : is_usable d now = true).
  { rewrite is_usable_checks, within_dates_checks, Hact, Htotal, Hstart, Hend.
    reflexivity. }
  unfold is_usable in Husable. apply bool_decide_eq_true_1 in Husable.
  split; [exact Husable|]. split; [exact Hact|].
  unfold not_started, has_expired, total_limit_reached in *.
  split; [apply Z.ltb_ge; exact Hstart|]. split.
  - intros e He. rewrite He in Hend. apply Z.ltb_ge. exact Hend.
  - intros limit Hl. rewrite Hl in Htotal. apply Z.leb_gt. exact Htotal.
Qed.

Lemma record_usages_fields (n : nat) user t (d : BaseDiscount) :
  let d' := record_usages n user t d in
  used_count d' = used_count d + Z.of_nat n
  /\ max_uses d' = max_uses d
  /\ max_uses_per_user d' = max_uses_per_user d
  /\ is_active d' = is_active d
  /\ start_date d' = start_date d
  /\ end_date d' = end_date d.
Proof.
  unfold record_usages. induction n as [|n IH]; cbv zeta.
  - simpl. repeat split; lia.
  - rewrite Nat.iter_succ. destruct IH as (H1 & H2 & H3 & H4 & H5 & H6).
    set (x := Nat.iter n _ d) in *.
    pose proof (record_usage_fields x user t 0) as Hf.
    pose proof (record_usage_used_count x user t) as Hc.
    split; [lia|].
    split; [rewrite <- H2; exact (f_equal max_uses Hf)|].
    split; [rewrite <- H3; exact (f_equal max_uses_per_user Hf)|].
    split; [rewrite <- H4; exact (f_equal is_active Hf)|].
    split; [rewrite <- H5; exact (f_equal start_date Hf)|].
    rewrite <- H6; exact (f_equal end_date Hf).
Qed.

(** X3.  For a discount with [max_uses], [n] calls of [record_usage],
    each of which may have returned or raised, reach the total limit
    exactly when [used_count + n >= max_uses]; from then on
    [can_user_use_code] returns [False] for every user at every time,
    [is_usable] is [False], and the status of a switched-on code is
    USAGE_LIMIT_REACHED. *)
Theorem total_limit_after_recordings (d : BaseDiscount) (user : option string)
    (t : Z) (limit : Z) (n : nat) :
  max_uses d = Some limit ->
  let d' := record_usages n user t d in
  (total_limit_reached d' = true <-> limit <= used_count d + Z.of_nat n)
  /\ (limit <= used_count d + Z.of_nat n ->
      (forall u now, can_user_use_code d' u now = inr false)
      /\ (forall now, is_usable d' now = false)
      /\ (is_active d = true ->
          forall now, status d' now = USAGE_LIMIT_REACHED)).
Proof.
  intros Hmax d'.
  destruct (record_usages_fields n user t d) as (Hc & Hm & _ & Ha & _ & _).
  fold d' in Hc, Hm, Ha.
  assert (Hiff : total_limit_reached d' = true
                 <-> limit <= used_count d + Z.of_nat n).
  { unfold total_limit_reached. rewrite Hm, Hmax, Hc. apply Z.leb_le. }
  split; [exact Hiff|]. intros Hle. apply Hiff in Hle.
  repeat split.
  - intros u now. rewrite can_user_use_code_outcome, Hle, andb_false_r.
    reflexivity.
  - intros now. rewrite is_usable_checks, Hle, andb_false_r. reflexivity.
  - intros Hact now. unfold status. rewrite Ha, Hact. simpl.
    unfold total_limit_reached in Hle. rewrite Hle. reflexivity.
Qed.


(** X5.  A fixed-amount discount that is worth at least the amount makes
    the purchase free: when [apply_discount] succeeds for an amount that is
    at most the discount's value, it returns exactly [Decimal('0')]. *)
Theorem fixed_amount_covers (A : StorageAdapter) (self : DiscountService A)
    (now : Z) (c : string) (amount : amount_arg) (amt : Decimal)
    (user_id : option user_ref) (kw : kwargs) (r : Decimal)
    (d : BaseDiscount) (msg : message) (self' : DiscountService A) :
  apply_discount A self now c amount user_id kw
    = (inr (true, r, Some d, msg), self') ->
  to_Decimal amount = inr amt ->
  discount_type d = FIXED_AMOUNT ->
  dec_le amt (discount_value d) = inr true ->
  r = dec_of_Z 0.
Proof.
  intros Happly Hamt Htype Hle.
  destruct (apply_discount_success _ _ _ _ _ _ _ _ _ _ _ Happly)
    as (amt' & d' & Hamt' & _ & Hd & Hr).
  rewrite Hamt in Hamt'. injection Hamt' as <-. injection Hd as <-.
  apply discounted_amount_steps in Hr as (x & Hx & Hmax).
  rewrite Htype in Hx. destruct Hx as (m & Hm & Hsub).
  unfold dec_le, dec_min, dec_lt, compare_with in *.
  destruct amt as [sa ca ea|sa|? ? ?]; [| |discriminate Hle];
    destruct (discount_value d) as [sv cv ev|sv|? ? ?];
    try discriminate Hle; cbn [is_nan orb] in *.
  - (* both finite *)
    remember (_cmp (Finite sa ca ea) (Finite sv cv ev)) as cmp eqn:Hcmp.
    symmetry in Hcmp. injection Hm as <-. injection Hle as Hle.
    destruct cmp; try discriminate Hle.
    + rewrite bool_decide_eq_false_2 in Hsub by discriminate.
      exact (DecimalFacts.sub_equal_clamped _ _ _ _ _ _ x r Hcmp Hsub Hmax).
    + rewrite bool_decide_eq_true_2 in Hsub by reflexivity.
      refine (DecimalFacts.sub_equal_clamped sa sa ca ca ea ea x r _ Hsub
                Hmax).
      cbn [_cmp]. apply Z.compare_refl.
  - (* a finite amount, an infinite value *)
    injection Hm as <-. injection Hle as Hle.
    destruct sv; cbn [_cmp] in *; [discriminate Hle|].
    rewrite bool_decide_eq_true_2 in Hsub by reflexivity.
    refine (DecimalFacts.sub_equal_clamped sa sa ca ca ea ea x r _ Hsub Hmax).
    cbn [_cmp]. apply Z.compare_refl.
  - (* an infinite amount: the difference is undefined *)
    injection Hm as <-. exfalso.
    destruct sa; cbn [_cmp] in *;
      [|injection Hle as Hle; discriminate Hle].
    rewrite bool_decide_eq_true_2 in Hsub by reflexivity.
    discriminate Hsub.
  - injection Hm as <-. exfalso.
    destruct sa, sv; cbn [_cmp Bool.eqb] in *;
      try (injection Hle as Hle; discriminate Hle);
      try (rewrite bool_decide_eq_true_2 in Hsub by reflexivity);
      try (rewrite bool_decide_eq_false_2 in Hsub by discriminate);
      discriminate Hsub.
Qed.

(** The message of the first failing check has every property that the
    messages of all the checks have. *)
Lemma first_failure_message (P : message -> Prop) (xs : list check) :
  Forall (fun chk => forall m, chk = Rejects m -> P m) xs ->
  forall m, first_failure xs = Rejects m -> P m.
Proof.
  induction 1 as [|chk xs Hchk _ IH]; intros m; simpl; [discriminate|].
  destruct chk; [apply IH|apply Hchk|discriminate].
Qed.

Lemma rejects_message (b : bool) (m m' : message) :
  rejects b m = Rejects m' -> m' = m.
Proof. destruct b; simpl; congruence. Qed.

Lemma user_limit_check_message (A : StorageAdapter) (self : DiscountService A)
    d user_id m :
  user_limit_check A self d user_id = Rejects m -> m = UserLimitReached.
Proof.
  unfold user_limit_check.
  destruct user_id as [u|]; [|discriminate].
  destruct (max_uses_per_user d) as [per|]; [|discriminate].
  destruct (user_truthy (Some u) && negb (per =? 0)); [|discriminate].
  destruct (_get_user_usage A self d (user_str u)); [discriminate|].
  apply rejects_message.
Qed.

Lemma minimum_purchase_message (d : BaseDiscount) (a : option Decimal) m :
  minimum_purchase d a = Rejects m ->
  (exists x, m = MinimumPurchaseRequired x)
  \/ (exists e, m = InvalidAmountOrMinimum e).
Proof.
  unfold minimum_purchase.
  destruct a as [a|]; [|discriminate].
  destruct (min_purchase_amount d) as [minimum|]; [|discriminate].
  destruct (dec_lt a minimum) as [e|below].
  - intros [= <-]. eauto.
  - intros H%rejects_message. eauto.
Qed.

(** A property of the messages of all twelve checks. *)
Lemma source_order_message (P : message -> Prop) (A : StorageAdapter)
    (self : DiscountService A) now kw user_id amount d :
  P InvalidAmountFormat -> P NoLongerActive -> P UsageLimitReached ->
  P UserLimitReached -> P NotYetValid -> P Expired ->
  (forall x, P (MinimumPurchaseRequired x)) ->
  (forall e, P (InvalidAmountOrMinimum e)) ->
  (product_not_allowed d (product_id kw) = true
   \/ product_excluded d (product_id kw) = true -> P NotValidForProduct) ->
  P NotValidForCategory -> P NotValidForAccount ->
  forall m,
    first_failure (source_order A self now kw user_id amount d) = Rejects m ->
    P m.
Proof.
  intros H1 H2 H3 H4 H5 H6 H7 H8 H9 H10 H11.
  apply first_failure_message.
  unfold source_order, spec_order, usage_checks, date_checks,
    minimum_purchase_check, product_checks, category_checks, affiliate_check.
  simpl.
  repeat apply Forall_cons_2; try apply Forall_nil_2; intros m Hm;
    try (apply rejects_message in Hm; subst m; assumption).
  - apply user_limit_check_message in Hm. subst m. exact H4.
  - apply minimum_purchase_message in Hm as [[x ->]|[e ->]]; auto.
  - destruct (product_not_allowed d (product_id kw)) eqn:Hp;
      [|discriminate Hm].
    apply rejects_message in Hm. subst m. auto.
  - destruct (product_excluded d (product_id kw)) eqn:Hp;
      [|discriminate Hm].
    apply rejects_message in Hm. subst m. auto.
Qed.

(** X6.  Whenever [validate_discount_code] returns, it returns exactly
    what the storage holds for the code: the stored discount with every
    rejection and with the acceptance, [None] only for an unknown code,
    which is also the only case with the message "Invalid discount code".
    An unknown code is always rejected this way, without an exception, and
    so is every code by a service without storage adapter. *)
Theorem validate_returns_lookup (A : StorageAdapter) (self : DiscountService A)
    (now : Z) (c : string) (kw : kwargs) (user_id : option user_ref)
    (amount : option amount_arg) :
  (forall answer,
      validate_discount_code A self now c kw user_id amount = inr answer ->
      answer.1.2 = _get_discount_by_code A self c
      /\ (answer.2 = InvalidDiscountCode
          <-> _get_discount_by_code A self c = None))
  /\ (_get_discount_by_code A self c = None ->
      validate_discount_code A self now c kw user_id amount
      = inr (false, None, InvalidDiscountCode))
  /\ (self = None ->
      validate_discount_code A self now c kw user_id amount
      = inr (false, None, InvalidDiscountCode)).
Proof.
  split; [|split].
  - intros answer.
    destruct (_get_discount_by_code A self c) as [d|] eqn:Hget.
    + rewrite (validate_found A self now c kw user_id amount d Hget).
      unfold verdict.
      destruct (first_failure _) as [|m|e] eqn:Hfirst;
        [| |discriminate]; intros [= <-]; simpl.
      * split; [reflexivity|]. split; discriminate.
      * split; [reflexivity|]. split; [|discriminate].
        intros ->. exfalso.
        refine (source_order_message (fun m => m <> InvalidDiscountCode) A
                  self now kw user_id amount d _ _ _ _ _ _ _ _ _ _ _ _ Hfirst
                  eq_refl); intros; discriminate.
    + unfold validate_discount_code. rewrite Hget. intros [= <-]. simpl.
      tauto.
  - intros Hget. unfold validate_discount_code. rewrite Hget. reflexivity.
  - intros ->. reflexivity.
Qed.

(** X7.  The times at which a call is accepted form an interval: a
    call accepted at an earlier and at a later time is accepted, with the
    same result, at every time between them (same storage and
    arguments). *)
Theorem accepted_between (A : StorageAdapter) (self : DiscountService A)
    (early now late : Z) (c : string) (kw : kwargs)
    (user_id : option user_ref) (amount : option amount_arg)
    (d1 d2 : option BaseDiscount) (m1 m2 : message) :
  validate_discount_code A self early c kw user_id amount
    = inr (true, d1, m1) ->
  validate_discount_code A self late c kw user_id amount
    = inr (true, d2, m2) ->
  early <= now <= late ->
  validate_discount_code A self now c kw user_id amount
  = validate_discount_code A self early c kw user_id amount.
Proof.
  intros Hearly Hlate Hnow.
  destruct (accepted_canonical _ _ _ _ _ _ _ _ _ Hearly)
    as (d & Hget & -> & ->).
  destruct (accepted_canonical _ _ _ _ _ _ _ _ _ Hlate)
    as (d' & Hget' & -> & ->).
  rewrite Hget in Hget'. injection Hget' as <-.
  rewrite Hearly.
  apply (accepted_iff A self early c kw user_id amount d Hget) in Hearly.
  apply (accepted_iff A self late c kw user_id amount d Hget) in Hlate.
  apply (accepted_iff A self now c kw user_id amount d Hget).
  destruct Hearly as (?&?&?&?&Hs&_&?&?&?&?&?&?).
  destruct Hlate as (_&_&_&_&_&He&_).
  repeat split; try assumption.
  - unfold not_started in *. apply Z.ltb_ge. apply Z.ltb_ge in Hs. lia.
  - unfold has_expired in *. destruct (end_date d); [|reflexivity].
    apply Z.ltb_ge. apply Z.ltb_ge in He. lia.
Qed.

(** X8.  The minimum purchase is a lower bound only: a call accepted
    for a Decimal amount is accepted for every larger amount, and also
    when no amount is given. *)
Theorem accepted_for_larger_amount (A : StorageAdapter)
    (self : DiscountService A) (now : Z) (c : string) (kw : kwargs)
    (user_id : option user_ref) (a a' : Decimal) (d : option BaseDiscount)
    (m : message) :
  validate_discount_code A self now c kw user_id (Some (AmountDecimal a))
    = inr (true, d, m) ->
  dec_le a a' = inr true ->
  validate_discount_code A self now c kw user_id (Some (AmountDecimal a'))
    = inr (true, d, m)
  /\ validate_discount_code A self now c kw user_id None = inr (true, d, m).
Proof.
  intros Hacc Hle.
  destruct (accepted_canonical _ _ _ _ _ _ _ _ _ Hacc)
    as (d' & Hget & -> & ->).
  apply (accepted_iff A self now c kw user_id _ d' Hget) in Hacc.
  destruct Hacc as (?&?&?&?&?&?&Hmin&?&?&?&?&?).
  split; apply (accepted_iff A self now c kw user_id _ d' Hget);
    repeat split; try assumption.
  unfold amount_value, minimum_purchase in *. simpl in *.
  destruct (min_purchase_amount d') as [minimum|]; [|reflexivity].
  destruct (dec_lt a minimum) as [e|below] eqn:Hlt; [discriminate Hmin|].
  destruct below; [discriminate Hmin|].
  rewrite (DecimalFacts.lt_false_le_trans a a' minimum Hlt Hle).
  reflexivity.
Qed.

(** X9.  Product and category scoping treat a missing id differently:
    a call without [product_id] is never rejected for the product, however
    the discount restricts products, while a call without [category_id] is
    never accepted for a discount that has a non-empty list of allowed
    categories. *)
Theorem scoping_without_ids (A : StorageAdapter) (self : DiscountService A)
    (now : Z) (c : string) (kw : kwargs) (user_id : option user_ref)
    (amount : option amount_arg) :
  (product_id kw = None ->
   forall ok disc,
     validate_discount_code A self now c kw user_id amount
     <> inr (ok, disc, NotValidForProduct))
  /\ (forall d first others,
        _get_discount_by_code A self c = Some d ->
        allowed_categories d = Some (first :: others) ->
        category_id kw = None ->
        forall disc m,
          validate_discount_code A self now c kw user_id amount
          <> inr (true, disc, m)).
Proof.
  split.
  - intros Hnone ok disc.
    destruct (_get_discount_by_code A self c) as [d|] eqn:Hget.
    + rewrite (validate_found A self now c kw user_id amount d Hget).
      unfold verdict.
      destruct (first_failure _) as [|m|e] eqn:Hfirst;
        [discriminate| |discriminate].
      intros [= _ _ ->].
      refine (source_order_message (fun m => m <> NotValidForProduct) A self
                now kw user_id amount d _ _ _ _ _ _ _ _ _ _ _ _ Hfirst
                eq_refl); try (intros; discriminate).
      unfold product_not_allowed, product_excluded. rewrite Hnone. simpl.
      destruct (allowed_products d) as [[|? ?]|],
        (excluded_products d); intros [H|H]; discriminate H.
    + unfold validate_discount_code. rewrite Hget. discriminate.
  - intros d first others Hget Hallowed Hnone disc m Hacc.
    destruct (accepted_canonical _ _ _ _ _ _ _ _ _ Hacc)
      as (d' & Hget' & -> & ->).
    rewrite Hget in Hget'. injection Hget' as <-.
    apply (accepted_iff A self now c kw user_id amount d Hget) in Hacc.
    destruct Hacc as (_&_&_&_&_&_&_&_&_&Hcat&_).
    unfold category_not_allowed in Hcat. rewrite Hallowed, Hnone in Hcat.
    discriminate Hcat.
Qed.







(** Witnesses on the sample shelves. *)
Lemma is_usable_can_use_witness :
  can_user_use_code Samples.SAVE10 (Some (UserStr "ann")) 5 = inr true
  /\ is_usable Samples.SAVE10 5 = true.
Proof.
  assert (H : can_user_use_code Samples.SAVE10 (Some (UserStr "ann")) 5
              = inr true) by reflexivity.
  split; [exact H|].
  exact (proj2 (is_usable_can_use Samples.SAVE10 5) (Some (UserStr "ann")) H).
Defined.

Lemma accepted_code_is_active_witness :
  let A := Samples.DictStorage 0 in
  let self : DiscountService A := Some Samples.shelf in
  validate_discount_code A self 5 "SAVE10" Samples.no_kwargs None None
  = inr (true, Some Samples.SAVE10, ValidDiscountCode)
  /\ status Samples.SAVE10 5 = ACTIVE.
Proof.
  intros A self.
  assert (H : validate_discount_code A self 5 "SAVE10" Samples.no_kwargs None
                None = inr (true, Some Samples.SAVE10, ValidDiscountCode))
    by reflexivity.
  split; [exact H|].
  exact (proj1 (accepted_code_is_active A self 5 "SAVE10" Samples.no_kwargs
                  None None Samples.SAVE10 ValidDiscountCode H)).
Defined.

Lemma total_limit_after_recordings_witness :
  max_uses MoreSamples.BULK50 = Some 3
  /\ (total_limit_reached (record_usages 3 None 7 MoreSamples.BULK50) = true
      <-> 3 <= used_count MoreSamples.BULK50 + Z.of_nat 3).
Proof.
  split; [reflexivity|].
  exact (proj1 (total_limit_after_recordings MoreSamples.BULK50 None 7 3
                  3%nat eq_refl)).
Defined.


Lemma fixed_amount_covers_witness :
  let A := Samples.DictStorage 0 in
  let self : DiscountService A := Some Samples.shelf in
  let counted := set_updated_at (set_used_count Samples.ONCE 1) 0 in
  apply_discount A self 5 "ONCE" (AmountDecimal (dec_of_Z 3)) None
    Samples.no_kwargs
  = (inr (true, dec_of_Z 0, Some Samples.ONCE, DiscountApplied),
     Some (<["ONCE" := counted]> Samples.shelf))
  /\ discount_type Samples.ONCE = FIXED_AMOUNT
  /\ dec_le (dec_of_Z 3) (discount_value Samples.ONCE) = inr true
  /\ dec_of_Z 0 = dec_of_Z 0.
Proof.
  intros A self counted.
  assert (Happly :
            apply_discount A self 5 "ONCE" (AmountDecimal (dec_of_Z 3)) None
              Samples.no_kwargs
            = (inr (true, dec_of_Z 0, Some Samples.ONCE, DiscountApplied),
               Some (<["ONCE" := counted]> Samples.shelf)))
    by (vm_compute; reflexivity).
  assert (Hle : dec_le (dec_of_Z 3) (discount_value Samples.ONCE) = inr true)
    by reflexivity.
  split; [exact Happly|]. split; [reflexivity|]. split; [exact Hle|].
  exact (fixed_amount_covers A self 5 "ONCE" (AmountDecimal (dec_of_Z 3))
           (dec_of_Z 3) None Samples.no_kwargs (dec_of_Z 0) Samples.ONCE
           DiscountApplied _ Happly eq_refl eq_refl Hle).
Defined.

Lemma validate_returns_lookup_witness :
  let A := Samples.DictStorage 0 in
  let self : DiscountService A := Some Samples.shelf in
  _get_discount_by_code A self "NOPE" = None
  /\ validate_discount_code A self 5 "NOPE" Samples.no_kwargs None None
     = inr (false, None, InvalidDiscountCode).
Proof.
  intros A self.
  assert (H : _get_discount_by_code A self "NOPE" = None) by reflexivity.
  split; [exact H|].
  exact (proj1 (proj2 (validate_returns_lookup A self 5 "NOPE"
                         Samples.no_kwargs None None)) H).
Defined.

Lemma accepted_between_witness :
  let A := Samples.DictStorage 0 in
  let self : DiscountService A := Some Samples.shelf in
  let accepted := inr (true, Some Samples.SAVE10, ValidDiscountCode) in
  validate_discount_code A self 1 "SAVE10" Samples.no_kwargs None None
  = accepted
  /\ validate_discount_code A self 9 "SAVE10" Samples.no_kwargs None None
     = accepted
  /\ 1 <= 5 <= 9
  /\ validate_discount_code A self 5 "SAVE10" Samples.no_kwargs None None
     = validate_discount_code A self 1 "SAVE10" Samples.no_kwargs None None.
Proof.
  intros A self accepted.
  assert (Hnow : 1 <= 5 <= 9) by lia.
  split; [reflexivity|]. split; [reflexivity|]. split; [exact Hnow|].
  exact (accepted_between A self 1 5 9 "SAVE10" Samples.no_kwargs None None
           (Some Samples.SAVE10) (Some Samples.SAVE10) ValidDiscountCode
           ValidDiscountCode eq_refl eq_refl Hnow).
Defined.

Lemma accepted_for_larger_amount_witness :
  let A := Samples.DictStorage 0 in
  let self : DiscountService A := Some MoreSamples.bulk_shelf in
  let accepted := inr (true, Some MoreSamples.BULK50, ValidDiscountCode) in
  validate_discount_code A self 5 "BULK50" Samples.no_kwargs None
    (Some (AmountDecimal (dec_of_Z 50))) = accepted
  /\ dec_le (dec_of_Z 50) (dec_of_Z 60) = inr true
  /\ validate_discount_code A self 5 "BULK50" Samples.no_kwargs None
       (Some (AmountDecimal (dec_of_Z 60))) = accepted.
Proof.
  intros A self accepted.
  assert (Hacc : validate_discount_code A self 5 "BULK50" Samples.no_kwargs
                   None (Some (AmountDecimal (dec_of_Z 50))) = accepted)
    by (vm_compute; reflexivity).
  assert (Hle : dec_le (dec_of_Z 50) (dec_of_Z 60) = inr true) by reflexivity.
  split; [exact Hacc|]. split; [exact Hle|].
  exact (proj1 (accepted_for_larger_amount A self 5 "BULK50" Samples.no_kwargs
                  None (dec_of_Z 50) (dec_of_Z 60) (Some MoreSamples.BULK50)
                  ValidDiscountCode Hacc Hle)).
Defined.

Lemma scoping_without_ids_witness :
  let A := Samples.DictStorage 0 in
  let self : DiscountService A := Some MoreSamples.toy_shelf in
  product_id Samples.no_kwargs = None
  /\ _get_discount_by_code A self "TOYS" = Some MoreSamples.TOYS
  /\ allowed_categories MoreSamples.TOYS = Some ["toys"]
  /\ category_id Samples.no_kwargs = None
  /\ (forall ok disc,
        validate_discount_code A self 5 "TOYS" Samples.no_kwargs None None
        <> inr (ok, disc, NotValidForProduct))
  /\ (forall disc m,
        validate_discount_code A self 5 "TOYS" Samples.no_kwargs None None
        <> inr (true, disc, m)).
Proof.
  intros A self.
  assert (Hget : _get_discount_by_code A self "TOYS" = Some MoreSamples.TOYS)
    by reflexivity.
  split; [reflexivity|]. split; [exact Hget|].
  split; [reflexivity|]. split; [reflexivity|].
  destruct (scoping_without_ids A self 5 "TOYS" Samples.no_kwargs None None)
    as [Hproduct Hcategory].
  split; [exact (Hproduct eq_refl)|].
  exact (Hcategory MoreSamples.TOYS "toys" [] Hget eq_refl eq_refl).
Defined.


End StatusFacts.

(* ================================================================== *)
(** * More on the payout date *)
(* ================================================================== *)

Module PayoutFacts.
Import Affiliate.

(** Where the first day of a month is no date, the 28th is none either. *)
Lemma replace_fallback (now : datetime) (m y : Z) :
  replace_ymd now m 1 y = None -> replace_ymd now m 28 y = None.
Proof.
  unfold replace_ymd.
  destruct (valid_datetime {| year := y; month := m; day := 28 |}) eqn:H28;
    [|reflexivity].
  destruct (valid_datetime {| year := y; month := m; day := 1 |}) eqn:H1;
    [discriminate|].
  exfalso. revert H28 H1. unfold valid_datetime.
  rewrite andb_true_iff, Z.leb_le, valid_civil_spec. simpl.
  intros [H28 Hmax] H1.
  assert (H : valid_civil {| year := y; month := m; day := 1;
                             hour := hour now; minute := minute now;
                             second := second now;
                             microsecond := microsecond now |} = true).
  { apply valid_civil_spec. simpl. repeat split; try lia. }
  rewrite H in H1. simpl in H1. apply Z.leb_gt in H1. lia.
Qed.

Lemma monthly_unfold (now : datetime) :
  compute_next_payout MONTHLY now
  = replace_ymd now (month now mod 12 + 1) 1
      (year now + (if month now mod 12 + 1 =? 1 then 1 else 0)).
Proof.
  unfold compute_next_payout.
  destruct (replace_ymd now _ 1 _) eqn:H1; [reflexivity|].
  apply replace_fallback. exact H1.
Qed.

(** X10.  The [except ValueError] fallback of the monthly schedule
    never yields a date: where [replace(day=1)] raises, [replace(day=28)]
    raises too, so the monthly payout date is just the result of
    [replace(month=next_month, day=1, year=year)] and its day is always
    1. *)
Theorem monthly_fallback_never_used (now : datetime) :
  let next_month := month now mod 12 + 1 in
  let y := year now + (if next_month =? 1 then 1 else 0) in
  (replace_ymd now next_month 1 y = None ->
   replace_ymd now next_month 28 y = None)
  /\ compute_next_payout MONTHLY now = replace_ymd now next_month 1 y
  /\ (forall d, compute_next_payout MONTHLY now = Some d -> day d = 1).
Proof.
  cbv zeta. split; [apply replace_fallback|].
  split; [apply monthly_unfold|].
  intros d. rewrite monthly_unfold. unfold replace_ymd.
  destruct (valid_datetime _); [|discriminate]. intros [= <-]. reflexivity.
Qed.

(** X11.  A monthly payout date computed at a valid time lies the rest
    of the current month plus one day ahead: its ordinal is that of [now]
    plus the days left in the month plus one, which is between 1 and 31
    days. *)
Theorem monthly_days_to_wait (now d : datetime) :
  valid_datetime now = true ->
  compute_next_payout MONTHLY now = Some d ->
  toordinal d
  = toordinal now + (days_in_month (year now) (month now) - day now) + 1
  /\ 1 <= toordinal d - toordinal now <= 31.
Proof.
  rewrite monthly_unfold.
  unfold valid_datetime at 1.
  rewrite andb_true_iff, Z.leb_le, valid_civil_spec.
  unfold replace_ymd, toordinal.
  destruct now as [y m dd h mi s us]. simpl.
  intros [(Hy & Hm & Hd & _) _].
  pose proof (days_before_year_succ y) as Hsucc.
  destruct (is_leap y) eqn:Hleap;
    destruct (month_cases m Hm)
      as [->|[->|[->|[->|[->|[->|[->|[->|[->|[->|[->| ->]]]]]]]]]]];
    repeat match goal with
           | |- context [?a mod 12] =>
               let r := eval vm_compute in (a mod 12) in
               change (a mod 12) with r
           end;
    simpl;
    match goal with
    | |- context [if valid_datetime ?x then _ else _] =>
        destruct (valid_datetime x)
    end;
    intros [= <-]; unfold days_in_month, days_before_month in *; simpl in *;
    rewrite ?Z.add_0_r, ?Hleap in *; simpl; lia.
Qed.

Lemma monthly_raises_only_at_the_end (now : datetime) :
  valid_datetime now = true ->
  (compute_next_payout MONTHLY now = None
   <-> year now = MAXYEAR /\ month now = 12).
Proof.
  intros Hnow. split.
  - intros Hnone.
    destruct (Z_lt_le_dec (year now) MAXYEAR) as [Hlt|Hge].
    + destruct (monthly_spec now Hnow Hlt) as (d & Hd & _). congruence.
    + revert Hnow Hnone. rewrite monthly_unfold.
      unfold valid_datetime at 1.
      rewrite andb_true_iff, Z.leb_le, valid_civil_spec.
      unfold replace_ymd, valid_datetime, MAXYEAR in *.
      destruct now as [y m dd h mi s us]. simpl in *.
      intros [(Hy & Hm & Hd & Hh & Hmi & Hs & Hus) Hmax].
      assert (y = 9999) as -> by lia.
      destruct (month_cases m Hm)
        as [->|[->|[->|[->|[->|[->|[->|[->|[->|[->|[->| ->]]]]]]]]]]];
        try (intros _; split; reflexivity);
        repeat match goal with
               | |- context [?a mod 12] =>
                   let r := eval vm_compute in (a mod 12) in
                   change (a mod 12) with r
               end;
        simpl;
        match goal with
        | |- context [if ?c then _ else _] =>
            replace c with true; [discriminate|]
        end;
        symmetry; rewrite andb_true_iff, Z.leb_le, valid_civil_spec; simpl;
        unfold days_in_month; simpl; repeat split; try lia;
        destruct (is_leap _); lia.
  - intros [Hy Hm]. rewrite monthly_unfold. unfold replace_ymd, valid_datetime.
    rewrite Hy, Hm. simpl.
    rewrite andb_false_r. reflexivity.
Qed.


(** The addition of weeks overflows exactly past the last day of 9999. *)
Lemma plus_weeks_overflow (now : datetime) (w : nat) :
  valid_datetime now = true ->
  (plus_weeks now w = None
   <-> days_before_year (MAXYEAR + 1) < toordinal now + 7 * Z.of_nat w).
Proof.
  unfold valid_datetime, plus_weeks. rewrite andb_true_iff, Z.leb_le.
  intros [Hnow Hmax].
  destruct (iter_next_day_spec (7 * w) now Hnow) as (Hv & Hord & _ & _).
  pose proof (toordinal_in_year _ Hv) as Hin.
  set (r := Nat.iter (7 * w) next_day now) in *.
  replace (toordinal now + 7 * Z.of_nat w) with (toordinal r) by lia.
  destruct (Z.leb_spec (year r) MAXYEAR) as [Hle|Hgt].
  - split; [discriminate|]. intros Hlast. exfalso.
    destruct (Z.eq_dec (year r) MAXYEAR) as [Heq|Hne].
    + rewrite Heq in Hin. lia.
    + pose proof (days_before_year_mono (year r + 1) (MAXYEAR + 1)). lia.
  - split; [intros _|reflexivity].
    destruct (Z.eq_dec (year r) (MAXYEAR + 1)) as [Heq|Hne].
    + rewrite Heq in Hin. lia.
    + pose proof (days_before_year_mono (MAXYEAR + 1) (year r)). lia.
Qed.

(** X12.  When the validator has to compute a payout date, it raises
    exactly when that date would lie after 31 December 9999: for the
    weekly, biweekly and quarterly schedules when 7, 14 or 91 days from
    now pass the last day of year 9999, for the monthly schedule in
    December 9999. *)
Theorem payout_date_overflow (v : values) (now : datetime)
    (schedule : PayoutSchedule) :
  valid_datetime now = true ->
  next_payout_date v = None ->
  payout_schedule v = Some schedule ->
  (calculate_lifetime_earnings v now = None
   <-> match schedule with
       | WEEKLY => days_before_year (MAXYEAR + 1) < toordinal now + 7
       | BIWEEKLY => days_before_year (MAXYEAR + 1) < toordinal now + 14
       | QUARTERLY => days_before_year (MAXYEAR + 1) < toordinal now + 91
       | MONTHLY => year now = MAXYEAR /\ month now = 12
       end).
Proof.
  intros Hnow Hnone Hsched.
  unfold calculate_lifetime_earnings.
  cbn [next_payout_date payout_schedule set_lifetime_earnings].
  rewrite Hnone, Hsched.
  assert (Hfmap : forall o : option datetime,
             set_next_payout_date
               (set_lifetime_earnings v
                  (default (Q2Qc 0) (total_commissions v)
                   + default (Q2Qc 0) (pending_payout v))%Qc) <$> o = None
             <-> o = None)
    by (intros [d|]; simpl; split; congruence).
  rewrite Hfmap.
  destruct schedule.
  - change (compute_next_payout WEEKLY now) with (plus_weeks now 1).
    rewrite (plus_weeks_overflow now 1 Hnow). lia.
  - change (compute_next_payout BIWEEKLY now) with (plus_weeks now 2).
    rewrite (plus_weeks_overflow now 2 Hnow). lia.
  - apply monthly_raises_only_at_the_end. exact Hnow.
  - change (compute_next_payout QUARTERLY now) with (plus_weeks now 13).
    rewrite (plus_weeks_overflow now 13 Hnow). lia.
Qed.

(** X13.  The root validator overwrites [lifetime_earnings] with
    [total_commissions + pending_payout] (a missing entry counting as 0),
    keeps a payout date that was given, and is idempotent: running it
    again on its own result, at any later time, returns that result
    unchanged. *)
Theorem payout_validator_idempotent (v v' : values) (now : datetime) :
  calculate_lifetime_earnings v now = Some v' ->
  lifetime_earnings v'
  = (default (Q2Qc 0) (total_commissions v)
     + default (Q2Qc 0) (pending_payout v))%Qc
  /\ (forall d, next_payout_date v = Some d -> next_payout_date v' = Some d)
  /\ (forall later, calculate_lifetime_earnings v' later = Some v').
Proof.
  unfold calculate_lifetime_earnings.
  cbn [next_payout_date payout_schedule set_lifetime_earnings].
  destruct v as [total pending life next sched].
  cbn [total_commissions pending_payout next_payout_date payout_schedule
       lifetime_earnings].
  destruct next as [d|].
  - intros [= <-]. cbn. split; [reflexivity|]. split; [auto|reflexivity].
  - destruct sched as [schedule|].
    + destruct (compute_next_payout schedule now) as [d|]; [|discriminate].
      intros [= <-]. cbn. split; [reflexivity|].
      split; [discriminate|reflexivity].
    + intros [= <-]. cbn. split; [reflexivity|].
      split; [discriminate|reflexivity].
Qed.


Lemma monthly_days_to_wait_witness :
  valid_datetime Samples.jan15 = true
  /\ compute_next_payout MONTHLY Samples.jan15 = Some (Samples.at_1030 2023 2 1)
  /\ toordinal (Samples.at_1030 2023 2 1)
     = toordinal Samples.jan15
       + (days_in_month (year Samples.jan15) (month Samples.jan15)
          - day Samples.jan15) + 1.
Proof.
  split; [reflexivity|]. split; [reflexivity|].
  exact (proj1 (monthly_days_to_wait Samples.jan15 (Samples.at_1030 2023 2 1)
                  eq_refl eq_refl)).
Defined.

Lemma payout_date_overflow_witness :
  valid_datetime (Samples.at_1030 9999 12 30) = true
  /\ (calculate_lifetime_earnings (Samples.new_profile WEEKLY)
        (Samples.at_1030 9999 12 30) = None
      <-> days_before_year (MAXYEAR + 1)
          < toordinal (Samples.at_1030 9999 12 30) + 7).
Proof.
  split; [reflexivity|].
  exact (payout_date_overflow (Samples.new_profile WEEKLY)
           (Samples.at_1030 9999 12 30) WEEKLY eq_refl eq_refl eq_refl).
Defined.

Lemma payout_validator_idempotent_witness :
  let v := Samples.new_profile MONTHLY in
  let v' :=
    set_next_payout_date
      (set_lifetime_earnings v
         (Q2Qc (125075 # 100) + Q2Qc (32550 # 100))%Qc)
      (Samples.at_1030 2023 2 1) in
  calculate_lifetime_earnings v Samples.jan31 = Some v'
  /\ forall later, calculate_lifetime_earnings v' later = Some v'.
Proof.
  intros v v'.
  assert (H : calculate_lifetime_earnings v Samples.jan31 = Some v')
    by reflexivity.
  split; [exact H|].
  exact (proj2 (proj2 (payout_validator_idempotent v v' Samples.jan31 H))).
Defined.

Lemma monthly_fallback_never_used_witness :
  let now := Samples.at_1030 9999 12 30 in
  replace_ymd now 1 1 10000 = None
  /\ replace_ymd now 1 28 10000 = None.
Proof.
  intros now.
  assert (H : replace_ymd now 1 1 10000 = None) by reflexivity.
  split; [exact H|].
  exact (proj1 (monthly_fallback_never_used now) H).
Defined.

End PayoutFacts.

(* ================================================================== *)
(** * [BaseService]: update, count and round trips *)
(* ================================================================== *)

Module StoreFacts.
Import Crud CrudUpdate CrudFacts.

Lemma dict_set_fresh (d : dict) (k : UUID) (v : Item) :
  k ∉ d.*1 -> dict_set d k v = d ++ [(k, v)].
Proof.
  induction d as [|[j w] d IH]; simpl; intros Hk; [reflexivity|].
  apply not_elem_of_cons in Hk as [Hne Hk].
  destruct (Z.eqb_spec j k); [congruence|]. rewrite IH by exact Hk.
  reflexivity.
Qed.

Lemma dict_set_keys_same (d : dict) (k : UUID) (v : Item) :
  k ∈ d.*1 -> (dict_set d k v).*1 = d.*1.
Proof.
  induction d as [|[j w] d IH]; intros Hk; [inversion Hk|].
  cbn [dict_set]. rewrite fmap_cons in Hk.
  destruct (Z.eqb_spec j k) as [->|Hne]; [reflexivity|].
  apply elem_of_cons in Hk as [Hk|Hk]; [simpl in Hk; congruence|].
  rewrite !fmap_cons, IH by exact Hk. reflexivity.
Qed.

Lemma dict_set_same (d : dict) (k : UUID) (v : Item) :
  dict_get d k = Some v -> dict_set d k v = d.
Proof.
  induction d as [|[j w] d IH]; simpl; [discriminate|].
  destruct (Z.eqb_spec j k) as [->|Hne].
  - intros [= ->]. reflexivity.
  - intros H. rewrite IH by exact H. reflexivity.
Qed.

Lemma dict_del_absent (d : dict) (k : UUID) :
  k ∉ d.*1 -> dict_del d k = d.
Proof.
  induction d as [|[j w] d IH]; simpl; intros Hk; [reflexivity|].
  apply not_elem_of_cons in Hk as [Hne Hk].
  destruct (Z.eqb_spec j k); [congruence|]. rewrite IH by exact Hk.
  reflexivity.
Qed.

Lemma dict_del_set_fresh (d : dict) (k : UUID) (v : Item) :
  k ∉ d.*1 -> dict_del (dict_set d k v) k = d.
Proof.
  induction d as [|[j w] d IH]; simpl; intros Hk.
  - rewrite Z.eqb_refl. reflexivity.
  - apply not_elem_of_cons in Hk as [Hne Hk].
    destruct (Z.eqb_spec j k); [congruence|]. simpl.
    destruct (Z.eqb_spec j k); [congruence|]. rewrite IH by exact Hk.
    reflexivity.
Qed.

Lemma dict_del_length (d : dict) (k : UUID) :
  k ∈ d.*1 -> S (length (dict_del d k)) = length d.
Proof.
  induction d as [|[j w] d IH]; simpl; intros Hk; [inversion Hk|].
  destruct (Z.eqb_spec j k) as [->|Hne]; [reflexivity|].
  apply elem_of_cons in Hk as [Hk|Hk]; [congruence|].
  simpl. rewrite IH by exact Hk. reflexivity.
Qed.

Lemma dict_contains_keys (d : dict) (k : UUID) :
  dict_contains d k = true <-> k ∈ d.*1.
Proof.
  unfold dict_contains. rewrite dict_get_Some_keys.
  destruct (dict_get d k); split; eauto; try discriminate.
  intros [v H]. discriminate H.
Qed.

(** ** Storages of references *)

Lemma ref_get_set_eq (d : CrudRefs.dict) (k : UUID) (a : CrudRefs.addr) :
  CrudRefs.dict_get (CrudRefs.dict_set d k a) k = Some a.
Proof.
  induction d as [|[j b] d IH]; simpl.
  - rewrite Z.eqb_refl. reflexivity.
  - destruct (Z.eqb_spec j k) as [->|Hne]; simpl.
    + rewrite Z.eqb_refl. reflexivity.
    + destruct (Z.eqb_spec j k); [congruence|exact IH].
Qed.

Lemma ref_get_set_ne (d : CrudRefs.dict) (k k' : UUID) (a : CrudRefs.addr) :
  k' <> k ->
  CrudRefs.dict_get (CrudRefs.dict_set d k a) k' = CrudRefs.dict_get d k'.
Proof.
  intros Hne. induction d as [|[j b] d IH]; simpl.
  - destruct (Z.eqb_spec k k'); [congruence|reflexivity].
  - destruct (Z.eqb_spec j k) as [->|Hjk]; simpl.
    + destruct (Z.eqb_spec k k'); [congruence|reflexivity].
    + destruct (Z.eqb_spec j k'); [reflexivity|exact IH].
Qed.

Lemma ref_set_keys (d : CrudRefs.dict) (k : UUID) (a b : CrudRefs.addr) :
  CrudRefs.dict_get d k = Some b -> (CrudRefs.dict_set d k a).*1 = d.*1.
Proof.
  induction d as [|[j c] d IH];
    cbn [CrudRefs.dict_get CrudRefs.dict_set]; [discriminate|].
  destruct (Z.eqb_spec j k) as [->|Hne]; [reflexivity|].
  intros H. rewrite !fmap_cons. f_equal. apply IH. exact H.
Qed.

Lemma ref_get_elem (d : CrudRefs.dict) (k : UUID) (a : CrudRefs.addr) :
  CrudRefs.dict_get d k = Some a -> a ∈ d.*2.
Proof.
  induction d as [|[j c] d IH]; simpl; [discriminate|].
  destruct (Z.eqb_spec j k) as [->|Hne].
  - intros [= ->]. left.
  - intros H. right. apply IH. exact H.
Qed.

Lemma heap_set_eq (h : CrudRefs.heap) (a : CrudRefs.addr) (item : Item) :
  CrudRefs.heap_set h a item a = item.
Proof. unfold CrudRefs.heap_set. rewrite Nat.eqb_refl. reflexivity. Qed.

Lemma heap_set_ne (h : CrudRefs.heap) (a b : CrudRefs.addr) (item : Item) :
  b <> a -> CrudRefs.heap_set h a item b = h b.
Proof.
  intros Hne. unfold CrudRefs.heap_set.
  destruct (Nat.eqb_spec b a); [contradiction|reflexivity].
Qed.

(** Reading the items through a changed heap. *)
Lemma stored_get (h : CrudRefs.heap) (d : CrudRefs.dict) (k : UUID) :
  dict_get ((fun kv => (kv.1, h kv.2)) <$> d) k
  = h <$> CrudRefs.dict_get d k.
Proof.
  induction d as [|[j c] d IH]; simpl; [reflexivity|].
  destruct (j =? k); [reflexivity|exact IH].
Qed.

Lemma stored_set (h : CrudRefs.heap) (d : CrudRefs.dict) (k : UUID)
    (a : CrudRefs.addr) :
  (fun kv => (kv.1, h kv.2)) <$> CrudRefs.dict_set d k a
  = dict_set ((fun kv => (kv.1, h kv.2)) <$> d) k (h a).
Proof.
  induction d as [|[j c] d IH]; [reflexivity|].
  cbn [CrudRefs.dict_set]. rewrite (fmap_cons _ (j, c) d).
  cbn [dict_set fst snd]. destruct (j =? k); rewrite !fmap_cons;
    [reflexivity|].
  f_equal. exact IH.
Qed.

Lemma stored_elsewhere (h h' : CrudRefs.heap) (d : CrudRefs.dict) :
  Forall (fun b => h' b = h b) d.*2 ->
  (fun kv => (kv.1, h' kv.2)) <$> d = (fun kv => (kv.1, h kv.2)) <$> d.
Proof.
  induction d as [|[j c] d IH]; intros H; [reflexivity|].
  rewrite fmap_cons in H. apply Forall_cons in H as [Hc H].
  rewrite !fmap_cons. cbn [fst snd] in *. rewrite Hc. f_equal.
  apply IH. exact H.
Qed.

(** Where one object changes and it is stored once, the items read as
    after an assignment to its entry. *)
Lemma stored_changed (h h' : CrudRefs.heap) (d : CrudRefs.dict) (k : UUID)
    (a : CrudRefs.addr) :
  NoDup d.*2 -> CrudRefs.dict_get d k = Some a ->
  (forall b, b <> a -> h' b = h b) ->
  (fun kv => (kv.1, h' kv.2)) <$> d
  = dict_set ((fun kv => (kv.1, h kv.2)) <$> d) k (h' a).
Proof.
  intros Hnodup Hget Hframe.
  induction d as [|[j c] d IH]; [discriminate|].
  rewrite fmap_cons in Hnodup. apply NoDup_cons in Hnodup as [Hc Hnodup].
  cbn [CrudRefs.dict_get] in Hget. rewrite !fmap_cons.
  cbn [dict_set fst snd] in *.
  destruct (Z.eqb_spec j k) as [->|Hne].
  - injection Hget as ->. f_equal. apply stored_elsewhere.
    apply Forall_forall. intros b Hb. apply Hframe. intros ->.
    contradiction.
  - rewrite <- IH by assumption. f_equal. f_equal. apply Hframe.
    intros ->. apply Hc. apply (ref_get_elem d k). exact Hget.
Qed.

Section Facts.

Context (model_class : list (string * val) -> string + Item)
        (setattr : Item -> string -> val -> string + Item).

(** The loop changes the one object it is given. *)
Lemma assign_all_frame (h : CrudRefs.heap) (a : CrudRefs.addr)
    (entries : list (string * val)) (b : CrudRefs.addr) :
  b <> a -> (CrudRefs.assign_all setattr h a entries).1 b = h b.
Proof.
  intros Hne. revert h.
  induction entries as [|[key value] entries IH]; intros h;
    [reflexivity|].
  simpl. destruct (getattr (h a) key); [|apply IH].
  destruct (setattr (h a) key value) as [e|changed]; [reflexivity|].
  rewrite IH. apply heap_set_ne. exact Hne.
Qed.

(** It does to the object what the loop by value does to the item. *)
Lemma assign_all_value (h : CrudRefs.heap) (a : CrudRefs.addr)
    (entries : list (string * val)) :
  assign_all setattr (h a) entries
  = ((CrudRefs.assign_all setattr h a entries).1 a,
     (CrudRefs.assign_all setattr h a entries).2).
Proof.
  revert h.
  induction entries as [|[key value] entries IH]; intros h;
    [reflexivity|].
  simpl. destruct (getattr (h a) key); [|apply IH].
  destruct (setattr (h a) key value) as [e|changed]; [reflexivity|].
  rewrite <- IH, heap_set_eq. reflexivity.
Qed.

Lemma assign_all_skips (h : CrudRefs.heap) (a : CrudRefs.addr)
    (entries : list (string * val)) :
  Forall (fun kv => getattr (h a) kv.1 = None) entries ->
  CrudRefs.assign_all setattr h a entries = (h, None).
Proof.
  induction entries as [|[key value] entries IH]; intros H; [reflexivity|].
  apply Forall_cons in H as [Hkey H]. simpl in *. rewrite Hkey.
  apply IH. exact H.
Qed.

(** On a storage that holds no object twice, [update] on the objects and
    [update] on the items read by value agree: in what they return and in
    the items stored afterwards. *)
Lemma update_by_value (self : CrudRefs.BaseService) (h : CrudRefs.heap)
    (k : UUID) (data : CrudRefs.update_arg) :
  CrudRefs.unshared self ->
  let '(answer, self', h') := CrudRefs.update setattr self h k data in
  update setattr (CrudRefs.stored h self) k (CrudRefs.arg_value h data)
  = (CrudRefs.answer_value h' answer, CrudRefs.stored h' self').
Proof.
  intros Hnodup. unfold CrudRefs.update, update, CrudRefs.stored.
  cbn [Crud._storage]. rewrite stored_get.
  destruct (CrudRefs.dict_get (CrudRefs._storage self) k) as [a|] eqn:Hget;
    [|reflexivity].
  destruct data as [entries|new]; cbn [CrudRefs.arg_value fmap option_fmap
                                        option_map].
  - rewrite assign_all_value.
    destruct (CrudRefs.assign_all setattr h a entries) as [h' raised]
      eqn:Hassign.
    cbn [fst snd CrudRefs._storage].
    assert (Hframe : forall b, b <> a -> h' b = h b).
    { intros b Hb.
      pose proof (assign_all_frame h a entries b Hb) as H.
      rewrite Hassign in H. exact H. }
    rewrite (stored_changed h h' _ k a Hnodup Hget Hframe).
    destruct raised; reflexivity.
  - cbn [CrudRefs._storage]. rewrite stored_set. reflexivity.
Qed.

(** X14.  [update] changes one binding or one object at most.  The
    stored ids stay; every other id stays bound to the object it was
    bound to; every object but the one stored under [id] stays as it was.
    A dictionary leaves the bindings alone, an item leaves the objects
    alone.  For an id that is not stored the call returns [None] and
    changes nothing, and a dictionary whose keys are no attributes of the
    stored object returns that object and changes nothing. *)
Theorem update_frame (self : CrudRefs.BaseService) (h : CrudRefs.heap)
    (k : UUID) (data : CrudRefs.update_arg) :
  let '(answer, self', h') := CrudRefs.update setattr self h k data in
  (CrudRefs._storage self').*1 = (CrudRefs._storage self).*1
  /\ (forall k', k' <> k -> CrudRefs.get self' k' = CrudRefs.get self k')
  /\ (forall b, CrudRefs.get self k <> Some b -> h' b = h b)
  /\ (forall entries, data = CrudRefs.WithDict entries -> self' = self)
  /\ (forall new b, data = CrudRefs.WithItem new -> h' b = h b)
  /\ (CrudRefs.get self k = None ->
      answer = inr None /\ self' = self /\ forall b, h' b = h b)
  /\ (forall a entries,
        CrudRefs.get self k = Some a -> data = CrudRefs.WithDict entries ->
        Forall (fun kv => getattr (h a) kv.1 = None) entries ->
        answer = inr (Some a) /\ self' = self /\ forall b, h' b = h b).
Proof.
  unfold CrudRefs.update, CrudRefs.get.
  destruct (CrudRefs.dict_get (CrudRefs._storage self) k) as [a|] eqn:Hget.
  - destruct data as [entries|new].
    + destruct (CrudRefs.assign_all setattr h a entries) as [h' raised]
        eqn:Hassign.
      split; [reflexivity|]. split; [reflexivity|].
      split.
      { intros b Hb.
        pose proof (assign_all_frame h a entries b) as H.
        rewrite Hassign in H. apply H. congruence. }
      split; [reflexivity|]. split; [discriminate|].
      split; [discriminate|].
      intros a0 entries0 [= <-] [= <-] Hnone.
      rewrite (assign_all_skips h a entries Hnone) in Hassign.
      injection Hassign as <- <-. auto.
    + cbn [CrudRefs._storage].
      split; [exact (ref_set_keys _ k new a Hget)|].
      split; [intros k' Hne; apply ref_get_set_ne; exact Hne|].
      split; [reflexivity|]. split; [discriminate|].
      split; [reflexivity|]. split; [discriminate|].
      intros a0 entries0 _ [=].
  - split; [reflexivity|]. split; [reflexivity|]. split; [reflexivity|].
    split; [reflexivity|]. split; [reflexivity|]. split; [auto|].
    intros a0 entries0 [=].
Qed.

(** X15.  [update(id, item)] for a stored id returns the item and
    stores it under [id], whatever the item's own id is: [get(id)]
    returns the new item, [get(item.id)] for a different [item.id] answers
    as before, and the number of stored items is unchanged. *)
Theorem update_replaces (self : BaseService) (k : UUID) (new : Item) :
  k ∈ (_storage self).*1 ->
  let '(answer, self') := update setattr self k (WithItem new) in
  answer = inr (Some new)
  /\ get self' k = Some new
  /\ (id new <> k -> get self' (id new) = get self (id new))
  /\ count self' [] = count self [].
Proof.
  intros Hk. unfold update, get.
  apply dict_get_Some_keys in Hk as [item Hget]. rewrite Hget. simpl.
  split; [reflexivity|]. split; [apply dict_get_set_eq|].
  split; [intros Hne; apply dict_get_set_ne; congruence|].
  unfold count, list_, dict_values. simpl.
  rewrite !length_fmap.
  rewrite <- (length_fmap fst (dict_set _ _ _)), <- (length_fmap fst (_storage self)).
  rewrite dict_set_keys_same by (apply dict_get_Some_keys; eauto).
  reflexivity.
Qed.

(** X16.  [count()] without filters is the number of stored items;
    [create] raises it by one for a new id and leaves it for an id that is
    already stored, [delete] of a stored id lowers it by one, and [delete]
    of an absent id returns [False] and changes nothing. *)
Theorem count_tracks (self : BaseService) (item : Item) (k : UUID) :
  count self [] = inr (length (_storage self))
  /\ (forall self',
        create model_class self (FromItem item) = inr (item, self') ->
        count self' [] =
          inr (if dict_contains (_storage self) (id item)
               then length (_storage self)
               else S (length (_storage self))))
  /\ (dict_contains (_storage self) k = true ->
      exists n,
        count (delete self k).2 [] = inr n
        /\ S n = length (_storage self))
  /\ (dict_contains (_storage self) k = false -> delete self k = (false, self)).
Proof.
  assert (Hcount : forall s, count s [] = inr (length (_storage s))).
  { intros s. unfold count, list_, dict_values. rewrite length_fmap.
    reflexivity. }
  split; [apply Hcount|]. split; [|split].
  - intros self' [= <-]. rewrite Hcount. simpl. f_equal.
    destruct (dict_contains (_storage self) (id item)) eqn:Hc.
    + apply dict_contains_keys in Hc.
      rewrite <- (length_fmap fst (dict_set _ _ _)),
        <- (length_fmap fst (_storage self)).
      rewrite dict_set_keys_same by exact Hc. reflexivity.
    + rewrite dict_set_fresh.
      * rewrite length_app. simpl. lia.
      * rewrite <- dict_contains_keys. congruence.
  - intros Hc. unfold delete. rewrite Hc. simpl. rewrite Hcount. simpl.
    eexists. split; [reflexivity|].
    apply dict_del_length. apply dict_contains_keys. exact Hc.
  - intros Hc. unfold delete. rewrite Hc. reflexivity.
Qed.

(** X17.  Creating an item with a new id appends it to what
    [list()] returns, and deleting it again restores the service exactly
    as it was. *)
Theorem create_delete_roundtrip (self : BaseService) (item : Item) :
  id item ∉ (_storage self).*1 ->
  exists self',
    create model_class self (FromItem item) = inr (item, self')
    /\ list_ self' [] = inr (dict_values (_storage self) ++ [item])
    /\ delete self' (id item) = (true, self).
Proof.
  intros Hfresh. eexists. split; [reflexivity|]. simpl.
  rewrite dict_set_fresh by exact Hfresh. split.
  - unfold list_, dict_values. simpl. rewrite fmap_app. reflexivity.
  - unfold delete. simpl.
    assert (Hc : dict_contains (_storage self ++ [(id item, item)]) (id item)
                 = true).
    { apply dict_contains_keys. rewrite fmap_app. apply elem_of_app. right.
      simpl. left. }
    rewrite Hc. f_equal.
    rewrite <- (dict_set_fresh _ _ _ Hfresh).
    rewrite dict_del_set_fresh by exact Hfresh. destruct self; reflexivity.
Qed.

End Facts.

Lemma update_replaces_witness :
  7 ∈ (_storage Samples.notebook).*1
  /\ (let '(answer, self') :=
        update MoreSamples.no_setattr Samples.notebook 7
          (WithItem MoreSamples.user11) in
      answer = inr (Some MoreSamples.user11)
      /\ get self' 7 = Some MoreSamples.user11
      /\ (id MoreSamples.user11 <> 7 ->
          get self' (id MoreSamples.user11)
          = get Samples.notebook (id MoreSamples.user11))
      /\ count self' [] = count Samples.notebook []).
Proof.
  assert (Hk : 7 ∈ (_storage Samples.notebook).*1) by (simpl; left).
  split; [exact Hk|].
  exact (update_replaces MoreSamples.no_setattr Samples.notebook 7
           MoreSamples.user11 Hk).
Defined.

Lemma create_delete_roundtrip_witness :
  (id MoreSamples.user11 ∉ (_storage Samples.notebook).*1)
  /\ exists self',
       create MoreSamples.no_model Samples.notebook
         (FromItem MoreSamples.user11) = inr (MoreSamples.user11, self')
       /\ list_ self' []
          = inr (dict_values (_storage Samples.notebook)
                 ++ [MoreSamples.user11])
       /\ delete self' (id MoreSamples.user11) = (true, Samples.notebook).
Proof.
  assert (Hfresh : id MoreSamples.user11 ∉ (_storage Samples.notebook).*1).
  { simpl. intros H. apply list_elem_of_singleton in H. discriminate H. }
  split; [exact Hfresh|].
  exact (create_delete_roundtrip MoreSamples.no_model Samples.notebook
           MoreSamples.user11 Hfresh).
Defined.

(** One object under two ids: after [update(101, note)] the note sits
    under 7 and 101, and a new title given under 7 shows under 101. *)
Lemma update_frame_witness :
  let '(_, shared, _) :=
    CrudRefs.update MoreSamples.plain_setattr MoreSamples.two_slots
      MoreSamples.desk 101 (CrudRefs.WithItem 0%nat) in
  let '(answer, self', h') :=
    CrudRefs.update MoreSamples.plain_setattr shared MoreSamples.desk 7
      (CrudRefs.WithDict [("title", VStr "done")]) in
  CrudRefs.get shared 101 = Some 0%nat
  /\ answer = inr (Some 0%nat)
  /\ self' = shared
  /\ getattr (h' 0%nat) "title" = Some (VStr "done")
  /\ h' 1%nat = MoreSamples.desk 1%nat
  /\ h' <$> CrudRefs.get self' 101
     <> MoreSamples.desk <$> CrudRefs.get shared 101.
Proof.
  pose proof (update_frame MoreSamples.plain_setattr
                {| CrudRefs._storage := [(7, 0%nat); (101, 0%nat)] |}
                MoreSamples.desk 7
                (CrudRefs.WithDict [("title", VStr "done")])) as H.
  cbn [CrudRefs.update CrudRefs.dict_get CrudRefs.dict_set CrudRefs._storage
       Z.eqb Pos.eqb] in *.
  destruct (CrudRefs.assign_all MoreSamples.plain_setattr MoreSamples.desk
              0%nat [("title", VStr "done")]) as [h' raised] eqn:Hassign.
  destruct H as (_ & _ & Hframe & Hself & _).
  injection Hassign as <- <-.
  split; [reflexivity|]. split; [reflexivity|].
  split; [exact (Hself _ eq_refl)|].
  split; [reflexivity|].
  split; [apply Hframe; discriminate|].
  discriminate.
Defined.

Lemma count_tracks_witness :
  dict_contains (_storage Samples.notebook) 7 = true
  /\ dict_contains (_storage Samples.notebook) 8 = false
  /\ (exists n,
        count (delete Samples.notebook 7).2 [] = inr n
        /\ S n = length (_storage Samples.notebook))
  /\ delete Samples.notebook 8 = (false, Samples.notebook).
Proof.
  split; [reflexivity|]. split; [reflexivity|].
  split.
  - exact (proj1 (proj2 (proj2 (count_tracks MoreSamples.no_model
                                  Samples.notebook Samples.note 7)))
             eq_refl).
  - exact (proj2 (proj2 (proj2 (count_tracks MoreSamples.no_model
                                  Samples.notebook Samples.note 8)))
             eq_refl).
Defined.

End StoreFacts.

(* ================================================================== *)
(** * The participant service *)
(* ================================================================== *)

Module MemberFacts.
Import Crud CrudUpdate CrudFacts Participants StoreFacts.

(** A stored entry splits the dictionary around it. *)
Lemma dict_split (d : dict) (k : UUID) (v0 : Item) :
  dict_get d k = Some v0 ->
  exists l1 l2,
    d = l1 ++ ((k, v0) :: l2)
    /\ (k ∉ l1.*1)
    /\ (forall v, dict_set d k v = l1 ++ ((k, v) :: l2))
    /\ dict_del d k = l1 ++ l2.
Proof.
  induction d as [|[j w] d IH]; simpl; [discriminate|].
  destruct (Z.eqb_spec j k) as [->|Hne].
  - intros [= ->]. exists [], d. simpl. repeat split; auto.
    intros H. inversion H.
  - intros Hget. destruct (IH Hget) as (l1 & l2 & -> & Hk & Hset & Hdel).
    exists ((j, w) :: l1), l2. simpl. repeat split.
    + rewrite not_elem_of_cons. split; [congruence | exact Hk].
    + intros v. rewrite Hset. reflexivity.
    + rewrite Hdel. reflexivity.
Qed.

Lemma dict_get_elem (d : dict) (k : UUID) (v : Item) :
  dict_ok d -> (k, v) ∈ d -> dict_get d k = Some v.
Proof.
  unfold dict_ok. induction d as [|[j w] d IH]; simpl; intros Hok Hin;
    [inversion Hin|].
  apply NoDup_cons in Hok as [Hj Hok].
  apply elem_of_cons in Hin as [[= <- <-]|Hin].
  - rewrite Z.eqb_refl. reflexivity.
  - destruct (Z.eqb_spec j k) as [->|Hne]; [|auto].
    exfalso. apply Hj. apply list_elem_of_fmap. exists (k, v). auto.
Qed.

Lemma filter_cons_bool (f : Item -> bool) (x : Item) (l : list Item) :
  filter (fun item => f item) (x :: l)
  = if f x then x :: filter (fun item => f item) l
    else filter (fun item => f item) l.
Proof. rewrite filter_cons. destruct (f x); reflexivity. Qed.

Lemma Forall_dict_set (Q : UUID * Item -> Prop) (d : dict) k v :
  Forall Q d -> Q (k, v) -> Forall Q (dict_set d k v).
Proof.
  intros Hd Hkv. induction d as [|[j w] d IH]; simpl.
  - constructor; [exact Hkv | constructor].
  - apply Forall_cons in Hd as [Hj Hd].
    destruct (j =? k); constructor; auto.
Qed.

Lemma Forall_dict_del (Q : UUID * Item -> Prop) (d : dict) k :
  Forall Q d -> Forall Q (dict_del d k).
Proof.
  intros Hd. induction d as [|[j w] d IH]; simpl; [constructor|].
  apply Forall_cons in Hd as [Hj Hd].
  destruct (j =? k); [exact Hd | constructor; auto].
Qed.

Lemma filter_dict_set_length (f : Item -> bool) (d : dict) k v :
  (length (filter (fun item => f item) (dict_values (dict_set d k v)))
   <= length (filter (fun item => f item) (dict_values d))
      + (if f v then 1 else 0))%nat.
Proof.
  unfold dict_values. induction d as [|[j w] d IH]; cbn [dict_set].
  - simpl. rewrite filter_cons_bool. destruct (f v); simpl; lia.
  - destruct (j =? k); rewrite !fmap_cons, !filter_cons_bool; simpl.
    + destruct (f v), (f w); simpl; lia.
    + destruct (f w); simpl; lia.
Qed.

Lemma filter_dict_set_empty (f : Item -> bool) (d : dict) k v :
  filter (fun item => f item) (dict_values d) = [] ->
  f v = true ->
  filter (fun item => f item) (dict_values (dict_set d k v)) = [v].
Proof.
  unfold dict_values. intros Hnone Hv.
  induction d as [|[j w] d IH]; cbn [dict_set].
  - simpl. rewrite filter_cons_bool, Hv. reflexivity.
  - rewrite fmap_cons, filter_cons_bool in Hnone. simpl in Hnone.
    destruct (f w) eqn:Hw; [discriminate|].
    destruct (j =? k); rewrite !fmap_cons, !filter_cons_bool; simpl.
    + rewrite Hv, Hnone. reflexivity.
    + rewrite Hw. apply IH. exact Hnone.
Qed.

Lemma filter_dict_del_length (f : Item -> bool) (d : dict) k :
  (length (filter (fun item => f item) (dict_values (dict_del d k)))
   <= length (filter (fun item => f item) (dict_values d)))%nat.
Proof.
  unfold dict_values. induction d as [|[j w] d IH]; cbn [dict_del]; [lia|].
  destruct (j =? k); rewrite !fmap_cons, !filter_cons_bool; simpl.
  - destruct (f w); simpl; lia.
  - destruct (f w); simpl; lia.
Qed.

Section Facts.

Context (model_class : list (string * val) -> string + Item)
        (Participant :
           UUID -> UUID -> ParticipantRole -> list (string * val)
           -> string + Item).

(** Under the invariant the lookup is the first member, without raising. *)
Lemma get_by_thread_and_user_ok (self : BaseService) (t u : UUID) :
  members_ok self ->
  get_by_thread_and_user self t u
  = inr (head (filter (fun item => is_member t u item)
                 (dict_values (_storage self)))).
Proof.
  intros Hok. unfold get_by_thread_and_user, list_.
  rewrite select_total; [reflexivity|].
  intros item key value Hitem Hfilter.
  pose proof (members_attrs self Hok) as Hattrs.
  rewrite Forall_forall in Hattrs.
  destruct (Hattrs item Hitem) as (t' & u' & Ht & Hu).
  apply elem_of_cons in Hfilter as [[= -> ->]|Hfilter]; [eauto|].
  apply list_elem_of_singleton in Hfilter as [= -> ->]. eauto.
Qed.

Lemma is_member_spec (t u : UUID) (item : Item) (t' u' : UUID) :
  getattr item "thread_id" = Some (VUuid t') ->
  getattr item "user_id" = Some (VUuid u') ->
  is_member t u item = true <-> t' = t /\ u' = u.
Proof.
  intros Ht Hu. unfold is_member, has_filter_values. simpl.
  rewrite Ht, Hu. simpl. rewrite andb_true_r, andb_true_iff, !Z.eqb_eq.
  tauto.
Qed.


Lemma head_filter_None (f : Item -> bool) (l : list Item) :
  head (filter (fun item => f item) l) = None ->
  filter (fun item => f item) l = [].
Proof. destruct (filter _ l); [reflexivity | discriminate]. Qed.

(** Storing a participant of a pair that has no member keeps the
    invariant and makes it the member of the pair. *)
Lemma store_member (self : BaseService) (t u : UUID) (p : Item) :
  members_ok self ->
  getattr p "thread_id" = Some (VUuid t) ->
  getattr p "user_id" = Some (VUuid u) ->
  filter (fun item => is_member t u item) (dict_values (_storage self)) = [] ->
  let self' := {| _storage := dict_set (_storage self) (id p) p |} in
  members_ok self'
  /\ filter (fun item => is_member t u item) (dict_values (_storage self'))
     = [p].
Proof.
  intros Hok Ht Hu Hnone self'.
  assert (Hp : is_member t u p = true)
    by (apply (is_member_spec t u p t u Ht Hu); auto).
  split; [|apply (filter_dict_set_empty (is_member t u)); assumption].
  destruct Hok as [Hdict Hkeys Hattrs Huniq]. constructor; simpl.
  - apply dict_set_ok. exact Hdict.
  - apply Forall_dict_set; [exact Hkeys | reflexivity].
  - unfold dict_values in *. rewrite Forall_fmap in *.
    apply Forall_dict_set; [exact Hattrs | simpl; eauto].
  - intros t' u'.
    destruct (is_member t' u' p) eqn:Hp'.
    + apply (is_member_spec t' u' p t u Ht Hu) in Hp' as [<- <-].
      rewrite (filter_dict_set_empty (is_member t u)) by assumption.
      simpl. lia.
    + pose proof (filter_dict_set_length (is_member t' u') (_storage self)
                    (id p) p) as Hlen.
      rewrite Hp' in Hlen. specialize (Huniq t' u'). lia.
Qed.

(** X18.  [ParticipantService.add_participant] is idempotent and
    keeps the storage consistent: after a successful call the pair of
    thread and user has exactly that participant as its member, and any
    further call for the pair, with whatever role and keyword arguments,
    returns the same participant and leaves the storage unchanged. *)
Theorem add_participant_idempotent (self self' : BaseService) (t u : UUID)
    (r : ParticipantRole) (kw : list (string * val)) (p : Item) :
  members_ok self ->
  builds_participants Participant ->
  add_participant model_class Participant self t u r kw = inr (p, self') ->
  members_ok self'
  /\ get_by_thread_and_user self' t u = inr (Some p)
  /\ (forall r' kw',
        add_participant model_class Participant self' t u r' kw'
        = inr (p, self')).
Proof.
  intros Hok Hbuild Hadd.
  assert (Hgoal : members_ok self'
                  /\ get_by_thread_and_user self' t u = inr (Some p)).
  { unfold add_participant in Hadd.
    rewrite (get_by_thread_and_user_ok self t u Hok) in Hadd.
    destruct (head _) as [existing|] eqn:Hhead.
    - injection Hadd as <- <-. split; [exact Hok|].
      rewrite (get_by_thread_and_user_ok self t u Hok), Hhead. reflexivity.
    - destruct (Participant t u r kw) as [e|q] eqn:Hq; [discriminate|].
      simpl in Hadd. injection Hadd as <- <-.
      destruct (Hbuild t u r kw q Hq) as (Ht & Hu & _).
      apply (head_filter_None (is_member t u)) in Hhead.
      destruct (store_member self t u q Hok Ht Hu Hhead) as [Hok' Hone].
      split; [exact Hok'|].
      rewrite (get_by_thread_and_user_ok _ t u Hok'), Hone. reflexivity. }
  destruct Hgoal as [Hok' Hget]. split; [exact Hok'|].
  split; [exact Hget|].
  intros r' kw'. unfold add_participant. rewrite Hget. reflexivity.
Qed.


(** The member of a pair is stored under its own id, alone of its pair. *)
Lemma member_split (self : BaseService) (t u : UUID) (p : Item) :
  members_ok self ->
  head (filter (fun item => is_member t u item)
          (dict_values (_storage self))) = Some p ->
  exists l1 l2,
    _storage self = l1 ++ ((id p, p) :: l2)
    /\ (forall v, dict_set (_storage self) (id p) v
                  = l1 ++ ((id p, v) :: l2))
    /\ dict_del (_storage self) (id p) = l1 ++ l2
    /\ dict_get (_storage self) (id p) = Some p
    /\ is_member t u p = true
    /\ filter (fun item => is_member t u item) (dict_values l1) = []
    /\ filter (fun item => is_member t u item) (dict_values l2) = [].
Proof.
  intros Hok Hhead.
  assert (Hin : p ∈ filter (fun item => is_member t u item)
                      (dict_values (_storage self))).
  { destruct (filter _ _) as [|x l]; [discriminate|].
    injection Hhead as ->. left. }
  apply list_elem_of_filter in Hin as [Hp Hin].
  apply Is_true_true in Hp.
  unfold dict_values in Hin. apply list_elem_of_fmap in Hin as ([k v] & -> & Hkv).
  simpl in *.
  pose proof (members_keys self Hok) as Hkeys.
  rewrite Forall_forall in Hkeys. pose proof (Hkeys _ Hkv) as Hk.
  simpl in Hk. subst k.
  pose proof (dict_get_elem _ _ _ (members_dict self Hok) Hkv) as Hget.
  destruct (dict_split _ _ _ Hget) as (l1 & l2 & Hd & _ & Hset & Hdel).
  exists l1, l2. repeat split; try assumption.
  - pose proof (members_unique self Hok t u) as Huniq.
    rewrite Hd in Huniq. unfold dict_values in *.
    rewrite fmap_app, fmap_cons, filter_app, filter_cons_bool in Huniq.
    simpl in Huniq. rewrite Hp, length_app in Huniq. simpl in Huniq.
    destruct (filter _ l1.*2); [reflexivity | simpl in Huniq; lia].
  - pose proof (members_unique self Hok t u) as Huniq.
    rewrite Hd in Huniq. unfold dict_values in *.
    rewrite fmap_app, fmap_cons, filter_app, filter_cons_bool in Huniq.
    simpl in Huniq. rewrite Hp, length_app in Huniq. simpl in Huniq.
    destruct (filter _ l2.*2); [reflexivity | simpl in Huniq; lia].
Qed.

(** X19.  [ParticipantService.remove_participant] never raises on a
    consistent storage: it returns [True] exactly when the pair had a
    member, afterwards the pair has none, the storage stays consistent,
    and a [False] answer leaves it unchanged. *)
Theorem remove_participant_removes (self : BaseService) (t u : UUID) :
  members_ok self ->
  exists removed self',
    remove_participant self t u = inr (removed, self')
    /\ members_ok self'
    /\ get_by_thread_and_user self' t u = inr None
    /\ (removed = true
        <-> exists p, get_by_thread_and_user self t u = inr (Some p))
    /\ (removed = false -> self' = self).
Proof.
  intros Hok. unfold remove_participant.
  rewrite (get_by_thread_and_user_ok self t u Hok).
  destruct (head _) as [p|] eqn:Hhead.
  - destruct (member_split self t u p Hok Hhead)
      as (l1 & l2 & Hd & _ & Hdel & Hget & Hp & H1 & H2).
    unfold delete, dict_contains. rewrite Hget.
    eexists true, _. split; [reflexivity|].
    assert (Hok' : members_ok {| _storage := dict_del (_storage self) (id p) |}).
    { destruct Hok as [Hdict Hkeys Hattrs Huniq]. constructor; simpl.
      - apply dict_del_ok. exact Hdict.
      - apply Forall_dict_del. exact Hkeys.
      - unfold dict_values in *. rewrite Forall_fmap in *.
        apply Forall_dict_del. exact Hattrs.
      - intros t' u'.
        pose proof (filter_dict_del_length (is_member t' u') (_storage self)
                      (id p)).
        specialize (Huniq t' u'). lia. }
    split; [exact Hok'|]. split.
    + rewrite (get_by_thread_and_user_ok _ t u Hok'). simpl. rewrite Hdel.
      unfold dict_values in *. rewrite fmap_app, filter_app, H1, H2.
      reflexivity.
    + split; [split; eauto|discriminate].
  - eexists false, self. split; [reflexivity|]. split; [exact Hok|].
    split; [rewrite (get_by_thread_and_user_ok self t u Hok), Hhead;
            reflexivity|].
    split; [|reflexivity].
    split; [discriminate|]. intros [p [=]].
Qed.

Lemma list_thread_ok (self : BaseService) (t : UUID) :
  members_ok self ->
  list_ self [("thread_id", VUuid t)]
  = inr (filter (fun item => has_filter_values item [("thread_id", VUuid t)])
           (dict_values (_storage self))).
Proof.
  intros Hok. unfold list_. apply select_total.
  intros item key value Hitem Hfilter.
  pose proof (members_attrs self Hok) as Hattrs.
  rewrite Forall_forall in Hattrs.
  destruct (Hattrs item Hitem) as (t' & u' & Ht & Hu).
  apply list_elem_of_singleton in Hfilter as [= -> ->]. eauto.
Qed.

(** X20.  Adding a participant that is new to its thread, under a new
    id, appends it to [list_by_thread] of that thread, raises
    [count_by_thread] to one more than the former length, and leaves
    [list_by_thread] of every other thread as it was. *)
Theorem list_by_thread_after_add (self : BaseService) (t u : UUID)
    (r : ParticipantRole) (kw : list (string * val)) (p : Item) :
  members_ok self ->
  builds_participants Participant ->
  get_by_thread_and_user self t u = inr None ->
  Participant t u r kw = inr p ->
  id p ∉ (_storage self).*1 ->
  exists self' before,
    add_participant model_class Participant self t u r kw = inr (p, self')
    /\ list_by_thread self t [] = inr before
    /\ list_by_thread self' t [] = inr (before ++ [p])
    /\ count_by_thread self' t [] = inr (S (length before))
    /\ (forall t', t' <> t ->
          list_by_thread self' t' [] = list_by_thread self t' []).
Proof.
  intros Hok Hbuild Hnone Hp Hfresh.
  destruct (Hbuild t u r kw p Hp) as (Ht & Hu & _).
  pose proof Hnone as Hempty.
  rewrite (get_by_thread_and_user_ok self t u Hok) in Hempty.
  injection Hempty as Hempty.
  apply (head_filter_None (is_member t u)) in Hempty.
  destruct (store_member self t u p Hok Ht Hu Hempty) as [Hok' _].
  eexists _, _. split.
  { unfold add_participant. rewrite Hnone, Hp. reflexivity. }
  assert (Hvalues : dict_values (dict_set (_storage self) (id p) p)
                    = dict_values (_storage self) ++ [p]).
  { rewrite dict_set_fresh by exact Hfresh. unfold dict_values.
    rewrite fmap_app. reflexivity. }
  assert (Hthread : forall t',
             has_filter_values p [("thread_id", VUuid t')] = (t =? t')).
  { intros t'. unfold has_filter_values. simpl. rewrite Ht. simpl.
    apply andb_true_r. }
  assert (Hlist : forall s t',
             list_by_thread s t' [] = list_ s [("thread_id", VUuid t')])
    by reflexivity.
  assert (Hcount : forall s t',
             count_by_thread s t' []
             = match list_ s [("thread_id", VUuid t')] with
               | inl e => inl e
               | inr items => inr (length items)
               end) by reflexivity.
  rewrite !Hlist, Hcount.
  rewrite (list_thread_ok self t Hok).
  split; [reflexivity|].
  rewrite !(list_thread_ok _ _ Hok'). cbn [_storage]. rewrite Hvalues.
  rewrite filter_app, filter_cons_bool, Hthread, Z.eqb_refl. simpl.
  split; [reflexivity|]. split; [rewrite length_app; simpl; f_equal; lia|].
  intros t' Hne. rewrite !Hlist, (list_thread_ok self t' Hok).
  rewrite (list_thread_ok _ t' Hok'). cbn [_storage]. rewrite Hvalues.
  rewrite filter_app, filter_cons_bool, Hthread.
  destruct (Z.eqb_spec t t'); [congruence|]. simpl.
  rewrite app_nil_r. reflexivity.
Qed.

Context (setattr : Item -> string -> val -> string + Item).

Lemma with_role_attrs (p : Item) (role : ParticipantRole) (key : string) :
  key <> "role" -> getattr (with_role p role) key = getattr p key.
Proof.
  intros Hkey. unfold getattr, with_role. simpl.
  destruct (String.eqb key "id"); [reflexivity|].
  apply lookup_insert_ne. congruence.
Qed.

Lemma with_role_member (p : Item) (role : ParticipantRole) (t u : UUID) :
  is_member t u (with_role p role) = is_member t u p.
Proof.
  unfold is_member, has_filter_values. simpl.
  rewrite !with_role_attrs by discriminate. reflexivity.
Qed.

(** X21.  [ParticipantService.update_role] never raises on a
    consistent storage: it returns [False] and changes nothing when the
    pair has no member; otherwise it returns [True], and the member of the
    pair is the former one with the new role, stored under the same id,
    with the number of stored items unchanged. *)
Theorem update_role_changes_role (self : BaseService) (t u : UUID)
    (role : ParticipantRole) :
  members_ok self ->
  exists updated self',
    update_role setattr self t u role = inr (updated, self')
    /\ members_ok self'
    /\ (updated = false
        -> get_by_thread_and_user self t u = inr None /\ self' = self)
    /\ (updated = true
        -> exists p,
             get_by_thread_and_user self t u = inr (Some p)
             /\ get_by_thread_and_user self' t u
                = inr (Some (with_role p role))
             /\ get self' (id p) = Some (with_role p role)
             /\ getattr (with_role p role) "role"
                = Some (VStr (role_value role))
             /\ count self' [] = count self []).
Proof.
  intros Hok. unfold update_role.
  rewrite (get_by_thread_and_user_ok self t u Hok).
  destruct (head _) as [p|] eqn:Hhead.
  - destruct (member_split self t u p Hok Hhead)
      as (l1 & l2 & Hd & Hset & _ & Hget & Hp & H1 & H2).
    unfold update. change (id (with_role p role)) with (id p).
    rewrite Hget.
    eexists true, _. split; [reflexivity|].
    assert (Hok' : members_ok
                     {| _storage := dict_set (_storage self) (id p)
                                      (with_role p role) |}).
    { pose proof Hok as [Hdict Hkeys Hattrs Huniq]. constructor; simpl.
      - apply dict_set_ok. exact Hdict.
      - apply Forall_dict_set; [exact Hkeys | reflexivity].
      - unfold dict_values in *. rewrite Forall_fmap in *.
        apply Forall_dict_set; [exact Hattrs|]. simpl.
        rewrite !with_role_attrs by discriminate.
        rewrite Forall_forall in Hattrs.
        apply (Hattrs (id p, p)). rewrite Hd. apply elem_of_app. right. left.
      - intros t' u'. specialize (Huniq t' u'). rewrite Hset.
        rewrite Hd in Huniq. unfold dict_values in *.
        rewrite fmap_app, fmap_cons, filter_app, filter_cons_bool in *.
        simpl in *. rewrite with_role_member.
        destruct (is_member t' u' p); rewrite length_app in *; simpl in *;
          lia. }
    split; [exact Hok'|]. split; [discriminate|]. intros _.
    exists p. split; [reflexivity|]. split; [|split; [|split]].
    + rewrite (get_by_thread_and_user_ok _ t u Hok'). simpl. rewrite Hset.
      unfold dict_values in *.
      rewrite fmap_app, fmap_cons, filter_app, filter_cons_bool. simpl.
      rewrite with_role_member, Hp, H1. reflexivity.
    + unfold get. simpl. apply dict_get_set_eq.
    + unfold getattr, with_role. simpl. apply lookup_insert_eq.
    + unfold count, list_, dict_values. simpl. rewrite Hset, Hd.
      rewrite !length_fmap, !length_app. reflexivity.
  - eexists false, self. split; [reflexivity|]. split; [exact Hok|].
    split; [|discriminate]. intros _. split; [|reflexivity].
    reflexivity.
Qed.

End Facts.

Lemma thread1_ok : members_ok MoreSamples.thread1.
Proof.
  constructor; simpl.
  - apply NoDup_singleton.
  - repeat constructor.
  - repeat constructor. exists 1, 10. split; reflexivity.
  - intros t u. unfold dict_values. simpl.
    rewrite filter_cons_bool.
    destruct (is_member t u MoreSamples.admin10); simpl; lia.
Qed.

Lemma build_participant_builds :
  builds_participants MoreSamples.build_participant.
Proof.
  intros t u r kw p. unfold MoreSamples.build_participant.
  destruct kw as [|[key [| | | |i]] kw]; try discriminate.
  intros [= <-]. repeat split; reflexivity.
Qed.

Lemma add_participant_idempotent_witness :
  let self' :=
    {| _storage := [(100, MoreSamples.admin10); (101, MoreSamples.user11)] |} in
  members_ok MoreSamples.thread1
  /\ builds_participants MoreSamples.build_participant
  /\ add_participant MoreSamples.no_model MoreSamples.build_participant
       MoreSamples.thread1 1 11 USER [("id", VUuid 101)]
     = inr (MoreSamples.user11, self')
  /\ (forall r' kw',
        add_participant MoreSamples.no_model MoreSamples.build_participant
          self' 1 11 r' kw' = inr (MoreSamples.user11, self')).
Proof.
  intros self'.
  assert (Hadd : add_participant MoreSamples.no_model
                   MoreSamples.build_participant MoreSamples.thread1 1 11 USER
                   [("id", VUuid 101)] = inr (MoreSamples.user11, self'))
    by reflexivity.
  split; [exact thread1_ok|]. split; [exact build_participant_builds|].
  split; [exact Hadd|].
  exact (proj2 (proj2 (add_participant_idempotent MoreSamples.no_model
                         MoreSamples.build_participant MoreSamples.thread1
                         self' 1 11 USER [("id", VUuid 101)]
                         MoreSamples.user11 thread1_ok
                         build_participant_builds Hadd))).
Defined.

Lemma remove_participant_removes_witness :
  members_ok MoreSamples.thread1
  /\ exists removed self',
       remove_participant MoreSamples.thread1 1 10 = inr (removed, self')
       /\ members_ok self'
       /\ get_by_thread_and_user self' 1 10 = inr None
       /\ (removed = true
           <-> exists p,
                 get_by_thread_and_user MoreSamples.thread1 1 10
                 = inr (Some p))
       /\ (removed = false -> self' = MoreSamples.thread1).
Proof.
  split; [exact thread1_ok|].
  exact (remove_participant_removes MoreSamples.thread1 1 10 thread1_ok).
Defined.

Lemma update_role_changes_role_witness :
  members_ok MoreSamples.thread1
  /\ exists updated self',
       update_role MoreSamples.no_setattr MoreSamples.thread1 1 10 BOT
       = inr (updated, self')
       /\ members_ok self'.
Proof.
  split; [exact thread1_ok|].
  destruct (update_role_changes_role MoreSamples.no_setattr
              MoreSamples.thread1 1 10 BOT thread1_ok)
    as (updated & self' & Hupdate & Hok & _).
  exists updated, self'. split; [exact Hupdate | exact Hok].
Defined.

Lemma list_by_thread_after_add_witness :
  members_ok MoreSamples.thread1
  /\ builds_participants MoreSamples.build_participant
  /\ get_by_thread_and_user MoreSamples.thread1 1 11 = inr None
  /\ MoreSamples.build_participant 1 11 USER [("id", VUuid 101)]
     = inr MoreSamples.user11
  /\ (id MoreSamples.user11 ∉ (_storage MoreSamples.thread1).*1)
  /\ exists self' before,
       add_participant MoreSamples.no_model MoreSamples.build_participant
         MoreSamples.thread1 1 11 USER [("id", VUuid 101)]
       = inr (MoreSamples.user11, self')
       /\ list_by_thread MoreSamples.thread1 1 [] = inr before
       /\ list_by_thread self' 1 [] = inr (before ++ [MoreSamples.user11])
       /\ count_by_thread self' 1 [] = inr (S (length before))
       /\ (forall t', t' <> 1 ->
             list_by_thread self' t' []
             = list_by_thread MoreSamples.thread1 t' []).
Proof.
  assert (Hfresh : id MoreSamples.user11 ∉ (_storage MoreSamples.thread1).*1).
  { simpl. intros H. apply list_elem_of_singleton in H. discriminate H. }
  split; [exact thread1_ok|]. split; [exact build_participant_builds|].
  split; [reflexivity|]. split; [reflexivity|]. split; [exact Hfresh|].
  exact (list_by_thread_after_add MoreSamples.no_model
           MoreSamples.build_participant MoreSamples.thread1 1 11 USER
           [("id", VUuid 101)] MoreSamples.user11 thread1_ok
           build_participant_builds eq_refl eq_refl Hfresh).
Defined.

End MemberFacts.

(* ================================================================== *)
(** * The tool registry and the dispatcher *)
(* ================================================================== *)

Module RegistryFacts.
Import MCP MCPRegistry.

Section Facts.

Context (parse_request : pydict -> exn + MCPRequest).

Lemma as_result_raises (v : handler_value) (e : exn) :
  as_result v = inl e -> is_Exception e = true.
Proof.
  destruct v as [r|[]|[text|entries]]; try discriminate.
  intros [= <-]. reflexivity.
Qed.

(** X22.  Given a request object (not a dictionary) and handlers
    that raise nothing outside [Exception], [process_request] always
    returns a response, with the id of the request: COMPLETED exactly when
    a registered handler returned and its value made a result, which the
    response carries, and FAILED with [success=False] in every other
    case, among them a returned dictionary that the result model
    rejects. *)
Theorem process_request_object_answers (tools : registry)
    (request : MCPRequest) :
  (forall h e,
      MCP.get_tool tools (operation request) ≫= handler = Some h ->
      call_handler h request = Raises e -> is_Exception e = true) ->
  exists response,
    process_request parse_request tools (FromRequest request)
    = Return response
    /\ response_request_id response = request_id request
    /\ (status response = COMPLETED
        <-> exists h v r,
              MCP.get_tool tools (operation request) ≫= handler = Some h
              /\ call_handler h request = Returns v
              /\ as_result v = inr r
              /\ result response = Some r)
    /\ (status response <> COMPLETED ->
        status response = FAILED
        /\ success <$> result response = Some false).
Proof.
  intros Hsafe.
  destruct (MCP.get_tool tools (operation request) ≫= handler) as [h|]
    eqn:Htool.
  - destruct (call_handler h request) as [v|e] eqn:Hcall.
    + destruct (as_result v) as [e|r] eqn:Hresult.
      * rewrite (MCPFacts.process_request_result_rejected parse_request
                   tools (FromRequest request) request h v e eq_refl Htool
                   Hcall Hresult (as_result_raises v e Hresult)).
        eexists. split; [reflexivity|]. simpl. split; [reflexivity|].
        split; [|auto].
        split; [discriminate|].
        intros (h' & v' & r & [= <-] & Hv & Hr & _). congruence.
      * rewrite (MCPFacts.process_request_completed parse_request tools
                   (FromRequest request) request h v r eq_refl Htool Hcall
                   Hresult).
        eexists. split; [reflexivity|]. simpl. split; [reflexivity|].
        split; [|intros H; contradiction].
        split; [intros _; exists h, v, r; auto | reflexivity].
    + rewrite (MCPFacts.process_request_handler_raises parse_request tools
                 (FromRequest request) request h e eq_refl Htool Hcall
                 (Hsafe h e eq_refl Hcall)).
      eexists. split; [reflexivity|]. simpl. split; [reflexivity|].
      split; [|auto].
      split; [discriminate|].
      intros (h' & v & r & [= <-] & Hv & _). congruence.
  - rewrite (MCPFacts.process_request_unknown parse_request tools
               (FromRequest request) request eq_refl Htool).
    eexists. split; [reflexivity|]. simpl. split; [reflexivity|].
    split; [|auto].
    split; [discriminate|]. intros (h' & v & r & [=] & _).
Qed.

Lemma dispatch_table_register (r : tools) (t : ToolSpec) (f : handler_fn) :
  dispatch_table (register r t f)
  = <[name (tool t) := {| name := name (tool t);
                          description := description (tool t);
                          handler := Some f |}]> (dispatch_table r).
Proof. unfold dispatch_table, register. rewrite fmap_insert. reflexivity. Qed.

(** X23.  After [register(tool)(func)] a request for the tool's name
    is answered by [func], whatever was registered under that name
    before: COMPLETED with the result its value makes when it returns,
    FAILED with the message and class name of the exception when it
    raises an [Exception] or the result model rejects the dictionary it
    returned; requests for every other operation are answered as before
    the registration. *)
Theorem register_then_dispatch (r : tools) (t : ToolSpec) (f : handler_fn) :
  (forall request,
      operation request = name (tool t) ->
      process_request parse_request (dispatch_table (register r t f))
        (FromRequest request)
      = match call_handler f request with
        | Returns v =>
            match as_result v with
            | inr made =>
                Return {| response_request_id := request_id request;
                          status := COMPLETED;
                          result := Some made |}
            | inl e =>
                Return (failed_response (request_id request) (exn_text e)
                          "ValidationError")
            end
        | Raises e =>
            if is_Exception e
            then Return (failed_response (request_id request) (exn_text e)
                           (class_name (exn_type e)))
            else Raise e
        end)
  /\ (forall request,
        operation request <> name (tool t) ->
        process_request parse_request (dispatch_table (register r t f))
          (FromRequest request)
        = process_request parse_request (dispatch_table r)
            (FromRequest request)).
Proof.
  split; intros request Hop;
    unfold process_request, try_body, on_handler_error, MCP.get_tool;
    rewrite dispatch_table_register.
  - rewrite Hop, lookup_insert_eq. simpl.
    destruct (call_handler f request) as [v|e].
    + destruct v as [made|[]|[text|entries]]; reflexivity.
    + destruct e as [ty text]. unfold is_Exception, is_ValidationError.
      destruct ty; reflexivity.
  - rewrite lookup_insert_ne by congruence. reflexivity.
Qed.

End Facts.

(** Every tool of a registry that registrations built has a handler and
    is stored under its name. *)
Lemma registered_spec (regs : list (ToolSpec * handler_fn)) (op : string) :
  (is_Some (registered regs !! op)
   <-> op ∈ (fun reg => name (tool reg.1)) <$> regs)
  /\ (forall spec,
        registered regs !! op = Some spec ->
        is_Some (handler (tool spec)) /\ name (tool spec) = op).
Proof.
  unfold registered.
  assert (Hgen : forall (r : tools),
             (forall spec, r !! op = Some spec ->
                           is_Some (handler (tool spec))
                           /\ name (tool spec) = op) ->
             (is_Some (foldl (fun r reg => register r reg.1 reg.2) r regs !! op)
              <-> is_Some (r !! op)
                  \/ op ∈ (fun reg => name (tool reg.1)) <$> regs)
             /\ (forall spec,
                   foldl (fun r reg => register r reg.1 reg.2) r regs !! op
                   = Some spec ->
                   is_Some (handler (tool spec)) /\ name (tool spec) = op)).
  { induction regs as [|[t f] regs IH]; intros r Hr; simpl.
    - split; [|exact Hr]. rewrite elem_of_nil. tauto.
    - destruct (IH (register r t f)) as [Hdom Hhandler].
      + intros spec. unfold register.
        destruct (decide (name (tool t) = op)) as [<-|Hne].
        * rewrite lookup_insert_eq. intros [= <-]. simpl. eauto.
        * rewrite lookup_insert_ne by exact Hne. apply Hr.
      + split; [|exact Hhandler]. rewrite Hdom, elem_of_cons.
        unfold register.
        destruct (decide (name (tool t) = op)) as [<-|Hne].
        * rewrite lookup_insert_eq. split; eauto.
        * rewrite lookup_insert_ne by exact Hne. split.
          -- intros [H|H]; auto.
          -- intros [H|[H|H]]; auto. congruence. }
  destruct (Hgen ∅) as [Hdom Hhandler].
  - intros spec. rewrite lookup_empty. discriminate.
  - split; [|exact Hhandler]. rewrite Hdom, lookup_empty.
    split; [intros [[? [=]]|H]; exact H | auto].
Qed.

(** X24.  For a registry built by registrations, a tool is listed by
    [list_available_tools] exactly when a registration was made under its
    name, and exactly when the dispatcher finds a handler for it. *)
Theorem listed_tools_dispatch (regs : list (ToolSpec * handler_fn))
    (op : string) :
  (is_Some (list_available_tools (registered regs) !! op)
   <-> op ∈ (fun reg => name (tool reg.1)) <$> regs)
  /\ (is_Some (list_available_tools (registered regs) !! op)
      <-> is_Some (MCP.get_tool (dispatch_table (registered regs)) op
                   ≫= handler)).
Proof.
  destruct (registered_spec regs op) as [Hdom Hhandler].
  assert (Hlisted : is_Some (list_available_tools (registered regs) !! op)
                    <-> is_Some (registered regs !! op)).
  { unfold list_available_tools, list_tools. rewrite lookup_fmap.
    rewrite fmap_is_Some. reflexivity. }
  assert (Hcall : is_Some (registered regs !! op)
                  <-> is_Some (MCP.get_tool (dispatch_table (registered regs))
                                 op ≫= handler)).
  { unfold MCP.get_tool, dispatch_table. rewrite lookup_fmap.
    destruct (registered regs !! op) as [spec|] eqn:Hspec; simpl.
    - destruct (Hhandler spec eq_refl) as [[h Hh] _]. rewrite Hh.
      split; eauto.
    - split; intros [? [=]]. }
  split; [rewrite Hlisted; exact Hdom|].
  rewrite Hlisted. exact Hcall.
Qed.

Lemma first_missing_None (req : list string) (kwargs : pydict) :
  first_missing req kwargs = None <-> Forall (fun p => p ∈ kwargs.*1) req.
Proof.
  induction req as [|p req IH]; simpl.
  - split; [constructor | reflexivity].
  - case_bool_decide as Hp.
    + rewrite IH, Forall_cons. tauto.
    + split; [discriminate|]. intros H. apply Forall_cons in H as [H _].
      contradiction.
Qed.

Lemma first_missing_Some (req : list string) (kwargs : pydict) (q : string) :
  first_missing req kwargs = Some q ->
  exists before after,
    req = before ++ q :: after
    /\ (q ∉ kwargs.*1)
    /\ Forall (fun p => p ∈ kwargs.*1) before.
Proof.
  induction req as [|p req IH]; simpl; [discriminate|].
  case_bool_decide as Hp.
  - intros H. destruct (IH H) as (before & after & -> & Hq & Hbefore).
    exists (p :: before), after. repeat split; auto.
  - intros [= ->]. exists [], req. repeat split; auto.
Qed.

(** X25.  The wrapper of [validate_parameters] calls the function, with
    the same arguments, when a tool is registered under the function's
    [__name__] and every required parameter is among the keyword
    arguments; with a registered tool and a required parameter missing it
    raises [ValueError], naming the first missing one in the order of
    [required].  Registering a tool under another name does not help a
    function without tool: the lookup goes by [__name__], and the wrapper
    raises [ValueError] "Tool '...' not found in registry". *)
Theorem validate_parameters_guards (r : tools) (func : pyfunction)
    (args : list pyval) (kwargs : pydict) :
  (forall spec,
      MCPRegistry.get_tool r (fn_name func) = Some spec ->
      Forall (fun p => p ∈ kwargs.*1) (required spec) ->
      validate_parameters r func args kwargs = fn_call func args kwargs)
  /\ (forall spec,
        MCPRegistry.get_tool r (fn_name func) = Some spec ->
        ~ Forall (fun p => p ∈ kwargs.*1) (required spec) ->
        exists before q after,
          required spec = before ++ q :: after
          /\ (q ∉ kwargs.*1)
          /\ Forall (fun p => p ∈ kwargs.*1) before
          /\ validate_parameters r func args kwargs
             = Raises (ValueError ("Missing required parameter: " +:+ q)))
  /\ (forall t f,
        MCPRegistry.get_tool r (fn_name func) = None ->
        name (tool t) <> fn_name func ->
        validate_parameters (register r t f) func args kwargs
        = Raises (ValueError ("Tool '" +:+ fn_name func
                              +:+ "' not found in registry"))).
Proof.
  unfold validate_parameters. split; [|split].
  - intros spec -> Hall. apply first_missing_None in Hall. rewrite Hall.
    reflexivity.
  - intros spec -> Hnot.
    destruct (first_missing (required spec) kwargs) as [q|] eqn:Hq.
    + destruct (first_missing_Some _ _ _ Hq) as (before & after & H1 & H2 & H3).
      exists before, q, after. auto.
    + apply first_missing_None in Hq. contradiction.
  - intros t f Hnone Hname. unfold MCPRegistry.get_tool, register in *.
    rewrite lookup_insert_ne by exact Hname. rewrite Hnone. reflexivity.
Qed.

Lemma process_request_object_answers_witness :
  (forall h e,
      MCP.get_tool Samples.toolbox (operation MoreSamples.echo_request)
        ≫= handler = Some h ->
      call_handler h MoreSamples.echo_request = Raises e ->
      is_Exception e = true)
  /\ exists response,
       process_request (Samples.parse_request 0) Samples.toolbox
         (FromRequest MoreSamples.echo_request) = Return response
       /\ response_request_id response = 1.
Proof.
  assert (Hsafe : forall h e,
             MCP.get_tool Samples.toolbox (operation MoreSamples.echo_request)
               ≫= handler = Some h ->
             call_handler h MoreSamples.echo_request = Raises e ->
             is_Exception e = true).
  { intros h e Hh Hcall.
    assert (Hecho : MCP.get_tool Samples.toolbox
                      (operation MoreSamples.echo_request) ≫= handler
                    = handler Samples.echo) by reflexivity.
    rewrite Hecho in Hh. injection Hh as <-. discriminate Hcall. }
  split; [exact Hsafe|].
  destruct (process_request_object_answers (Samples.parse_request 0)
              Samples.toolbox MoreSamples.echo_request Hsafe)
    as (response & Hresponse & Hid & _).
  exists response. split; [exact Hresponse | exact Hid].
Defined.

Lemma register_then_dispatch_witness :
  operation MoreSamples.echo_request = name (tool MoreSamples.echo_spec)
  /\ process_request (Samples.parse_request 0)
       (dispatch_table
          (register ∅ MoreSamples.echo_spec MoreSamples.echo_handler))
       (FromRequest MoreSamples.echo_request)
     = Return
         {| response_request_id := 1;
            status := COMPLETED;
            result :=
              Some {| success := true;
                      data := Some [("text", PStr "hi")];
                      error := None;
                      metadata := [] |} |}.
Proof.
  split; [reflexivity|].
  exact (proj1 (register_then_dispatch (Samples.parse_request 0) ∅
                  MoreSamples.echo_spec MoreSamples.echo_handler)
           MoreSamples.echo_request eq_refl).
Defined.

Lemma validate_parameters_guards_witness :
  let r := register ∅ MoreSamples.echo_spec MoreSamples.echo_handler in
  (exists spec,
     MCPRegistry.get_tool r (fn_name MoreSamples.echo_function) = Some spec
     /\ required spec = ["text"])
  /\ validate_parameters r MoreSamples.echo_function []
       [("text", PStr "hi")]
     = Returns (PlainValue (PDict [("text", PStr "hi")]))
  /\ validate_parameters r MoreSamples.echo_function []
       [("word", PStr "hi")]
     = Raises (ValueError "Missing required parameter: text").
Proof.
  intros r.
  destruct (MCPRegistry.get_tool r (fn_name MoreSamples.echo_function))
    as [spec|] eqn:Hspec; [|discriminate Hspec].
  assert (Hreq : required spec = ["text"]).
  { injection Hspec as <-. reflexivity. }
  split; [exists spec; split; [reflexivity | exact Hreq]|].
  split.
  - apply (proj1 (validate_parameters_guards r MoreSamples.echo_function []
                    [("text", PStr "hi")]) spec Hspec).
    rewrite Hreq. repeat constructor.
  - destruct (proj1 (proj2 (validate_parameters_guards r
                              MoreSamples.echo_function []
                              [("word", PStr "hi")])) spec Hspec)
      as (before & q & after & Hsplit & Hq & Hbefore & Hraise).
    + rewrite Hreq. intros Hall. apply Forall_cons in Hall as [Hin _].
      simpl in Hin. apply list_elem_of_singleton in Hin. discriminate Hin.
    + rewrite Hraise. rewrite Hreq in Hsplit.
      destruct before as [|b before].
      * injection Hsplit as <- _. reflexivity.
      * injection Hsplit as _ Hrest. destruct before; discriminate Hrest.
Defined.

End RegistryFacts.

